(** * Wellspring: a shallow embedding of the thought, sync and trust code

    The development follows the Python sources of the repository:

    - [Py]          the few Python built-ins the code leans on (list indexing
                    with negative indices, [bytes.hex], [bytes.fromhex],
                    dictionaries in insertion order, JSON values and their
                    equality);
    - [Bloom]       [BloomFilter] of [wellspring_node.py] / [wellspring_node_v2.py];
    - [Core]        [thread-3/core.py]: [create_thought], [sign_content],
                    [verify_signature], [store_thought];
    - [Signed]      [SignedThought] of [wellspring_node.py]: [compute_cid],
                    [sign], [verify_signature];
    - [Node]        [wellspring_node.py]: [_store_thought],
                    [get_missing_for_peer];
    - [NodeV2]      [wellspring_node_v2.py]: [_can_share_with_peer] and the
                    visibility-filtered [get_missing_for_peer];
    - [Sync]        two small nodes and what they send to a peer;
    - [Toy]         stand-ins for the external libraries, for closed examples;
    - [Thoughts]    content identifiers, signatures and storing a thought twice;
    - [Embeddings]  [thread-2/wellspring_embeddings.py]: the relevance score of
                    [EmbeddingPipeline.query];
    - [Repeaters]   [wellspring_repeaters.py]: the memoised, repeater-aware
                    [compute_trust];
    - [TrustNet]    [wellspring_trust_network.py]: the breadth-first
                    [compute_trust];
    - [BloomBits]   which bits a filter has set, and what it reports;
    - [NodeStore]   [receive_thoughts] of [wellspring_node.py]: what the store,
                    the keys and the filter are after a batch;
    - [NodeCreate]  [WellspringNode.__init__] and [create_thought];
    - [NodeSync]    a round of [get_missing_for_peer] and [receive_thoughts]
                    between two nodes;
    - [Pools]       [wellspring_node_v2.py]: [add_pool_member],
                    [establish_peering], [_record_received_via] and the
                    statistics of the selection;
    - [CoreKeys]    [thread-3/core.py]: [create_identity],
                    [create_connection] and signatures that verify;
    - [RepeaterScores] the cache and the range of the scores of
                    [wellspring_repeaters.py];
    - [TrustPaths]  the path [compute_trust] of [wellspring_trust_network.py]
                    returns, and [Identity.would_surface];
    - [Context]     [WellspringRAG.get_context] and its token budget;
    - [Appetite]    [set_appetite] and [query] of the embedding pipeline.

    Functions of external libraries (SHA-256, BLAKE3, Ed25519, base64,
    MurmurHash3, [json.dumps]) are parameters of the sections that use them:
    the theorems hold for every choice, and closed examples instantiate them
    with small stand-ins that make the bytes that get hashed or signed
    visible. *)

From Stdlib Require Import ZArith List String Ascii Bool Lia QArith Lqa Floats Uint63.
From stdpp Require Import base option list sorting strings gmap pretty.

Open Scope Z_scope.
#[local] Set Warnings "-register-all".

(* ===================================================================== *)
(** * Python built-ins *)
(* ===================================================================== *)

Module Py.

(** [a % b] on Python ints: floor modulo, [ZeroDivisionError] ([None]) when
    [b = 0]. For [b > 0] the result lies in [[0, b)] whatever the sign of [a]. *)
Definition mod_ (a b : Z) : option Z :=
  if b =? 0 then None else Some (a `mod` b).

(** Position denoted by the index [i] in a list: negative indices count from
    the end, anything else out of range is an [IndexError] ([None]). *)
Definition index {A} (l : list A) (i : Z) : option nat :=
  let n := Z.of_nat (length l) in
  if (0 <=? i) && (i <? n) then Some (Z.to_nat i)
  else if (- n <=? i) && (i <? 0) then Some (Z.to_nat (i + n))
  else None.

(** [l[i]] and [l[i] = x]. *)
Definition getitem {A} (l : list A) (i : Z) : option A :=
  k ← index l i; l !! k.

Definition setitem {A} (l : list A) (i : Z) (x : A) : option (list A) :=
  k ← index l i; Some (<[k:=x]> l).

(** [l[:n]]: the first [n] elements, or all but the last [-n] when [n < 0]. *)
Definition slice_to {A} (l : list A) (n : Z) : list A :=
  if 0 <=? n then take (Z.to_nat n) l
  else take (Z.to_nat (Z.of_nat (length l) + n)) l.

(** [range(n)]. *)
Definition range (n : Z) : list Z := Z.of_nat <$> seq 0 (Z.to_nat n).

(** [bytes.hex()]: two lower-case digits per byte. *)
Definition hexdigit (n : Z) : ascii :=
  if n <? 10 then ascii_of_nat (Z.to_nat (48 + n))
  else ascii_of_nat (Z.to_nat (87 + n)).

Fixpoint bytes_hex (bs : list Z) : string :=
  match bs with
  | [] => EmptyString
  | b :: rest =>
      String (hexdigit (b / 16)) (String (hexdigit (b `mod` 16)) (bytes_hex rest))
  end.

(** [bytes.fromhex(s)]: ASCII whitespace between bytes is skipped, each byte
    is two hexadecimal digits of either case, anything else is a
    [ValueError] ([None]). *)
Definition hexval (c : ascii) : option Z :=
  let n := Z.of_nat (nat_of_ascii c) in
  if (48 <=? n) && (n <=? 57) then Some (n - 48)
  else if (97 <=? n) && (n <=? 102) then Some (n - 87)
  else if (65 <=? n) && (n <=? 70) then Some (n - 55)
  else None.

Definition is_space (c : ascii) : bool :=
  let n := Z.of_nat (nat_of_ascii c) in
  (n =? 32) || ((9 <=? n) && (n <=? 13)).

Fixpoint bytes_fromhex (s : string) : option (list Z) :=
  match s with
  | EmptyString => Some []
  | String c rest =>
      if is_space c then bytes_fromhex rest
      else match rest with
           | EmptyString => None
           | String d rest' =>
               hi ← hexval c;
               lo ← hexval d;
               bs ← bytes_fromhex rest';
               Some (hi * 16 + lo :: bs)
           end
  end.

(** [s[:n]], [s[n:]] and [sub in s] on strings. *)
Definition str_take (n : nat) (s : string) : string := String.substring 0 n s.

Fixpoint str_drop (n : nat) (s : string) : string :=
  match n, s with
  | O, _ => s
  | S n', String _ rest => str_drop n' rest
  | S _, EmptyString => EmptyString
  end.

Definition str_in (sub s : string) : bool :=
  match String.index 0 sub s with Some _ => true | None => false end.

(** [s.replace(old, "")]: occurrences of [old] are removed from left to
    right; the fuel is the length of [s], one unit per step. *)
Fixpoint str_remove_aux (fuel : nat) (old s : string) : string :=
  match fuel with
  | O => s
  | S fuel' =>
      match s with
      | EmptyString => EmptyString
      | String c rest =>
          if String.prefix old s
          then str_remove_aux fuel' old (str_drop (String.length old) s)
          else String c (str_remove_aux fuel' old rest)
      end
  end.

Definition str_remove (old s : string) : string :=
  str_remove_aux (String.length s) old s.

(** A Python truth test on an optional string: [None] and [""] are false. *)
Definition truthy (v : option string) : bool :=
  match v with
  | Some (String _ _) => true
  | _ => false
  end.

(** ** Dictionaries in insertion order

    [d[k] = v] keeps the position of a key already present and appends a new
    one; iteration follows the list. *)
Fixpoint dict_get {V} (d : list (string * V)) (k : string) : option V :=
  match d with
  | [] => None
  | (k', v) :: rest => if String.eqb k' k then Some v else dict_get rest k
  end.

Definition dict_mem {V} (d : list (string * V)) (k : string) : bool :=
  match dict_get d k with Some _ => true | None => false end.

Fixpoint dict_set {V} (d : list (string * V)) (k : string) (v : V)
  : list (string * V) :=
  match d with
  | [] => [(k, v)]
  | (k', v') :: rest =>
      if String.eqb k' k then (k, v) :: rest else (k', v') :: dict_set rest k v
  end.

Definition dict_keys {V} (d : list (string * V)) : list string := fst <$> d.

(** ** Sets of strings

    A [set] is kept as the list of its elements in the order they were
    added; [set_add] is [s.add(x)]. The order in which Python iterates over
    a set depends on the (per-process randomised) hashes of its elements:
    the code that iterates takes that order as a parameter. *)
Definition set_mem (s : list string) (x : string) : bool :=
  existsb (String.eqb x) s.

Definition set_add (s : list string) (x : string) : list string :=
  if set_mem s x then s else s ++ [x].

(** ** JSON values

    The values a thought's [content] holds: null, booleans, integers,
    strings, lists and dictionaries (floats do not occur in the fields the
    modelled code inspects and are left out). *)
Inductive json :=
| JNull
| JBool (b : bool)
| JInt (z : Z)
| JStr (s : string)
| JList (l : list json)
| JObj (o : list (string * json)).

(** [a == b]: structural, with [True == 1] and [False == 0] as in Python,
    dictionaries compared without regard to order. *)
Fixpoint py_eq (a b : json) {struct a} : bool :=
  match a, b with
  | JNull, JNull => true
  | JBool x, JBool y => Bool.eqb x y
  | JBool x, JInt y => Z.b2z x =? y
  | JInt x, JBool y => x =? Z.b2z y
  | JInt x, JInt y => x =? y
  | JStr x, JStr y => String.eqb x y
  | JList l1, JList l2 =>
      (fix go (l1 l2 : list json) : bool :=
         match l1, l2 with
         | [], [] => true
         | x :: r1, y :: r2 => py_eq x y && go r1 r2
         | _, _ => false
         end) l1 l2
  | JObj o1, JObj o2 =>
      (length o1 =? length o2)%nat
      && (fix go (o : list (string * json)) : bool :=
            match o with
            | [] => true
            | (k, v) :: r =>
                match dict_get o2 k with
                | Some v' => py_eq v v'
                | None => false
                end && go r
            end) o1
  | _, _ => false
  end.

(** [x in c]: membership in a list, key membership in a dictionary,
    substring test on a string; a [TypeError] ([None]) otherwise. *)
Definition py_in (x c : json) : option bool :=
  match c with
  | JList l => Some (existsb (py_eq x) l)
  | JObj o =>
      match x with
      | JStr k => Some (dict_mem o k)
      | JNull | JBool _ | JInt _ => Some false
      | JList _ | JObj _ => None
      end
  | JStr s =>
      match x with
      | JStr sub => Some (str_in sub s)
      | _ => None
      end
  | JNull | JBool _ | JInt _ => None
  end.

(** ** Lemmas *)

Lemma index_in_range {A} (l : list A) (i : Z) :
  0 <= i < Z.of_nat (length l) -> index l i = Some (Z.to_nat i).
Proof.
  intros [H0 Hn]. unfold index.
  apply Z.leb_le in H0. apply Z.ltb_lt in Hn.
  now rewrite H0, Hn.
Qed.

Lemma mod_pos (a b : Z) : 0 < b -> mod_ a b = Some (a `mod` b).
Proof.
  intros Hb. unfold mod_.
  destruct (b =? 0) eqn:E; [apply Z.eqb_eq in E; lia | reflexivity].
Qed.

Lemma elem_of_range (n i : Z) : i ∈ range n <-> 0 <= i < n.
Proof.
  unfold range. rewrite list_elem_of_fmap. split.
  - intros (k & -> & Hk). apply elem_of_seq in Hk. lia.
  - intros Hi. exists (Z.to_nat i). split; [lia|].
    apply elem_of_seq. lia.
Qed.

(** A property of the integers below [bound], checked one by one. *)
Lemma below_cases (bound : nat) (P : Z -> Prop) :
  (forall k : nat, (k < bound)%nat -> P (Z.of_nat k)) ->
  forall n, 0 <= n < Z.of_nat bound -> P n.
Proof.
  intros H n Hn. rewrite <- (Z2Nat.id n) by lia. apply H. lia.
Qed.

Lemma hexval_hexdigit (n : Z) : 0 <= n < 16 -> hexval (hexdigit n) = Some n.
Proof.
  revert n. apply (below_cases 16). intros k Hk.
  do 16 (destruct k as [|k]; [reflexivity|]). lia.
Qed.

Lemma is_space_hexdigit (n : Z) : 0 <= n < 16 -> is_space (hexdigit n) = false.
Proof.
  revert n. apply (below_cases 16). intros k Hk.
  do 16 (destruct k as [|k]; [reflexivity|]). lia.
Qed.

(** [bytes.fromhex(bs.hex()) == bs] for every byte string. *)
Lemma bytes_fromhex_hex (bs : list Z) :
  Forall (fun b => 0 <= b < 256) bs -> bytes_fromhex (bytes_hex bs) = Some bs.
Proof.
  induction 1 as [|b bs Hb _ IH]; [reflexivity|].
  assert (Hhi : 0 <= b / 16 < 16).
  { split; [apply Z.div_pos; lia | apply Z.div_lt_upper_bound; lia]. }
  assert (Hlo : 0 <= b `mod` 16 < 16) by (apply Z.mod_pos_bound; lia).
  cbn [bytes_hex bytes_fromhex].
  rewrite (is_space_hexdigit _ Hhi), (hexval_hexdigit _ Hhi), (hexval_hexdigit _ Hlo), IH.
  cbn. f_equal. f_equal.
  pose proof (Z.div_mod b 16). lia.
Qed.

Lemma py_eq_str (s : string) (p : json) : py_eq (JStr s) p = true <-> p = JStr s.
Proof.
  destruct p; cbn; try (split; [discriminate | discriminate]).
  rewrite String.eqb_eq. split; congruence.
Qed.

Lemma py_eq_str_r (x : json) (s : string) : py_eq x (JStr s) = true <-> x = JStr s.
Proof.
  destruct x; cbn; try (split; [discriminate | discriminate]).
  rewrite String.eqb_eq. split; congruence.
Qed.

Lemma existsb_py_eq_str (s : string) (ps : list json) :
  existsb (py_eq (JStr s)) ps = true <-> JStr s ∈ ps.
Proof.
  rewrite existsb_exists. split.
  - intros (p & Hin & Heq). apply py_eq_str in Heq. subst p.
    now apply list_elem_of_In.
  - intros Hin. exists (JStr s). split; [now apply list_elem_of_In|].
    now apply py_eq_str.
Qed.

Lemma set_mem_true (s : list string) (x : string) : set_mem s x = true <-> x ∈ s.
Proof.
  unfold set_mem. rewrite existsb_exists. split.
  - intros (y & Hin & Heq). apply String.eqb_eq in Heq. subst y.
    now apply list_elem_of_In.
  - intros Hin. exists x. split; [now apply list_elem_of_In | apply String.eqb_refl].
Qed.

Lemma elem_of_set_add (s : list string) (x y : string) :
  y ∈ set_add s x <-> y ∈ s \/ y = x.
Proof.
  unfold set_add. destruct (set_mem s x) eqn:E.
  - apply set_mem_true in E. split; [auto | intros [H | ->]; auto].
  - rewrite elem_of_app, list_elem_of_singleton. reflexivity.
Qed.

Lemma dict_mem_true {V} (d : list (string * V)) (k : string) :
  dict_mem d k = true <-> k ∈ dict_keys d.
Proof.
  unfold dict_mem, dict_keys. induction d as [|[k' v] d IH]; cbn.
  - split; [discriminate | intros H; inversion H].
  - rewrite elem_of_cons. destruct (String.eqb_spec k' k) as [->|Hne].
    + split; auto.
    + rewrite IH. split; [auto | intros [H | H]; [congruence | exact H]].
Qed.

Lemma dict_get_mem {V} (d : list (string * V)) (k : string) (v : V) :
  dict_get d k = Some v -> dict_mem d k = true.
Proof. unfold dict_mem. now intros ->. Qed.

(** ** Two dictionaries with the same keys in the same order

    [dict_rel R d d']: the values under each key are related by [R]. *)
Definition dict_rel {V} (R : V -> V -> Prop) (d d' : list (string * V)) : Prop :=
  Forall2 (fun x y => x.1 = y.1 /\ R x.2 y.2) d d'.


Lemma dict_rel_get {V} (R : V -> V -> Prop) (d d' : list (string * V)) (k : string) :
  dict_rel R d d' -> option_Forall2 R (dict_get d k) (dict_get d' k).
Proof.
  induction 1 as [|[a v] [a' v'] d d' (Ha & Hv) _ IH]; cbn; [constructor|].
  cbn in Ha, Hv. subst a'. destruct (String.eqb a k); [now constructor | exact IH].
Qed.

Lemma dict_rel_set {V} (R : V -> V -> Prop) (d d' : list (string * V)) (k : string)
    (v v' : V) :
  dict_rel R d d' -> R v v' -> dict_rel R (dict_set d k v) (dict_set d' k v').
Proof.
  intros Hd Hv.
  induction Hd as [|[a u] [a' u'] d d' (Ha & Hu) Hrest IH]; cbn.
  - constructor; [now split | constructor].
  - cbn in Ha, Hu. subst a'. destruct (String.eqb a k).
    + constructor; [now split | exact Hrest].
    + constructor; [now split | exact IH].
Qed.

Lemma dict_rel_length {V} (R : V -> V -> Prop) (d d' : list (string * V)) :
  dict_rel R d d' -> length d = length d'.
Proof. apply Forall2_length. Qed.

Lemma set_mem_set_add (s : list string) (x y : string) :
  set_mem (set_add s x) y = set_mem s y || String.eqb y x.
Proof.
  unfold set_add. destruct (set_mem s x) eqn:E.
  - destruct (String.eqb_spec y x) as [->|_]; [|now rewrite orb_false_r].
    now rewrite E.
  - unfold set_mem. rewrite existsb_app. cbn. now rewrite orb_false_r.
Qed.

(** ** Sorting

    [a <= b] on strings: lexicographic, by code point. *)
Fixpoint str_le (a b : string) : bool :=
  match a, b with
  | EmptyString, _ => true
  | String _ _, EmptyString => false
  | String x a', String y b' =>
      if (nat_of_ascii x <? nat_of_ascii y)%nat then true
      else if (nat_of_ascii y <? nat_of_ascii x)%nat then false
      else str_le a' b'
  end.

(** [sorted(l, key=...)], [le] comparing the keys: the sort is stable, an
    element goes before the first later one whose key is not smaller. *)
Fixpoint insert_sorted {A} (le : A -> A -> bool) (x : A) (l : list A) : list A :=
  match l with
  | [] => [x]
  | y :: rest => if le x y then x :: l else y :: insert_sorted le x rest
  end.

Definition sorted {A} (le : A -> A -> bool) (l : list A) : list A :=
  foldr (insert_sorted le) [] l.

Lemma str_le_total (a b : string) : str_le a b = true \/ str_le b a = true.
Proof.
  revert b. induction a as [|x a IH]; intros [|y b]; cbn [str_le]; auto.
  destruct (Nat.ltb_spec (nat_of_ascii x) (nat_of_ascii y));
    destruct (Nat.ltb_spec (nat_of_ascii y) (nat_of_ascii x)); auto; lia.
Qed.

Lemma str_le_trans (a b c : string) :
  str_le a b = true -> str_le b c = true -> str_le a c = true.
Proof.
  revert b c. induction a as [|x a IH]; intros [|y b] [|z c]; cbn [str_le]; auto;
    try discriminate.
  destruct (Nat.ltb_spec (nat_of_ascii x) (nat_of_ascii y));
    destruct (Nat.ltb_spec (nat_of_ascii y) (nat_of_ascii x));
    destruct (Nat.ltb_spec (nat_of_ascii y) (nat_of_ascii z));
    destruct (Nat.ltb_spec (nat_of_ascii z) (nat_of_ascii y));
    destruct (Nat.ltb_spec (nat_of_ascii x) (nat_of_ascii z));
    destruct (Nat.ltb_spec (nat_of_ascii z) (nat_of_ascii x));
    try discriminate; try lia; auto.
  apply IH.
Qed.

Lemma insert_sorted_perm {A} (le : A -> A -> bool) (x : A) (l : list A) :
  insert_sorted le x l ≡ₚ x :: l.
Proof.
  induction l as [|y rest IH]; cbn; [reflexivity|].
  destruct (le x y); [reflexivity|].
  rewrite IH. apply Permutation_swap.
Qed.

(** The sorted list has the elements of the list. *)
Lemma sorted_perm {A} (le : A -> A -> bool) (l : list A) : sorted le l ≡ₚ l.
Proof.
  induction l as [|x l IH]; cbn; [reflexivity|].
  now rewrite insert_sorted_perm, IH.
Qed.

Section Ordered.

Context {A : Type} (le : A -> A -> bool).
Hypothesis le_total : forall x y, le x y = true \/ le y x = true.
Hypothesis le_trans : forall x y z, le x y = true -> le y z = true -> le x z = true.

Lemma insert_sorted_ordered (x : A) (l : list A) :
  StronglySorted (fun a b => le a b = true) l ->
  StronglySorted (fun a b => le a b = true) (insert_sorted le x l).
Proof.
  induction 1 as [|y rest Hrest IH Hy]; cbn; [repeat constructor|].
  destruct (le x y) eqn:E.
  - constructor; [now constructor|]. constructor; [exact E|].
    eapply Forall_impl; [exact Hy|]. intros z Hz. now apply (le_trans x y z).
  - constructor; [exact IH|].
    rewrite (insert_sorted_perm le x rest). constructor; [|exact Hy].
    destruct (le_total x y) as [H|H]; [congruence | exact H].
Qed.

(** Every element of the sorted list is at most those after it. *)
Lemma sorted_ordered (l : list A) :
  StronglySorted (fun a b => le a b = true) (sorted le l).
Proof.
  induction l as [|x l IH]; cbn; [constructor|].
  now apply insert_sorted_ordered.
Qed.

(** An element that no other may precede comes first. *)
Lemma sorted_before (l : list A) (x y : A) :
  x ∈ l -> y ∈ l -> le y x = false ->
  exists l1 l2 l3, sorted le l = l1 ++ x :: l2 ++ y :: l3.
Proof.
  intros Hx Hy Hyx.
  pose proof (sorted_ordered l) as Hs.
  rewrite <- (sorted_perm le l) in Hx, Hy.
  apply list_elem_of_split in Hx as (l1 & r & Heq).
  rewrite Heq in Hy, Hs |- *.
  apply elem_of_app in Hy as [Hy|Hy].
  - exfalso.
    pose proof (StronglySorted_app_1_elem_of _ _ _ y x Hs Hy
                  ltac:(apply list_elem_of_here)) as Hle.
    cbn in Hle. congruence.
  - apply elem_of_cons in Hy as [->|Hy].
    + exfalso. destruct (le_total x x) as [H|H]; congruence.
    + apply list_elem_of_split in Hy as (l2 & l3 & ->). now exists l1, l2, l3.
Qed.

End Ordered.

End Py.

(* ===================================================================== *)
(** * The bloom filter of the sync nodes *)
(* ===================================================================== *)

Module Bloom.

(** [class BloomFilter]: [bits] holds only 0 and 1 in the source ([[0] * size],
    [bits[idx] = 1], [(byte_val >> j) & 1]); it is a list of booleans here. *)
Record BloomFilter := mk { size : Z; hash_count : Z; bits : list bool }.

(** [__init__]: [[0] * size] is empty for [size <= 0]. *)
Definition init (size hash_count : Z) : BloomFilter :=
  mk size hash_count (replicate (Z.to_nat size) false).

Definition default_size : Z := 1024.
Definition default_hash_count : Z := 3.

Section WithHash.

(** [mmh3.hash(item, seed)]: MurmurHash3, a signed 32-bit integer. *)
Variable mmh3_hash : string -> Z -> Z.

(** [mmh3.hash(item, i) % self.size] *)
Definition slot (f : BloomFilter) (item : string) (i : Z) : option Z :=
  Py.mod_ (mmh3_hash item i) (size f).

(** [add]: the loop over [range(self.hash_count)], from the seeds left. *)
Fixpoint add_from (f : BloomFilter) (item : string) (seeds : list Z)
  : option BloomFilter :=
  match seeds with
  | [] => Some f
  | i :: rest =>
      idx ← slot f item i;
      bs ← Py.setitem (bits f) idx true;
      add_from (mk (size f) (hash_count f) bs) item rest
  end.

Definition add (f : BloomFilter) (item : string) : option BloomFilter :=
  add_from f item (Py.range (hash_count f)).

(** [maybe_contains]: returns [False] at the first clear bit. *)
Fixpoint maybe_contains_from (f : BloomFilter) (item : string) (seeds : list Z)
  : option bool :=
  match seeds with
  | [] => Some true
  | i :: rest =>
      idx ← slot f item i;
      b ← Py.getitem (bits f) idx;
      if b : bool then maybe_contains_from f item rest else Some false
  end.

Definition maybe_contains (f : BloomFilter) (item : string) : option bool :=
  maybe_contains_from f item (Py.range (hash_count f)).

(** Adding a list of items one after the other. *)
Fixpoint add_all (f : BloomFilter) (items : list string) : option BloomFilter :=
  match items with
  | [] => Some f
  | x :: rest => f' ← add f x; add_all f' rest
  end.

End WithHash.

(** [to_hex]: the byte packed from [bits[i .. i+7]], bit [j] of the byte
    being [bits[i + j]] (missing positions count as 0). *)
Definition byte_val (bs : list bool) (i : nat) : Z :=
  foldl (fun acc j =>
           match bs !! (i + j)%nat with
           | Some b => Z.lor acc (Z.shiftl (Z.b2z b) (Z.of_nat j))
           | None => acc
           end) 0 (seq 0 8).

(** [range(0, len(self.bits), 8)] has [ceil(len / 8)] elements. *)
Definition to_bytes (bs : list bool) : list Z :=
  (fun k => byte_val bs (8 * k)) <$> seq 0 ((length bs + 7) / 8)%nat.

Definition to_hex (f : BloomFilter) : string := Py.bytes_hex (to_bytes (bits f)).

(** [from_hex]: eight bits per byte, least significant first, cut to [size]. *)
Definition unpack (byte_arr : list Z) : list bool :=
  byte_val ← byte_arr;
  (fun j => Z.land (Z.shiftr byte_val j) 1 =? 1) <$> Py.range 8.

Definition from_hex (hex_str : string) (size hash_count : Z) : option BloomFilter :=
  byte_arr ← Py.bytes_fromhex hex_str;
  Some (mk size hash_count (Py.slice_to (unpack byte_arr) size)).

(** A filter as the constructor and [add] leave it: as many bits as [size]. *)
Definition wf (f : BloomFilter) : Prop :=
  0 < size f /\ Z.of_nat (length (bits f)) = size f.

(** Every bit [item] hashes to is set. *)
Definition recorded (mmh3_hash : string -> Z -> Z) (f : BloomFilter) (item : string) : Prop :=
  forall i, 0 <= i < hash_count f ->
    bits f !! Z.to_nat (mmh3_hash item i `mod` size f) = Some true.

(** ** No false negatives *)

Section NoFalseNegatives.

Variable mmh3_hash : string -> Z -> Z.

Lemma slot_wf (f : BloomFilter) (item : string) (i : Z) :
  wf f ->
  slot mmh3_hash f item i = Some (mmh3_hash item i `mod` size f)
  /\ Py.index (bits f) (mmh3_hash item i `mod` size f)
     = Some (Z.to_nat (mmh3_hash item i `mod` size f))
  /\ (Z.to_nat (mmh3_hash item i `mod` size f) < length (bits f))%nat.
Proof.
  intros [Hpos Hlen].
  pose proof (Z.mod_pos_bound (mmh3_hash item i) (size f) Hpos) as Hb.
  split; [apply Py.mod_pos, Hpos|].
  split; [apply Py.index_in_range; lia | lia].
Qed.

Lemma add_from_spec (item : string) (seeds : list Z) :
  forall f, wf f ->
  exists f', add_from mmh3_hash f item seeds = Some f'
    /\ wf f' /\ size f' = size f /\ hash_count f' = hash_count f
    /\ (forall k : nat, bits f !! k = Some true -> bits f' !! k = Some true)
    /\ (forall i, i ∈ seeds ->
          bits f' !! Z.to_nat (mmh3_hash item i `mod` size f) = Some true).
Proof.
  induction seeds as [|i0 rest IH]; intros f Hwf.
  - exists f. repeat split; try apply Hwf; auto.
    intros i Hi. inversion Hi.
  - destruct (slot_wf f item i0 Hwf) as (Hslot & Hidx & Hlt).
    set (k0 := Z.to_nat (mmh3_hash item i0 `mod` size f)) in *.
    set (f1 := mk (size f) (hash_count f) (<[k0:=true]> (bits f))).
    assert (Hwf1 : wf f1).
    { destruct Hwf as [Hpos Hlen]. split; [exact Hpos|].
      cbn. rewrite length_insert. exact Hlen. }
    destruct (IH f1 Hwf1) as (f' & Hadd & Hwf' & Hsz & Hhc & Hmono & Hset).
    exists f'. cbn [add_from]. rewrite Hslot. cbn.
    unfold Py.setitem. rewrite Hidx. cbn. fold f1. rewrite Hadd.
    assert (Hstep : forall k : nat, bits f !! k = Some true -> bits f1 !! k = Some true).
    { intros k Hk. cbn. destruct (decide (k0 = k)) as [->|Hne].
      - apply list_lookup_insert_eq. exact Hlt.
      - rewrite list_lookup_insert_ne by exact Hne. exact Hk. }
    repeat split; try apply Hwf'; auto.
    intros i Hi. apply elem_of_cons in Hi as [->|Hi].
    + apply Hmono. cbn. apply list_lookup_insert_eq. exact Hlt.
    + apply (Hset i Hi).
Qed.

Lemma maybe_contains_from_true (f : BloomFilter) (item : string) (seeds : list Z) :
  wf f ->
  (forall i, i ∈ seeds ->
     bits f !! Z.to_nat (mmh3_hash item i `mod` size f) = Some true) ->
  maybe_contains_from mmh3_hash f item seeds = Some true.
Proof.
  intros Hwf. induction seeds as [|i0 rest IH]; intros Hall; [reflexivity|].
  destruct (slot_wf f item i0 Hwf) as (Hslot & Hidx & _).
  cbn [maybe_contains_from]. rewrite Hslot. cbn.
  unfold Py.getitem. rewrite Hidx. cbn.
  rewrite (Hall i0) by apply list_elem_of_here. cbn.
  apply IH. intros i Hi. apply Hall. now apply list_elem_of_further.
Qed.

Lemma recorded_maybe_contains (f : BloomFilter) (item : string) :
  wf f -> recorded mmh3_hash f item -> maybe_contains mmh3_hash f item = Some true.
Proof.
  intros Hwf Hrec. apply maybe_contains_from_true; [exact Hwf|].
  intros i Hi. apply Hrec. now apply Py.elem_of_range.
Qed.

Lemma add_spec (f : BloomFilter) (item : string) :
  wf f ->
  exists f', add mmh3_hash f item = Some f'
    /\ wf f' /\ size f' = size f /\ hash_count f' = hash_count f
    /\ recorded mmh3_hash f' item
    /\ (forall y, recorded mmh3_hash f y -> recorded mmh3_hash f' y).
Proof.
  intros Hwf.
  destruct (add_from_spec item (Py.range (hash_count f)) f Hwf)
    as (f' & Hadd & Hwf' & Hsz & Hhc & Hmono & Hset).
  exists f'. repeat split; try apply Hwf'; auto.
  - intros i Hi. rewrite Hsz. apply Hset. apply Py.elem_of_range. now rewrite <- Hhc.
  - intros y Hy i Hi. rewrite Hsz. apply Hmono, Hy. now rewrite <- Hhc.
Qed.

Lemma add_all_spec (items : list string) :
  forall f, wf f ->
  exists f', add_all mmh3_hash f items = Some f'
    /\ wf f' /\ size f' = size f /\ hash_count f' = hash_count f
    /\ (forall x, x ∈ items -> recorded mmh3_hash f' x)
    /\ (forall y, recorded mmh3_hash f y -> recorded mmh3_hash f' y).
Proof.
  induction items as [|x rest IH]; intros f Hwf.
  - exists f. repeat split; try apply Hwf; auto. intros x Hx. inversion Hx.
  - destruct (add_spec f x Hwf) as (f1 & Hadd & Hwf1 & Hsz1 & Hhc1 & Hrec1 & Hmono1).
    destruct (IH f1 Hwf1) as (f' & Hall & Hwf' & Hsz & Hhc & Hrec & Hmono).
    exists f'. cbn [add_all]. rewrite Hadd. cbn. rewrite Hall.
    repeat split; try apply Hwf'; try congruence.
    + intros y Hy. apply elem_of_cons in Hy as [->|Hy]; auto.
    + intros y Hy. auto.
Qed.

Lemma init_wf (size hash_count : Z) : 0 < size -> wf (init size hash_count).
Proof.
  intros Hpos. split; [exact Hpos|]. cbn. rewrite length_replicate. lia.
Qed.

End NoFalseNegatives.

(** ** Hexadecimal round trip *)

Lemma land_shiftr_1 (b j : Z) : 0 <= j ->
  (Z.land (Z.shiftr b j) 1 =? 1) = Z.testbit b j.
Proof.
  intros Hj.
  change 1 with (Z.ones 1) at 1. rewrite Z.land_ones by lia.
  change (2 ^ 1) with 2.
  rewrite <- Z.bit0_mod, Z.shiftr_spec by lia. rewrite Z.add_0_l.
  now destruct (Z.testbit b j).
Qed.

Lemma testbit_b2z_shiftl (b : bool) (j n : Z) : 0 <= j -> 0 <= n ->
  Z.testbit (Z.shiftl (Z.b2z b) j) n = (j =? n) && b.
Proof.
  intros Hj Hn. rewrite Z.shiftl_spec by lia.
  destruct (Z.eqb_spec j n) as [->|Hne].
  - rewrite Z.sub_diag. now destruct b.
  - destruct (Z.lt_ge_cases n j).
    + rewrite Z.testbit_neg_r by lia. reflexivity.
    + destruct b; cbn [Z.b2z].
      * change 1 with (2 ^ 0). rewrite Z.pow2_bits_eqb by lia.
        destruct (Z.eqb_spec 0 (n - j)); [lia | reflexivity].
      * apply Z.bits_0.
Qed.

Lemma testbit_pack (bs : list bool) (i : nat) (js : list nat) :
  forall acc n, 0 <= n ->
  Z.testbit (foldl (fun acc j =>
               match bs !! (i + j)%nat with
               | Some b => Z.lor acc (Z.shiftl (Z.b2z b) (Z.of_nat j))
               | None => acc
               end) acc js) n
  = Z.testbit acc n
    || existsb (fun j => (Z.of_nat j =? n) && default false (bs !! (i + j)%nat)) js.
Proof.
  induction js as [|j js IH]; intros acc n Hn; cbn [foldl existsb].
  - now rewrite orb_false_r.
  - rewrite IH by exact Hn. destruct (bs !! (i + j)%nat) as [b|]; cbn [default].
    + rewrite Z.lor_spec, testbit_b2z_shiftl by lia. now rewrite orb_assoc.
    + now rewrite andb_false_r.
Qed.

Lemma testbit_byte_val (bs : list bool) (i : nat) (n : Z) : 0 <= n ->
  Z.testbit (byte_val bs i) n
  = if n <? 8 then default false (bs !! (i + Z.to_nat n)%nat) else false.
Proof.
  intros Hn. unfold byte_val. rewrite testbit_pack by exact Hn.
  rewrite Z.bits_0. cbn [orb seq existsb].
  destruct (n <? 8) eqn:E.
  - apply Z.ltb_lt in E. revert n Hn E.
    assert (Hall : forall n, 0 <= n < Z.of_nat 8 ->
      (Z.of_nat 0 =? n) && default false (bs !! (i + 0)%nat)
      || ((Z.of_nat 1 =? n) && default false (bs !! (i + 1)%nat)
      || ((Z.of_nat 2 =? n) && default false (bs !! (i + 2)%nat)
      || ((Z.of_nat 3 =? n) && default false (bs !! (i + 3)%nat)
      || ((Z.of_nat 4 =? n) && default false (bs !! (i + 4)%nat)
      || ((Z.of_nat 5 =? n) && default false (bs !! (i + 5)%nat)
      || ((Z.of_nat 6 =? n) && default false (bs !! (i + 6)%nat)
      || ((Z.of_nat 7 =? n) && default false (bs !! (i + 7)%nat) || false)))))))
      = default false (bs !! (i + Z.to_nat n)%nat)).
    { apply (Py.below_cases 8). intros k Hk. rewrite Nat2Z.id.
      do 8 (destruct k as [|k]; [cbn; now rewrite ?orb_false_r|]). lia. }
    intros n Hn E. apply Hall. lia.
  - apply Z.ltb_ge in E.
    repeat match goal with
    | |- context [Z.of_nat ?k =? n] =>
        destruct (Z.eqb_spec (Z.of_nat k) n); [lia|]
    end. reflexivity.
Qed.

Lemma byte_val_range (bs : list bool) (i : nat) : 0 <= byte_val bs i < 256.
Proof.
  set (a := byte_val bs i).
  assert (Hhigh : forall n, 8 <= n -> Z.testbit a n = false).
  { intros n Hn. unfold a. rewrite testbit_byte_val by lia.
    destruct (n <? 8) eqn:E; [apply Z.ltb_lt in E; lia | reflexivity]. }
  assert (Hnn : 0 <= a).
  { destruct (Z.lt_ge_cases a 0) as [Hneg|]; [|lia].
    pose proof (Z.log2_nonneg (Z.abs a)) as Hl.
    assert (Hb : Z.testbit a (Z.max 8 (Z.log2 (Z.abs a) + 1)) = true).
    { apply Z.bits_iff_neg; [lia | exact Hneg]. }
    rewrite Hhigh in Hb by lia. discriminate. }
  split; [exact Hnn|].
  destruct (Z.lt_ge_cases a 256) as [|Hge]; [assumption|].
  assert (Hlog : 8 <= Z.log2 a).
  { change 8 with (Z.log2 256). apply Z.log2_le_mono. lia. }
  pose proof (Z.bit_log2 a ltac:(lia)) as Hb.
  rewrite Hhigh in Hb by exact Hlog. discriminate.
Qed.

Lemma lookup_unpack (byte_arr : list Z) :
  forall (k j : nat), (j < 8)%nat ->
  unpack byte_arr !! (8 * k + j)%nat
  = (fun b => Z.testbit b (Z.of_nat j)) <$> (byte_arr !! k).
Proof.
  induction byte_arr as [|b rest IH]; intros k j Hj; [reflexivity|].
  change (unpack (b :: rest))
    with (((fun j => Z.land (Z.shiftr b j) 1 =? 1) <$> Py.range 8) ++ unpack rest).
  assert (Hlen : length ((fun j => Z.land (Z.shiftr b j) 1 =? 1) <$> Py.range 8) = 8%nat)
    by reflexivity.
  destruct k as [|k].
  - rewrite lookup_app_l by lia.
    rewrite list_lookup_fmap. unfold Py.range.
    rewrite list_lookup_fmap. change (Z.to_nat 8) with 8%nat.
    rewrite lookup_seq_lt by lia. cbn [fmap option_fmap option_map].
    rewrite Nat.mul_0_r, !Nat.add_0_l. now rewrite land_shiftr_1 by lia.
  - rewrite lookup_app_r by lia. rewrite Hlen.
    replace (8 * S k + j - 8)%nat with (8 * k + j)%nat by lia.
    apply IH, Hj.
Qed.

Lemma unpack_to_bytes (bs : list bool) :
  take (length bs) (unpack (to_bytes bs)) = bs.
Proof.
  apply list_eq. intros p.
  destruct (Nat.lt_ge_cases p (length bs)) as [Hlt|Hge].
  - rewrite lookup_take_lt by exact Hlt.
    rewrite (Nat.div_mod_eq p 8) at 1.
    assert (Hr : (p mod 8 < 8)%nat) by (apply Nat.mod_upper_bound; lia).
    rewrite lookup_unpack by exact Hr.
    unfold to_bytes. rewrite list_lookup_fmap.
    rewrite lookup_seq_lt.
    2:{ apply Nat.Div0.div_lt_upper_bound. pose proof (Nat.div_mod_eq (length bs + 7) 8).
        pose proof (Nat.mod_upper_bound (length bs + 7) 8). lia. }
    cbn [fmap option_fmap option_map]. rewrite Nat.add_0_l.
    rewrite testbit_byte_val by lia.
    assert (E8 : (Z.of_nat (p mod 8) <? 8) = true) by (apply Z.ltb_lt; lia).
    rewrite E8, Nat2Z.id, <- Nat.div_mod_eq.
    destruct (lookup_lt_is_Some_2 bs p Hlt) as [x Hx]. now rewrite Hx.
  - rewrite lookup_take_ge by exact Hge.
    symmetry. now apply lookup_ge_None.
Qed.

(** Hex serialisation round-trips the bit array exactly. *)
Lemma from_hex_to_hex (f : BloomFilter) :
  Z.of_nat (length (bits f)) = size f ->
  from_hex (to_hex f) (size f) (hash_count f) = Some f.
Proof.
  intros Hlen. unfold from_hex, to_hex.
  rewrite Py.bytes_fromhex_hex.
  2:{ unfold to_bytes. apply Forall_fmap, Forall_forall. intros k _. apply byte_val_range. }
  cbn. unfold Py.slice_to.
  assert (E : (0 <=? size f) = true) by (apply Z.leb_le; lia).
  rewrite E. replace (Z.to_nat (size f)) with (length (bits f)) by lia.
  rewrite unpack_to_bytes. now destruct f.
Qed.

End Bloom.

(* ===================================================================== *)
(** * The core thought primitives of [thread-3/core.py] *)
(* ===================================================================== *)

Module Core.

(** [class Identity] *)
Record Identity := mkIdentity {
  name : string;
  pubkey : string;
  id_cid : string;
  _privkey : option string
}.

(** [class Thought]; [content] is any JSON value, [created_at] is in
    milliseconds. *)
Record Thought := mkThought {
  cid : string;
  type : string;
  content : Py.json;
  created_by : string;
  created_at : Z;
  because : list string;
  signature : string;
  visibility : option string;
  source : option string
}.

(** A row of the [thoughts] table, whose primary key is [cid]: the other
    eight columns. *)
Record row := mkRow {
  r_type : string;
  r_content : string;
  r_created_by : string;
  r_created_at : Z;
  r_because : string;
  r_signature : string;
  r_visibility : option string;
  r_source : option string
}.

(** The SQLite table and the lines of [thoughts.jsonl]. *)
Record storage := mkStorage {
  db : gmap string row;
  jsonl : list string
}.

(** The dictionary [signable] of [create_thought]. *)
Definition signable (thought_type : string) (content : Py.json)
    (created_by : string) (created_at : Z) (because : list string)
    (visibility source : option string) : list (string * Py.json) :=
  [ ("type"%string, Py.JStr thought_type);
    ("content"%string, content);
    ("created_by"%string, Py.JStr created_by);
    ("created_at"%string, Py.JInt created_at);
    ("because"%string, Py.JList (Py.JStr <$> because)) ]
  ++ (if Py.truthy visibility
      then [("visibility"%string, Py.JStr (default EmptyString visibility))]
      else [])
  ++ (if Py.truthy source
      then [("source"%string, Py.JStr (default EmptyString source))]
      else []).

(** An optional string as a JSON value. *)
Definition json_opt (v : option string) : Py.json :=
  match v with Some s => Py.JStr s | None => Py.JNull end.

(** [asdict(thought)] *)
Definition asdict (t : Thought) : Py.json :=
  Py.JObj
    [ ("cid"%string, Py.JStr (cid t));
      ("type"%string, Py.JStr (type t));
      ("content"%string, content t);
      ("created_by"%string, Py.JStr (created_by t));
      ("created_at"%string, Py.JInt (created_at t));
      ("because"%string, Py.JList (Py.JStr <$> because t));
      ("signature"%string, Py.JStr (signature t));
      ("visibility"%string, json_opt (visibility t));
      ("source"%string, json_opt (source t)) ].

Section WithLibraries.

(** [json.dumps(obj, sort_keys=True, separators=(',', ':'))] and the plain
    [json.dumps(obj)]. *)
Variable json_dumps_canonical : Py.json -> string.
Variable json_dumps : Py.json -> string.
(** [blake3.blake3(s.encode()).hexdigest()] *)
Variable blake3_hexdigest : string -> string.
(** PyNaCl: [SigningKey(hex, encoder=HexEncoder)] and
    [VerifyKey(hex, encoder=HexEncoder)] ([None] when they raise),
    [signing_key.sign(message).signature], and [verify_key.verify(message,
    signature)] ([false] when it raises). *)
Variable nacl_signing_key : string -> option (list Z).
Variable nacl_sign : list Z -> string -> list Z.
Variable nacl_verify_key : string -> option (list Z).
Variable nacl_verify : list Z -> string -> list Z -> bool.

Definition canonicalize (obj : Py.json) : string := json_dumps_canonical obj.

Definition compute_cid (content : Py.json) : string :=
  "cid:blake3:" ++ blake3_hexdigest (canonicalize content).

(** [sign_content]: [None] is the [ValueError] of a missing private key or
    an exception of [SigningKey]. *)
Definition sign_content (cid : string) (identity : Identity) : option string :=
  if Py.truthy (_privkey identity) then
    signing_key ← nacl_signing_key (default EmptyString (_privkey identity));
    Some (Py.bytes_hex (nacl_sign signing_key cid))
  else None.

(** [create_thought]; [now] is [int(time.time() * 1000)]. *)
Definition create_thought (content : Py.json) (thought_type : string)
    (identity : Identity) (because : list string)
    (visibility source : option string) (now : Z) : option Thought :=
  let cid := compute_cid (Py.JObj (signable thought_type content (id_cid identity)
                                              now because visibility source)) in
  signature ← sign_content cid identity;
  Some (mkThought cid thought_type content (id_cid identity) now because
                  signature visibility source).

(** [verify_signature] *)
Definition verify_signature (thought : Thought) (pubkey : string) : bool :=
  let key_hex := Py.str_remove "ed25519:" pubkey in
  match nacl_verify_key key_hex with
  | Some verify_key =>
      match Py.bytes_fromhex (signature thought) with
      | Some sig => nacl_verify verify_key (cid thought) sig
      | None => false
      end
  | None => false
  end.

(** [store_thought]: [INSERT OR REPLACE] into the table, then one line
    appended to the JSONL file. *)
Definition store_thought (thought : Thought) (s : storage) : storage :=
  mkStorage
    (<[cid thought :=
         mkRow (type thought) (json_dumps (content thought)) (created_by thought)
               (created_at thought) (json_dumps (Py.JList (Py.JStr <$> because thought)))
               (signature thought) (visibility thought) (source thought)]> (db s))
    (jsonl s ++ [(json_dumps (asdict thought) ++ String (ascii_of_nat 10) EmptyString)%string]).

End WithLibraries.

End Core.

(* ===================================================================== *)
(** * Signed thoughts of the sync nodes *)
(* ===================================================================== *)

Module Signed.

(** [class SignedThought] ([wellspring_node.py]; the same class stands in
    [wellspring_node_v2.py] and [wellspring_repeaters.py]). [created_at]
    defaults to the current time in the source and is an argument here. *)
Record SignedThought := mkSigned {
  type : string;
  content : list (string * Py.json);
  created_by : string;
  because : list string;
  visibility : option string;
  created_at : string;
  signature : option string;
  cid : option string
}.

(** The dictionary [to_dict] returns for a signed thought, which is what the
    nodes store and exchange: [t_visibility = None] stands for a missing or
    null ["visibility"] key. *)
Record thought := mkThought {
  t_cid : string;
  t_type : string;
  t_content : list (string * Py.json);
  t_created_by : string;
  t_because : list string;
  t_created_at : string;
  t_signature : string;
  t_visibility : option string
}.

(** [SignedThought(type=..., content=..., created_by=..., because=...,
    visibility=...)]: neither signature nor CID yet. *)
Definition new (type : string) (content : list (string * Py.json))
    (created_by : string) (because : list string) (visibility : option string)
    (now : string) : SignedThought :=
  mkSigned type content created_by because visibility now None None.

(** The dictionary [sign_data] that [sign] and [_verify_signature] build. *)
Definition sign_data (type : string) (content : list (string * Py.json))
    (created_by : string) (because : list string) (created_at : string)
    (visibility : option string) : list (string * Py.json) :=
  [ ("type"%string, Py.JStr type);
    ("content"%string, Py.JObj content);
    ("created_by"%string, Py.JStr created_by);
    ("because"%string, Py.JList (Py.JStr <$> because));
    ("created_at"%string, Py.JStr created_at) ]
  ++ (if Py.truthy visibility
      then [("visibility"%string, Py.JStr (default EmptyString visibility))]
      else []).

(** [{**sign_data, "signature": signature}] *)
Definition cid_data (sd : list (string * Py.json)) (signature : string)
  : list (string * Py.json) :=
  Py.dict_set sd "signature" (Py.JStr signature).

Section WithCrypto.

(** [json.dumps(d, sort_keys=True, separators=(',', ':'))] *)
Variable json_dumps : Py.json -> string.
(** [hashlib.sha256(s.encode()).hexdigest()] *)
Variable sha256_hexdigest : string -> string.
(** [base64.b64encode(b).decode()] and [base64.b64decode(s)] *)
Variable b64encode : list Z -> string.
Variable b64decode : string -> option (list Z).
(** [private_key.sign(message)] for an Ed25519 private key, and
    [Ed25519PublicKey.from_public_bytes(pk).verify(sig, message)]: [false]
    when either call raises. *)
Variable ed25519_sign : list Z -> string -> list Z.
Variable ed25519_verify : list Z -> list Z -> string -> bool.

(** [compute_cid]: ["baf_"] and the first 32 hexadecimal digits of the
    SHA-256 of the canonical JSON. *)
Definition compute_cid (data : list (string * Py.json)) : string :=
  "baf_" ++ Py.str_take 32 (sha256_hexdigest (json_dumps (Py.JObj data))).

(** The bytes [sign] signs: the canonical JSON of [sign_data]. *)
Definition message (t : SignedThought) : string :=
  json_dumps (Py.JObj (sign_data (type t) (content t) (created_by t) (because t)
                                 (created_at t) (visibility t))).

(** [SignedThought.sign] *)
Definition sign (t : SignedThought) (private_key : list Z) : SignedThought :=
  let sd := sign_data (type t) (content t) (created_by t) (because t)
                      (created_at t) (visibility t) in
  let sig_bytes := ed25519_sign private_key (json_dumps (Py.JObj sd)) in
  let sig := b64encode sig_bytes in
  mkSigned (type t) (content t) (created_by t) (because t) (visibility t)
           (created_at t) (Some sig) (Some (compute_cid (cid_data sd sig))).

(** [to_dict], for a thought that was signed ([None] before). *)
Definition to_dict (t : SignedThought) : option thought :=
  c ← cid t;
  sg ← signature t;
  Some (mkThought c (type t) (content t) (created_by t) (because t)
                  (created_at t) sg
                  (if Py.truthy (visibility t) then visibility t else None)).

(** The signature check of [_verify_signature] once the key is known: the
    body of its [try] block. *)
Definition check_signature (pubkey_hex : Py.json) (th : thought) : bool :=
  match pubkey_hex with
  | Py.JStr hex =>
      match Py.bytes_fromhex hex with
      | Some pk =>
          let sd := sign_data (t_type th) (t_content th) (t_created_by th)
                              (t_because th) (t_created_at th) (t_visibility th) in
          match b64decode (t_signature th) with
          | Some sig_bytes => ed25519_verify pk sig_bytes (json_dumps (Py.JObj sd))
          | None => false
          end
      | None => false
      end
  | _ => false
  end.

(** [_verify_signature]: [None] is the [KeyError] of an identity thought
    without a ["pubkey"], raised outside the [try]. *)
Definition verify_signature (pubkeys : gmap string Py.json) (th : thought)
  : option bool :=
  if String.eqb (t_type th) "identity" && String.eqb (t_created_by th) "GENESIS"
  then pk ← Py.dict_get (t_content th) "pubkey"; Some (check_signature pk th)
  else match pubkeys !! t_created_by th with
       | Some pk => Some (check_signature pk th)
       | None => Some false
       end.

End WithCrypto.

End Signed.

(* ===================================================================== *)
(** * The sync node of [wellspring_node.py] *)
(* ===================================================================== *)

Module Node.
Import Signed.

(** [class WellspringNode]: the state the store and sync methods read and
    write ([name], [port] and [peers] play no part in them). *)
Record WellspringNode := mkNode {
  self_cid : string;
  thoughts : list (string * thought);
  pubkeys : gmap string Py.json;
  bloom : Bloom.BloomFilter;
  received_count : Z;
  sent_count : Z;
  verified_count : Z;
  rejected_count : Z
}.

(** The sort key of [receive_thoughts],
    [(0 if t["type"] == "identity" else 1, t.get("created_at", ""))], and
    [<=] on two such tuples. *)
Definition sort_key (t : thought) : Z * string :=
  (if String.eqb (t_type t) "identity" then 0 else 1, t_created_at t).

Definition key_le (a b : thought) : bool :=
  (fst (sort_key a) <? fst (sort_key b))
  || ((fst (sort_key a) =? fst (sort_key b))
      && Py.str_le (snd (sort_key a)) (snd (sort_key b))).

(** [sorted_thoughts = sorted(thoughts, key=...)] *)
Definition sorted_thoughts (thoughts : list thought) : list thought :=
  Py.sorted key_le thoughts.

Section WithLibraries.

Variable json_dumps : Py.json -> string.
Variable b64decode : string -> option (list Z).
Variable ed25519_verify : list Z -> list Z -> string -> bool.
Variable mmh3_hash : string -> Z -> Z.
(** The order in which Python iterates over the set whose elements were
    added in the given order. *)
Variable set_iter : list string -> list string.

Definition _verify_signature (n : WellspringNode) (th : thought) : option bool :=
  verify_signature json_dumps b64decode ed25519_verify (pubkeys n) th.

(** [_store_thought]: the returned boolean and the node afterwards; [None]
    when an exception escapes. *)
Definition _store_thought (n : WellspringNode) (th : thought)
  : option (bool * WellspringNode) :=
  let cid := t_cid th in
  if Py.dict_mem (thoughts n) cid then Some (false, n)
  else
    ok ← _verify_signature n th;
    if ok : bool then
      bloom' ← Bloom.add mmh3_hash (bloom n) cid;
      pubkeys' ←
        (if String.eqb (t_type th) "identity" && String.eqb (t_created_by th) "GENESIS"
         then pk ← Py.dict_get (t_content th) "pubkey"; Some (<[cid := pk]> (pubkeys n))
         else Some (pubkeys n));
      Some (true,
            mkNode (self_cid n) (Py.dict_set (thoughts n) cid th) pubkeys' bloom'
                   (received_count n) (sent_count n) (verified_count n + 1)
                   (rejected_count n))
    else
      Some (false,
            mkNode (self_cid n) (thoughts n) (pubkeys n) (bloom n)
                   (received_count n) (sent_count n) (verified_count n)
                   (rejected_count n + 1)).

(** The two loops of [receive_thoughts] over a list of thoughts, with the
    node, [new_count] and [deferred] so far; only the first loop defers a
    thought that was not stored and is not in the store. *)
Fixpoint receive_loop (first : bool) (ths : list thought) (n : WellspringNode)
    (new_count : Z) (deferred : list thought)
  : option (WellspringNode * Z * list thought) :=
  match ths with
  | [] => Some (n, new_count, deferred)
  | th :: rest =>
      r ← _store_thought n th;
      if r.1 : bool then
        receive_loop first rest
          (mkNode (self_cid r.2) (thoughts r.2) (pubkeys r.2) (bloom r.2)
                  (received_count r.2 + 1) (sent_count r.2) (verified_count r.2)
                  (rejected_count r.2))
          (new_count + 1) deferred
      else if first && negb (Py.dict_mem (thoughts r.2) (t_cid th))
      then receive_loop first rest r.2 new_count (deferred ++ [th])
      else receive_loop first rest r.2 new_count deferred
  end.

(** [receive_thoughts]: the node afterwards and the counts ["received"]
    and ["new"]. *)
Definition receive_thoughts (n : WellspringNode) (ths : list thought)
  : option (WellspringNode * Z * Z) :=
  p1 ← receive_loop true (sorted_thoughts ths) n 0 [];
  p2 ← receive_loop false p1.2 p1.1.1 p1.1.2 [];
  Some (p2.1.1, Z.of_nat (length ths), p2.1.2).

(** First pass of [get_missing_for_peer]: the CIDs the peer's filter does
    not report, in the order of [self.thoughts]. *)
Fixpoint missing_pass (peer_bloom : Bloom.BloomFilter) (cids : list string)
    (missing_cids : list string) : option (list string) :=
  match cids with
  | [] => Some missing_cids
  | cid :: rest =>
      present ← Bloom.maybe_contains mmh3_hash peer_bloom cid;
      missing_pass peer_bloom rest
        (if present : bool then missing_cids else Py.set_add missing_cids cid)
  end.

(** Second pass: the identities that signed a missing thought and that the
    peer's filter does not report either. *)
Fixpoint identity_pass (store : list (string * thought))
    (peer_bloom : Bloom.BloomFilter) (cids : list string)
    (needed_identities : list string) : option (list string) :=
  match cids with
  | [] => Some needed_identities
  | cid :: rest =>
      th ← Py.dict_get store cid;
      let created_by := t_created_by th in
      if negb (String.eqb created_by "GENESIS") && Py.dict_mem store created_by
      then
        present ← Bloom.maybe_contains mmh3_hash peer_bloom created_by;
        identity_pass store peer_bloom rest
          (if present : bool then needed_identities
           else Py.set_add needed_identities created_by)
      else identity_pass store peer_bloom rest needed_identities
  end.

(** [self.thoughts[cid]] for each CID of a list. *)
Definition fetch (store : list (string * thought)) (cids : list string)
  : option (list thought) :=
  mapM (Py.dict_get store) cids.

(** [get_missing_for_peer]: the CIDs of the returned thoughts, in order. *)
Definition missing_cids_for_peer (n : WellspringNode) (peer_bloom_hex : string)
  : option (list string) :=
  peer_bloom ← Bloom.from_hex peer_bloom_hex Bloom.default_size Bloom.default_hash_count;
  missing_cids ← missing_pass peer_bloom (Py.dict_keys (thoughts n)) [];
  needed_identities ←
    identity_pass (thoughts n) peer_bloom (set_iter missing_cids) [];
  Some (filter (fun cid => Py.set_mem missing_cids cid = false)
               (set_iter needed_identities)
        ++ set_iter missing_cids).

Definition get_missing_for_peer (n : WellspringNode) (peer_bloom_hex : string)
  : option (list thought) :=
  cids ← missing_cids_for_peer n peer_bloom_hex;
  fetch (thoughts n) cids.

End WithLibraries.


(** ** What the selection sends *)

Section SelectionLemmas.

Variable mmh3_hash : string -> Z -> Z.

Lemma missing_pass_v1_spec (peer_bloom : Bloom.BloomFilter) (cids : list string) :
  forall acc m,
  missing_pass mmh3_hash peer_bloom cids acc = Some m ->
  forall c, c ∈ m <->
    c ∈ acc \/ (c ∈ cids /\ Bloom.maybe_contains mmh3_hash peer_bloom c = Some false).
Proof.
  induction cids as [|cid rest IH]; intros acc m H c; cbn in H.
  - simplify_eq. split; [auto|]. intros [Ha|[Hc _]]; [assumption | inversion Hc].
  - destruct (Bloom.maybe_contains mmh3_hash peer_bloom cid) as [[|]|] eqn:E;
      cbn in H; [| |discriminate].
    + rewrite (IH _ _ H c), elem_of_cons. split.
      * intros [?|[? ?]]; auto.
      * intros [?|[[-> |?] ?]]; [auto | congruence | auto].
    + rewrite (IH _ _ H c), Py.elem_of_set_add, elem_of_cons. split.
      * intros [[?| ->]|[? ?]]; auto.
      * intros [?|[[-> |?] ?]]; auto.
Qed.

Lemma identity_pass_v1_spec (store : list (string * thought))
    (peer_bloom : Bloom.BloomFilter) (cids : list string) :
  forall acc needed,
  identity_pass mmh3_hash store peer_bloom cids acc = Some needed ->
  forall c, c ∈ needed ->
    c ∈ acc
    \/ (c ∈ Py.dict_keys store
        /\ Bloom.maybe_contains mmh3_hash peer_bloom c = Some false).
Proof.
  induction cids as [|cid rest IH]; intros acc needed H c Hc; cbn in H.
  - simplify_eq. auto.
  - destruct (Py.dict_get store cid) as [th|] eqn:Eth; cbn in H; [|discriminate].
    destruct (negb (t_created_by th =? "GENESIS")%string
              && Py.dict_mem store (t_created_by th)) eqn:Eg.
    2:{ exact (IH _ _ H c Hc). }
    apply andb_true_iff in Eg as [_ Hmem].
    destruct (Bloom.maybe_contains mmh3_hash peer_bloom (t_created_by th))
      as [[|]|] eqn:Eb; cbn in H; [| |discriminate].
    { exact (IH _ _ H c Hc). }
    destruct (IH _ _ H c Hc) as [Hacc|?]; [|auto].
    apply Py.elem_of_set_add in Hacc as [?| ->]; [auto|].
    right. split; [now apply Py.dict_mem_true | exact Eb].
Qed.

Variable set_iter : list string -> list string.
Hypothesis set_iter_elem : forall l x, x ∈ set_iter l <-> x ∈ l.

(** What [get_missing_for_peer] sends: the thoughts of the store that the
    peer's filter does not report, in the iteration order of the set
    [missing_cids]; the identities collected by the second pass are all in
    that set already, so that the loop meant to put them first adds nothing. *)
Lemma missing_cids_for_peer_spec (n : WellspringNode) (peer_bloom_hex : string)
    (cids : list string) :
  missing_cids_for_peer mmh3_hash set_iter n peer_bloom_hex = Some cids ->
  exists peer_bloom missing_cids,
    Bloom.from_hex peer_bloom_hex Bloom.default_size Bloom.default_hash_count
      = Some peer_bloom
    /\ cids = set_iter missing_cids
    /\ forall c, c ∈ missing_cids <->
         c ∈ Py.dict_keys (thoughts n)
         /\ Bloom.maybe_contains mmh3_hash peer_bloom c = Some false.
Proof.
  unfold missing_cids_for_peer. intros H.
  destruct (Bloom.from_hex _ _ _) as [pb|] eqn:Epb; cbn in H; [|discriminate].
  destruct (missing_pass _ _ _ _) as [m|] eqn:Em; cbn in H; [|discriminate].
  destruct (identity_pass _ _ _ _ _) as [needed|] eqn:Ei; cbn in H; [|discriminate].
  simplify_eq.
  pose proof (missing_pass_v1_spec _ _ _ _ Em) as Hm.
  pose proof (identity_pass_v1_spec _ _ _ _ _ Ei) as Hi.
  assert (Hm' : forall c, c ∈ m <->
            c ∈ Py.dict_keys (thoughts n)
            /\ Bloom.maybe_contains mmh3_hash pb c = Some false).
  { intros c. rewrite Hm. split; [|auto]. intros [Hc|?]; [inversion Hc | auto]. }
  exists pb, m. split; [reflexivity|]. split; [|exact Hm'].
  destruct (filter _ (set_iter needed)) as [|c rest] eqn:Ef; [reflexivity|exfalso].
  match type of Ef with
  | ?t = _ => assert (Hc : c ∈ t) by (rewrite Ef; apply list_elem_of_here)
  end.
  apply list_elem_of_filter in Hc as [Hnot Hc].
  apply (proj1 (set_iter_elem _ _)) in Hc. destruct (Hi c Hc) as [Hacc|Hin]; [inversion Hacc|].
  apply Hm', Py.set_mem_true in Hin. congruence.
Qed.

End SelectionLemmas.

End Node.

(* ===================================================================== *)
(** * The visibility-aware sync node of [wellspring_node_v2.py] *)
(* ===================================================================== *)

Module NodeV2.
Import Signed.

(** [class WellspringNodeV2]: the state of [WellspringNode] and the pool
    and peer tables. *)
Record WellspringNodeV2 := mkNode {
  self_cid : string;
  thoughts : list (string * thought);
  pubkeys : gmap string Py.json;
  bloom : Bloom.BloomFilter;
  pool_memberships : gmap string (gset string);
  peer_shared_pools : gmap string (gset string);
  known_peers : gmap string thought;
  received_via : gmap string string;
  filtered_count : Z
}.

(** The [stats] dictionary of [get_missing_for_peer]. *)
Record sync_stats := mkStats {
  total_checked : Z;
  missing : Z;
  filtered_local_forever : Z;
  filtered_pool_access : Z;
  filtered_participants : Z;
  shared : Z
}.

Definition is_pool_member (n : WellspringNodeV2) (pool_cid identity_cid : string) : bool :=
  bool_decide (identity_cid ∈ default ∅ (pool_memberships n !! pool_cid)).

Definition get_shared_pools (n : WellspringNodeV2) (peer_cid : string) : gset string :=
  default ∅ (peer_shared_pools n !! peer_cid).

(** [self.known_peers.get(peer_cid, {}).get("content", {}).get("name")] *)
Definition peer_name (n : WellspringNodeV2) (peer_cid : string) : Py.json :=
  match known_peers n !! peer_cid with
  | Some identity => default Py.JNull (Py.dict_get (t_content identity) "name")
  | None => Py.JNull
  end.

(** [thought.get("content", {}).get("participants", [])] *)
Definition participants (th : thought) : Py.json :=
  default (Py.JList []) (Py.dict_get (t_content th) "participants").

(** [_can_share_with_peer]: the decision and its reason; [None] is the
    [TypeError] of [in] on a ["participants"] value that is no container. *)
Definition _can_share_with_peer (n : WellspringNodeV2) (th : thought)
    (peer_cid : string) : option (bool * string) :=
  match t_visibility th with
  | None => Some (true, "public"%string)
  | Some visibility =>
      if String.eqb visibility "public" then Some (true, "public"%string)
      else if String.eqb visibility "local_forever"
      then Some (false, "local_forever"%string)
      else if String.prefix "pool:" visibility then
        let pool_cid := Py.str_drop 5 visibility in
        if is_pool_member n pool_cid peer_cid
        then Some (true, ("peer_is_member:" ++ pool_cid)%string)
        else if bool_decide (pool_cid ∈ get_shared_pools n peer_cid)
        then Some (true, ("shared_pool:" ++ pool_cid)%string)
        else Some (false, ("no_pool_access:" ++ pool_cid)%string)
      else if String.eqb visibility "participants_only" then
        by_cid ← Py.py_in (Py.JStr peer_cid) (participants th);
        if by_cid : bool then Some (true, "is_participant"%string)
        else
          by_name ← Py.py_in (peer_name n peer_cid) (participants th);
          if by_name : bool then Some (true, "is_participant"%string)
          else Some (false, "not_participant"%string)
      else Some (false, ("unknown_visibility:" ++ visibility)%string)
  end.

Section WithLibraries.

Variable mmh3_hash : string -> Z -> Z.
Variable set_iter : list string -> list string.

(** First pass of [get_missing_for_peer]. *)
Fixpoint missing_pass (peer_bloom : Bloom.BloomFilter) (cids : list string)
    (missing_cids : list string) (st : sync_stats)
  : option (list string * sync_stats) :=
  match cids with
  | [] => Some (missing_cids, st)
  | cid :: rest =>
      let st1 := mkStats (total_checked st + 1) (missing st)
                   (filtered_local_forever st) (filtered_pool_access st)
                   (filtered_participants st) (shared st) in
      present ← Bloom.maybe_contains mmh3_hash peer_bloom cid;
      if present : bool then missing_pass peer_bloom rest missing_cids st1
      else missing_pass peer_bloom rest (Py.set_add missing_cids cid)
             (mkStats (total_checked st1) (missing st1 + 1)
                (filtered_local_forever st1) (filtered_pool_access st1)
                (filtered_participants st1) (shared st1))
  end.

(** The counter a withheld thought is booked under, by its reason. *)
Definition count_filtered (reason : string) (st : sync_stats) : sync_stats :=
  if Py.str_in "local_forever" reason then
    mkStats (total_checked st) (missing st) (filtered_local_forever st + 1)
      (filtered_pool_access st) (filtered_participants st) (shared st)
  else if Py.str_in "pool_access" reason then
    mkStats (total_checked st) (missing st) (filtered_local_forever st)
      (filtered_pool_access st + 1) (filtered_participants st) (shared st)
  else if Py.str_in "participant" reason then
    mkStats (total_checked st) (missing st) (filtered_local_forever st)
      (filtered_pool_access st) (filtered_participants st + 1) (shared st)
  else st.

(** Second pass: the missing thoughts the peer may see. The third
    component counts the increments of [self.filtered_count]. *)
Fixpoint visibility_pass (n : WellspringNodeV2) (peer_cid : string)
    (cids : list string) (shareable_cids : list string) (st : sync_stats)
    (filtered : Z) : option (list string * sync_stats * Z) :=
  match cids with
  | [] => Some (shareable_cids, st, filtered)
  | cid :: rest =>
      th ← Py.dict_get (thoughts n) cid;
      '(can_share, reason) ← _can_share_with_peer n th peer_cid;
      if can_share : bool
      then visibility_pass n peer_cid rest (Py.set_add shareable_cids cid) st filtered
      else visibility_pass n peer_cid rest shareable_cids
             (count_filtered reason st) (filtered + 1)
  end.

(** Third pass: the identities of the creators of shareable thoughts that
    the peer's filter does not report and that may be shared themselves. *)
Fixpoint identity_pass (n : WellspringNodeV2) (peer_bloom : Bloom.BloomFilter)
    (peer_cid : string) (cids : list string) (needed_identities : list string)
  : option (list string) :=
  match cids with
  | [] => Some needed_identities
  | cid :: rest =>
      th ← Py.dict_get (thoughts n) cid;
      let created_by := t_created_by th in
      if negb (String.eqb created_by "GENESIS") && Py.dict_mem (thoughts n) created_by
      then
        present ← Bloom.maybe_contains mmh3_hash peer_bloom created_by;
        if present : bool then identity_pass n peer_bloom peer_cid rest needed_identities
        else
          identity_thought ← Py.dict_get (thoughts n) created_by;
          '(can_share_id, _) ← _can_share_with_peer n identity_thought peer_cid;
          identity_pass n peer_bloom peer_cid rest
            (if can_share_id : bool then Py.set_add needed_identities created_by
             else needed_identities)
      else identity_pass n peer_bloom peer_cid rest needed_identities
  end.

Definition empty_stats : sync_stats := mkStats 0 0 0 0 0 0.

(** The result of [get_missing_for_peer]: the CIDs of the thoughts sent, in
    order, the [stats] dictionary and the new [self.filtered_count]. *)
Record selection := mkSelection {
  sent_cids : list string;
  stats : sync_stats;
  new_filtered_count : Z
}.

Definition select_for_peer (n : WellspringNodeV2) (peer_bloom_hex peer_cid : string)
  : option selection :=
  peer_bloom ← Bloom.from_hex peer_bloom_hex Bloom.default_size Bloom.default_hash_count;
  '(missing_cids, st1) ←
     missing_pass peer_bloom (Py.dict_keys (thoughts n)) [] empty_stats;
  '(shareable_cids, st2, filtered) ←
     visibility_pass n peer_cid (set_iter missing_cids) [] st1 (filtered_count n);
  needed_identities ←
     identity_pass n peer_bloom peer_cid (set_iter shareable_cids) [];
  let cids := filter (fun cid => Py.set_mem shareable_cids cid = false)
                     (set_iter needed_identities)
              ++ set_iter shareable_cids in
  Some (mkSelection cids
          (mkStats (total_checked st2) (missing st2) (filtered_local_forever st2)
             (filtered_pool_access st2) (filtered_participants st2)
             (shared st2 + Z.of_nat (length cids)))
          filtered).

(** [get_missing_for_peer]: the thoughts and the statistics. *)
Definition get_missing_for_peer (n : WellspringNodeV2) (peer_bloom_hex peer_cid : string)
  : option (list thought * sync_stats) :=
  sel ← select_for_peer n peer_bloom_hex peer_cid;
  result ← mapM (Py.dict_get (thoughts n)) (sent_cids sel);
  Some (result, stats sel).

End WithLibraries.

(** ** The visibility table *)

Lemma can_share_local_forever (n : WellspringNodeV2) (th : thought) (peer_cid : string) :
  t_visibility th = Some "local_forever"%string ->
  _can_share_with_peer n th peer_cid = Some (false, "local_forever"%string).
Proof. intros H. unfold _can_share_with_peer. now rewrite H. Qed.

Lemma can_share_public (n : WellspringNodeV2) (th : thought) (peer_cid : string) :
  t_visibility th = None \/ t_visibility th = Some "public"%string ->
  _can_share_with_peer n th peer_cid = Some (true, "public"%string).
Proof. intros [H|H]; unfold _can_share_with_peer; now rewrite H. Qed.

Lemma can_share_pool (n : WellspringNodeV2) (th : thought) (peer_cid pool_cid : string) :
  t_visibility th = Some ("pool:" ++ pool_cid)%string ->
  exists r, _can_share_with_peer n th peer_cid = Some r
    /\ (r.1 = true <->
        peer_cid ∈ default ∅ (pool_memberships n !! pool_cid)
        \/ pool_cid ∈ get_shared_pools n peer_cid).
Proof.
  intros H. unfold _can_share_with_peer. rewrite H.
  change ("pool:" +:+ pool_cid)%string
    with (String "p" (String "o" (String "o" (String "l" (String ":" pool_cid))))).
  cbn. replace (String.prefix "" pool_cid) with true by (now destruct pool_cid).
  unfold is_pool_member.
  destruct (bool_decide_reflect (peer_cid ∈ default ∅ (pool_memberships n !! pool_cid)))
    as [Hm|Hm].
  - eexists; split; [reflexivity|]. cbn. split; auto.
  - destruct (bool_decide_reflect (pool_cid ∈ get_shared_pools n peer_cid)) as [Hs|Hs].
    + eexists; split; [reflexivity|]. cbn. split; auto.
    + eexists; split; [reflexivity|]. cbn. split; [discriminate | intros [?|?]; contradiction].
Qed.

Lemma can_share_participants (n : WellspringNodeV2) (th : thought) (peer_cid : string)
    (ps : list Py.json) :
  t_visibility th = Some "participants_only"%string ->
  participants th = Py.JList ps ->
  exists r, _can_share_with_peer n th peer_cid = Some r
    /\ (r.1 = true <->
        Py.JStr peer_cid ∈ ps
        \/ exists p, p ∈ ps /\ Py.py_eq (peer_name n peer_cid) p = true).
Proof.
  intros Hv Hps. unfold _can_share_with_peer. rewrite Hv, Hps. cbn -[Py.py_eq].
  destruct (existsb (Py.py_eq (Py.JStr peer_cid)) ps) eqn:E1; cbn -[Py.py_eq].
  - eexists; split; [reflexivity|]. cbn. split; [|reflexivity].
    intros _. left. now apply Py.existsb_py_eq_str.
  - destruct (existsb (Py.py_eq (peer_name n peer_cid)) ps) eqn:E2; cbn -[Py.py_eq].
    + eexists; split; [reflexivity|]. cbn. split; [|reflexivity].
      intros _. right. apply existsb_exists in E2 as (p & Hin & Hp).
      exists p. split; [now apply list_elem_of_In | exact Hp].
    + eexists; split; [reflexivity|]. cbn. split; [discriminate|].
      intros [Hc | (p & Hin & Hp)].
      * apply Py.existsb_py_eq_str in Hc. congruence.
      * assert (existsb (Py.py_eq (peer_name n peer_cid)) ps = true).
        { apply existsb_exists. exists p. split; [now apply list_elem_of_In | exact Hp]. }
        congruence.
Qed.

Lemma can_share_unknown (n : WellspringNodeV2) (th : thought) (peer_cid v : string) :
  t_visibility th = Some v ->
  v <> "public"%string -> v <> "local_forever"%string ->
  v <> "participants_only"%string -> String.prefix "pool:" v = false ->
  _can_share_with_peer n th peer_cid = Some (false, ("unknown_visibility:" ++ v)%string).
Proof.
  intros Hv H1 H2 H3 H4. unfold _can_share_with_peer. rewrite Hv.
  apply String.eqb_neq in H1, H2, H3. now rewrite H1, H2, H3, H4.
Qed.

(** ** What the selection sends *)


Section SelectionLemmas.

Variable mmh3_hash : string -> Z -> Z.

(** A thought of the store that the node would share with the peer. *)
Definition shareable (n : WellspringNodeV2) (peer_cid cid : string) : Prop :=
  exists th reason, Py.dict_get (thoughts n) cid = Some th
    /\ _can_share_with_peer n th peer_cid = Some (true, reason).

Lemma missing_pass_spec (peer_bloom : Bloom.BloomFilter) (cids : list string) :
  forall acc st m st',
  missing_pass mmh3_hash peer_bloom cids acc st = Some (m, st') ->
  forall c, c ∈ m <->
    c ∈ acc \/ (c ∈ cids /\ Bloom.maybe_contains mmh3_hash peer_bloom c = Some false).
Proof.
  induction cids as [|cid rest IH]; intros acc st m st' H c; cbn in H.
  - simplify_eq. split; [auto|]. intros [Ha|[Hc _]]; [assumption | inversion Hc].
  - destruct (Bloom.maybe_contains mmh3_hash peer_bloom cid) as [[|]|] eqn:E;
      cbn in H; [| |discriminate].
    + rewrite (IH _ _ _ _ H c), elem_of_cons. split.
      * intros [?|[? ?]]; auto.
      * intros [?|[[->|?] ?]]; [auto | congruence | auto].
    + rewrite (IH _ _ _ _ H c), Py.elem_of_set_add, elem_of_cons. split.
      * intros [[?| ->]|[? ?]]; auto.
      * intros [?|[[->|?] ?]]; auto.
Qed.

Lemma visibility_pass_spec (n : WellspringNodeV2) (peer_cid : string) (cids : list string) :
  forall acc st f sh st' f',
  visibility_pass n peer_cid cids acc st f = Some (sh, st', f') ->
  forall c, c ∈ sh <-> c ∈ acc \/ (c ∈ cids /\ shareable n peer_cid c).
Proof.
  induction cids as [|cid rest IH]; intros acc st f sh st' f' H c; cbn in H.
  - simplify_eq. split; [auto|]. intros [Ha|[Hc _]]; [assumption | inversion Hc].
  - destruct (Py.dict_get (thoughts n) cid) as [th|] eqn:Eth; cbn in H; [|discriminate].
    destruct (_can_share_with_peer n th peer_cid) as [[[|] reason]|] eqn:Ecs;
      cbn in H; [| |discriminate].
    + rewrite (IH _ _ _ _ _ _ H c), Py.elem_of_set_add, elem_of_cons. split.
      * intros [[?| ->]|[? ?]]; auto. right. split; [auto|]. now exists th, reason.
      * intros [?|[[->|?] ?]]; auto.
    + rewrite (IH _ _ _ _ _ _ H c), elem_of_cons. split.
      * intros [?|[? ?]]; auto.
      * intros [?|[[->|?] Hs]]; auto.
        destruct Hs as (th' & r' & Hth' & Hcs'). congruence.
Qed.

Lemma identity_pass_spec (n : WellspringNodeV2) (peer_bloom : Bloom.BloomFilter)
    (peer_cid : string) (cids : list string) :
  forall acc needed,
  identity_pass mmh3_hash n peer_bloom peer_cid cids acc = Some needed ->
  forall c, c ∈ needed ->
    c ∈ acc
    \/ (c ∈ Py.dict_keys (thoughts n)
        /\ Bloom.maybe_contains mmh3_hash peer_bloom c = Some false
        /\ shareable n peer_cid c).
Proof.
  induction cids as [|cid rest IH]; intros acc needed H c Hc; cbn in H.
  - simplify_eq. auto.
  - destruct (Py.dict_get (thoughts n) cid) as [th|] eqn:Eth; cbn in H; [|discriminate].
    destruct (negb (t_created_by th =? "GENESIS")%string
              && Py.dict_mem (thoughts n) (t_created_by th)) eqn:Eg.
    2:{ exact (IH _ _ H c Hc). }
    apply andb_true_iff in Eg as [_ Hmem].
    destruct (Bloom.maybe_contains mmh3_hash peer_bloom (t_created_by th))
      as [[|]|] eqn:Eb; cbn in H; [| |discriminate].
    { exact (IH _ _ H c Hc). }
    destruct (Py.dict_get (thoughts n) (t_created_by th)) as [ith|] eqn:Ei;
      cbn in H; [|discriminate].
    destruct (_can_share_with_peer n ith peer_cid) as [[[|] reason]|] eqn:Ecs;
      cbn in H; [| |discriminate].
    + destruct (IH _ _ H c Hc) as [Hacc|?]; [|auto].
      apply Py.elem_of_set_add in Hacc as [?| ->]; [auto|].
      right. split; [now apply Py.dict_mem_true|]. split; [exact Eb|].
      now exists ith, reason.
    + exact (IH _ _ H c Hc).
Qed.


Variable set_iter : list string -> list string.
Hypothesis set_iter_elem : forall l x, x ∈ set_iter l <-> x ∈ l.

(** What [get_missing_for_peer] sends: the thoughts of the store that the
    peer's filter does not report and that the peer may see, in the
    iteration order of the set [shareable_cids]; the identities collected
    by the third pass are all in that set already. *)
Lemma select_for_peer_spec (n : WellspringNodeV2) (peer_bloom_hex peer_cid : string)
    (sel : selection) :
  select_for_peer mmh3_hash set_iter n peer_bloom_hex peer_cid = Some sel ->
  exists peer_bloom shareable_cids,
    Bloom.from_hex peer_bloom_hex Bloom.default_size Bloom.default_hash_count
      = Some peer_bloom
    /\ sent_cids sel = set_iter shareable_cids
    /\ forall c, c ∈ shareable_cids <->
         c ∈ Py.dict_keys (thoughts n)
         /\ Bloom.maybe_contains mmh3_hash peer_bloom c = Some false
         /\ shareable n peer_cid c.
Proof.
  unfold select_for_peer. intros H.
  destruct (Bloom.from_hex _ _ _) as [pb|] eqn:Epb; cbn in H; [|discriminate].
  destruct (missing_pass _ _ _ _ _) as [[m st1]|] eqn:Em; cbn in H; [|discriminate].
  destruct (visibility_pass _ _ _ _ _ _) as [[[sh st2] f]|] eqn:Ev; cbn in H; [|discriminate].
  destruct (identity_pass _ _ _ _ _ _) as [needed|] eqn:Ei; cbn in H; [|discriminate].
  simplify_eq. cbn [sent_cids].
  pose proof (missing_pass_spec _ _ _ _ _ _ Em) as Hm.
  pose proof (visibility_pass_spec _ _ _ _ _ _ _ _ _ Ev) as Hv.
  pose proof (identity_pass_spec _ _ _ _ _ _ Ei) as Hi.
  assert (Hsh : forall c, c ∈ sh <->
            c ∈ Py.dict_keys (thoughts n)
            /\ Bloom.maybe_contains mmh3_hash pb c = Some false
            /\ shareable n peer_cid c).
  { intros c. rewrite Hv, set_iter_elem, Hm. split.
    - intros [Hc|[[Hc|[? ?]] ?]]; [inversion Hc | inversion Hc | auto].
    - intros (? & ? & ?). auto. }
  exists pb, sh. split; [reflexivity|]. split; [|exact Hsh].
  destruct (filter _ (set_iter needed)) as [|c rest] eqn:Ef; [reflexivity|exfalso].
  match type of Ef with
  | ?t = _ => assert (Hc : c ∈ t) by (rewrite Ef; apply list_elem_of_here)
  end.
  apply list_elem_of_filter in Hc as [Hnot Hc].
  apply (proj1 (set_iter_elem _ _)) in Hc. destruct (Hi c Hc) as [Hacc|Hin]; [inversion Hacc|].
  apply Hsh, Py.set_mem_true in Hin. congruence.
Qed.

End SelectionLemmas.

End NodeV2.

(* ===================================================================== *)
(** * Sync selection: visibility, ordering and the peer's filter *)
(* ===================================================================== *)

Module Sync.
Import Signed Py.

(** ** A small store to run the selection on *)

(** A stand-in for MurmurHash3. *)
Definition toy_hash (item : string) (seed : Z) : Z :=
  Z.of_nat (String.length item) + seed.

(** Two iteration orders for sets: insertion order, and the order of the
    hash values (the order of the slots of a small hash table). *)
Definition insertion_order (l : list string) : list string := l.

Fixpoint insert_by_hash (x : string) (l : list string) : list string :=
  match l with
  | [] => [x]
  | y :: rest =>
      if toy_hash x 0 <=? toy_hash y 0 then x :: l else y :: insert_by_hash x rest
  end.

Definition hash_order (l : list string) : list string :=
  foldr insert_by_hash [] l.

(** The hexadecimal form of a peer's filter that has recorded nothing. *)
Definition empty_filter_hex : string :=
  Bloom.to_hex (Bloom.init Bloom.default_size Bloom.default_hash_count).

Definition alice_identity : thought :=
  mkThought "baf_alice_identity" "identity"
    [("name"%string, JStr "Alice"); ("pubkey"%string, JStr "a11ce0")]
    "GENESIS" [] "2026-01-01T00:00:00" "c2lnMA==" None.

Definition note : thought :=
  mkThought "baf_note" "note" [("text"%string, JStr "hello")]
    "baf_alice_identity" [] "2026-01-02T00:00:00" "c2lnMQ==" None.

Definition secret : thought :=
  mkThought "baf_secret_key" "secret" [("key"%string, JStr "5ec7e7")]
    "baf_alice_identity" ["baf_alice_identity"%string] "2026-01-01T00:00:01"
    "c2lnMg==" (Some "local_forever"%string).

Definition store : list (string * thought) :=
  [("baf_alice_identity"%string, alice_identity);
   ("baf_note"%string, note);
   ("baf_secret_key"%string, secret)].

Definition node_v1 : Node.WellspringNode :=
  Node.mkNode "baf_alice_identity" store ∅
    (Bloom.init Bloom.default_size Bloom.default_hash_count) 0 0 0 0.

Definition node_v2 : NodeV2.WellspringNodeV2 :=
  NodeV2.mkNode "baf_alice_identity" store ∅
    (Bloom.init Bloom.default_size Bloom.default_hash_count) ∅ ∅ ∅ ∅ 0.

(** A [participants] list as the protocol means it: CIDs and names. *)
Definition is_str (v : json) : Prop := exists s, v = JStr s.

(** ** Lemmas *)

Lemma elem_of_insert_by_hash (x y : string) (l : list string) :
  y ∈ insert_by_hash x l <-> y = x \/ y ∈ l.
Proof.
  induction l as [|z rest IH]; cbn.
  - rewrite list_elem_of_singleton, elem_of_nil. tauto.
  - destruct (toy_hash x 0 <=? toy_hash z 0).
    + now rewrite elem_of_cons.
    + rewrite !elem_of_cons, IH. tauto.
Qed.

Lemma hash_order_elem (l : list string) (x : string) : x ∈ hash_order l <-> x ∈ l.
Proof.
  induction l as [|y rest IH]; cbn; [reflexivity|].
  rewrite elem_of_insert_by_hash, elem_of_cons, IH. reflexivity.
Qed.

Lemma insertion_order_elem (l : list string) (x : string) :
  x ∈ insertion_order l <-> x ∈ l.
Proof. reflexivity. Qed.

Lemma mapM_elem {A B} (f : A -> option B) (l : list A) (k : list B) (y : B) :
  mapM f l = Some k -> y ∈ k -> exists x, x ∈ l /\ f x = Some y.
Proof.
  intros H Hy. apply mapM_Some_1 in H.
  induction H as [|x y' l k Hxy _ IH]; [inversion Hy|].
  apply elem_of_cons in Hy as [-> |Hy].
  - exists x. split; [apply list_elem_of_here | exact Hxy].
  - destruct (IH Hy) as (x' & Hx' & Hf). exists x'. split; [|exact Hf].
    now apply list_elem_of_further.
Qed.

Section Claims.

Variable mmh3_hash : string -> Z -> Z.
Variable set_iter : list string -> list string.
Hypothesis set_iter_elem : forall l x, x ∈ set_iter l <-> x ∈ l.

(** C3, for the visibility-aware node: no thought whose visibility is
    ["local_forever"] is in the list [WellspringNodeV2.get_missing_for_peer]
    returns, whatever the store, the peer and the peer's bloom filter. *)
Theorem local_forever_never_sent (n : NodeV2.WellspringNodeV2)
    (peer_bloom_hex peer_cid : string) (result : list thought)
    (st : NodeV2.sync_stats) :
  NodeV2.get_missing_for_peer mmh3_hash set_iter n peer_bloom_hex peer_cid
    = Some (result, st) ->
  forall th, th ∈ result -> t_visibility th <> Some "local_forever"%string.
Proof.
  unfold NodeV2.get_missing_for_peer. intros H th Hth Hvis.
  destruct (NodeV2.select_for_peer _ _ _ _ _) as [sel|] eqn:Esel; cbn in H; [|discriminate].
  destruct (mapM _ _) as [res|] eqn:Emap; cbn in H; [|discriminate].
  simplify_eq.
  destruct (mapM_elem _ _ _ _ Emap Hth) as (c & Hc & Hget).
  destruct (NodeV2.select_for_peer_spec _ _ set_iter_elem _ _ _ _ Esel)
    as (pb & sh & _ & Hsent & Hsh).
  rewrite Hsent in Hc. apply set_iter_elem, Hsh in Hc.
  destruct Hc as (_ & _ & th' & reason & Hget' & Hshare).
  assert (th' = th) by congruence. subst th'.
  rewrite (NodeV2.can_share_local_forever n th peer_cid Hvis) in Hshare.
  discriminate.
Qed.

(** C10: an item added to a bloom filter with the default parameters is
    reported by [maybe_contains], on the filter itself and on the filter
    rebuilt from its hexadecimal form, which is the same filter; the sync
    selection of either node, given that hexadecimal form, sends no thought
    stored under a CID the filter has recorded. *)
Theorem bloom_no_false_negatives (items : list string) (x : string) :
  x ∈ items ->
  exists f,
    Bloom.add_all mmh3_hash
      (Bloom.init Bloom.default_size Bloom.default_hash_count) items = Some f
    /\ Bloom.maybe_contains mmh3_hash f x = Some true
    /\ Bloom.from_hex (Bloom.to_hex f) Bloom.default_size Bloom.default_hash_count
       = Some f
    /\ (forall n cids,
          Node.missing_cids_for_peer mmh3_hash set_iter n (Bloom.to_hex f) = Some cids ->
          x ∉ cids)
    /\ (forall n peer_cid sel,
          NodeV2.select_for_peer mmh3_hash set_iter n (Bloom.to_hex f) peer_cid
            = Some sel ->
          x ∉ NodeV2.sent_cids sel).
Proof.
  intros Hx.
  destruct (Bloom.add_all_spec mmh3_hash items
              (Bloom.init Bloom.default_size Bloom.default_hash_count))
    as (f & Hadd & Hwf & Hsz & Hhc & Hrec & _).
  { apply Bloom.init_wf. reflexivity. }
  cbn in Hsz, Hhc.
  assert (Htrue : Bloom.maybe_contains mmh3_hash f x = Some true).
  { apply Bloom.recorded_maybe_contains; auto. }
  assert (Hround : Bloom.from_hex (Bloom.to_hex f) Bloom.default_size
                     Bloom.default_hash_count = Some f).
  { rewrite <- Hsz, <- Hhc. apply Bloom.from_hex_to_hex, Hwf. }
  exists f. repeat split; auto.
  - intros n cids Hsel Hin.
    destruct (Node.missing_cids_for_peer_spec _ _ set_iter_elem _ _ _ Hsel)
      as (pb & m & Hpb & -> & Hm).
    rewrite Hround in Hpb. simplify_eq.
    apply set_iter_elem, Hm in Hin. destruct Hin as [_ Hfalse]. congruence.
  - intros n peer_cid sel Hsel Hin.
    destruct (NodeV2.select_for_peer_spec _ _ set_iter_elem _ _ _ _ Hsel)
      as (pb & sh & Hpb & Hsent & Hsh).
    rewrite Hround in Hpb. simplify_eq.
    rewrite Hsent in Hin. apply set_iter_elem, Hsh in Hin.
    destruct Hin as (_ & Hfalse & _). congruence.
Qed.

End Claims.

(** Witness of C3's theorem: alice's store holds a secret; what a peer with
    an empty filter is sent leaves it out. *)
Lemma local_forever_never_sent_witness :
  NodeV2.get_missing_for_peer toy_hash insertion_order node_v2 empty_filter_hex "baf_bob"
    = Some ([alice_identity; note], NodeV2.mkStats 3 3 1 0 0 2)
  /\ t_visibility note <> Some "local_forever"%string.
Proof.
  assert (H : NodeV2.get_missing_for_peer toy_hash insertion_order node_v2
                empty_filter_hex "baf_bob"
              = Some ([alice_identity; note], NodeV2.mkStats 3 3 1 0 0 2))
    by (vm_compute; reflexivity).
  split; [exact H|].
  apply (local_forever_never_sent toy_hash insertion_order insertion_order_elem
           node_v2 empty_filter_hex "baf_bob" _ _ H).
  apply list_elem_of_further, list_elem_of_here.
Defined.

(** C3 fails for the node of [wellspring_node.py], whose selection looks at
    no visibility: the same store sends the ["local_forever"] secret. *)
Lemma v1_sends_local_forever :
  Node.get_missing_for_peer toy_hash insertion_order node_v1 empty_filter_hex
    = Some [alice_identity; note; secret]
  /\ t_visibility secret = Some "local_forever"%string.
Proof. split; [vm_compute; reflexivity | reflexivity]. Qed.

(** The rows of the visibility table where the participants are a list of
    strings. A ["pool:<cid>"] thought is shared iff the peer is a member of
    the pool or the pool is among those shared with the peer; a
    ["participants_only"] thought whose participants are a list of strings
    is shared iff the peer's CID or its display name is in the list; any
    other value that is not absent, ["public"] or ["local_forever"] is
    withheld. *)
Theorem can_share_matches_visibility_table (n : NodeV2.WellspringNodeV2)
    (th : thought) (peer_cid : string) :
  (forall pool_cid, t_visibility th = Some ("pool:" ++ pool_cid)%string ->
     exists r, NodeV2._can_share_with_peer n th peer_cid = Some r
       /\ (r.1 = true <->
           peer_cid ∈ default ∅ (NodeV2.pool_memberships n !! pool_cid)
           \/ pool_cid ∈ NodeV2.get_shared_pools n peer_cid))
  /\ (t_visibility th = Some "participants_only"%string ->
      forall ps, NodeV2.participants th = JList ps -> Forall is_str ps ->
      exists r, NodeV2._can_share_with_peer n th peer_cid = Some r
        /\ (r.1 = true <->
            JStr peer_cid ∈ ps
            \/ exists name, NodeV2.peer_name n peer_cid = JStr name /\ JStr name ∈ ps))
  /\ (forall v, t_visibility th = Some v ->
      v <> "public"%string -> v <> "local_forever"%string ->
      v <> "participants_only"%string -> String.prefix "pool:" v = false ->
      exists r, NodeV2._can_share_with_peer n th peer_cid = Some r /\ r.1 = false).
Proof.
  split; [|split].
  - intros pool_cid Hv. now apply NodeV2.can_share_pool.
  - intros Hv ps Hps Hstr.
    destruct (NodeV2.can_share_participants n th peer_cid ps Hv Hps) as (r & Hr & Hiff).
    exists r. split; [exact Hr|]. rewrite Hiff. split.
    + intros [Hc | (p & Hin & Heq)]; [now left | right].
      rewrite Forall_forall in Hstr. destruct (Hstr p Hin) as [s ->].
      apply py_eq_str_r in Heq. exists s. now rewrite Heq.
    + intros [Hc | (name & Hname & Hin)]; [now left | right].
      exists (JStr name). split; [exact Hin|]. rewrite Hname. now apply py_eq_str.
  - intros v Hv H1 H2 H3 H4.
    rewrite (NodeV2.can_share_unknown n th peer_cid v Hv H1 H2 H3 H4).
    now eexists.
Qed.

(** C5 as stated fails: alice's identity and a note she created, a peer
    whose filter is empty. With the set iterated in the order of the hash
    values, [get_missing_for_peer] of either node sends the note before the
    identity of its creator, and nothing is sorted by [created_at]. *)
Lemma dependent_sent_before_identity :
  NodeV2.get_missing_for_peer toy_hash hash_order node_v2 empty_filter_hex "baf_bob"
    = Some ([note; alice_identity], NodeV2.mkStats 3 3 1 0 0 2)
  /\ Node.get_missing_for_peer toy_hash hash_order node_v1 empty_filter_hex
    = Some [note; secret; alice_identity]
  /\ t_created_by note = t_cid alice_identity
  /\ t_type alice_identity = "identity"%string.
Proof. repeat split; vm_compute; reflexivity. Qed.

Lemma key_le_total (a b : thought) : Node.key_le a b = true \/ Node.key_le b a = true.
Proof.
  unfold Node.key_le.
  destruct (Z.ltb_spec (Node.sort_key a).1 (Node.sort_key b).1); [now left|].
  destruct (Z.ltb_spec (Node.sort_key b).1 (Node.sort_key a).1); [now right|].
  replace ((Node.sort_key a).1 =? (Node.sort_key b).1) with true
    by (symmetry; apply Z.eqb_eq; lia).
  replace ((Node.sort_key b).1 =? (Node.sort_key a).1) with true
    by (symmetry; apply Z.eqb_eq; lia).
  cbn [orb andb]. apply str_le_total.
Qed.

Lemma key_le_trans (a b c : thought) :
  Node.key_le a b = true -> Node.key_le b c = true -> Node.key_le a c = true.
Proof.
  unfold Node.key_le. intros Hab Hbc.
  apply orb_true_iff in Hab as [Hab|Hab], Hbc as [Hbc|Hbc];
    try apply andb_true_iff in Hab as [Hab Hab'];
    try apply andb_true_iff in Hbc as [Hbc Hbc'];
    try apply Z.ltb_lt in Hab; try apply Z.ltb_lt in Hbc;
    try apply Z.eqb_eq in Hab; try apply Z.eqb_eq in Hbc;
    apply orb_true_iff.
  - left. apply Z.ltb_lt. lia.
  - left. apply Z.ltb_lt. lia.
  - left. apply Z.ltb_lt. lia.
  - right. apply andb_true_iff. split; [apply Z.eqb_eq; lia|].
    now apply (str_le_trans _ (Node.sort_key b).2).
Qed.

(** What [key_le] says of two thoughts. *)
Lemma key_le_spec (a b : thought) :
  Node.key_le a b = true ->
  (t_type b = "identity"%string -> t_type a = "identity"%string)
  /\ ((t_type a = "identity"%string <-> t_type b = "identity"%string) ->
      str_le (t_created_at a) (t_created_at b) = true).
Proof.
  unfold Node.key_le, Node.sort_key. cbn [fst snd].
  destruct (String.eqb_spec (t_type a) "identity") as [Ha|Ha];
    destruct (String.eqb_spec (t_type b) "identity") as [Hb|Hb]; cbn; intros H.
  - split; [auto|]. intros _. exact H.
  - split; [auto|]. intros [Hab _]. now specialize (Hab Ha).
  - discriminate.
  - split; [intros; contradiction|]. intros _. exact H.
Qed.

(** The order in which [receive_thoughts] takes a stream, whatever the
    order it was sent in. The sorted list has the thoughts of the stream; of two thoughts, the
    later is an identity thought only if the earlier is one, and the two
    are in [created_at] order when both or neither are identity thoughts;
    so an identity thought of the stream comes before every thought of the
    stream that is not one, the thoughts it created among them. *)
Theorem receiver_takes_identities_first (stream : list thought) :
  Node.sorted_thoughts stream ≡ₚ stream
  /\ (forall l1 a l2 b l3,
        Node.sorted_thoughts stream = l1 ++ a :: l2 ++ b :: l3 ->
        (t_type b = "identity"%string -> t_type a = "identity"%string)
        /\ ((t_type a = "identity"%string <-> t_type b = "identity"%string) ->
            str_le (t_created_at a) (t_created_at b) = true))
  /\ (forall identity th,
        identity ∈ stream -> th ∈ stream ->
        t_type identity = "identity"%string -> t_type th <> "identity"%string ->
        exists l1 l2 l3,
          Node.sorted_thoughts stream = l1 ++ identity :: l2 ++ th :: l3).
Proof.
  split; [apply sorted_perm|]. split.
  - intros l1 a l2 b l3 Heq. apply key_le_spec.
    pose proof (sorted_ordered Node.key_le key_le_total key_le_trans stream) as Hs.
    fold (Node.sorted_thoughts stream) in Hs. rewrite Heq in Hs.
    apply StronglySorted_app_1_r, StronglySorted_inv in Hs as [_ Hall].
    rewrite Forall_forall in Hall. apply Hall.
    rewrite elem_of_app, elem_of_cons. auto.
  - intros identity th Hi Ht Hid Hth.
    apply (sorted_before Node.key_le key_le_total key_le_trans); [exact Hi | exact Ht|].
    unfold Node.key_le, Node.sort_key. cbn [fst snd].
    apply String.eqb_eq in Hid. apply String.eqb_neq in Hth.
    now rewrite Hid, Hth.
Qed.

Lemma receiver_takes_identities_first_witness :
  Node.sorted_thoughts [note; alice_identity] = [alice_identity; note]
  /\ exists l1 l2 l3,
       Node.sorted_thoughts [note; alice_identity]
       = l1 ++ alice_identity :: l2 ++ note :: l3.
Proof.
  split; [reflexivity|].
  apply (proj2 (proj2 (receiver_takes_identities_first [note; alice_identity]))).
  - apply list_elem_of_further, list_elem_of_here.
  - apply list_elem_of_here.
  - reflexivity.
  - discriminate.
Defined.

(** Witness of C10's theorem. *)
Lemma bloom_no_false_negatives_witness :
  exists f,
    Bloom.add_all toy_hash
      (Bloom.init Bloom.default_size Bloom.default_hash_count)
      ["baf_note"%string; "baf_alice_identity"%string] = Some f
    /\ Bloom.maybe_contains toy_hash f "baf_note" = Some true
    /\ Bloom.from_hex (Bloom.to_hex f) Bloom.default_size Bloom.default_hash_count
       = Some f
    /\ (forall n cids,
          Node.missing_cids_for_peer toy_hash insertion_order n (Bloom.to_hex f)
            = Some cids ->
          "baf_note"%string ∉ cids)
    /\ (forall n peer_cid sel,
          NodeV2.select_for_peer toy_hash insertion_order n (Bloom.to_hex f) peer_cid
            = Some sel ->
          "baf_note"%string ∉ NodeV2.sent_cids sel).
Proof.
  apply (bloom_no_false_negatives toy_hash insertion_order insertion_order_elem
           ["baf_note"%string; "baf_alice_identity"%string] "baf_note").
  apply list_elem_of_here.
Defined.

(** Bob is a member of the pool a note is scoped to. *)
Definition pooled_node : NodeV2.WellspringNodeV2 :=
  NodeV2.mkNode "baf_alice_identity" store ∅
    (Bloom.init Bloom.default_size Bloom.default_hash_count)
    {["pool_x"%string := ({["baf_bob"%string]} : gset string)]} ∅ ∅ ∅ 0.

Definition pooled_note : thought :=
  mkThought "baf_pooled_note" "note" [("text"%string, JStr "for the pool")]
    "baf_alice_identity" [] "2026-01-03T00:00:00" "c2lnMw=="
    (Some "pool:pool_x"%string).

Lemma can_share_matches_visibility_table_witness :
  exists r,
    NodeV2._can_share_with_peer pooled_node pooled_note "baf_bob" = Some r
    /\ (r.1 = true <->
        "baf_bob"%string
          ∈ default ∅ (NodeV2.pool_memberships pooled_node !! "pool_x"%string)
        \/ "pool_x"%string ∈ NodeV2.get_shared_pools pooled_node "baf_bob").
Proof.
  exact (proj1 (can_share_matches_visibility_table pooled_node pooled_note "baf_bob")
           "pool_x"%string eq_refl).
Defined.

(** The decision there: shared, as a member. *)
Lemma pooled_note_shared :
  NodeV2._can_share_with_peer pooled_node pooled_note "baf_bob"
  = Some (true, "peer_is_member:pool_x"%string).
Proof. vm_compute. reflexivity. Qed.

(** ** Participants that match nobody

    An invitation for participants only whose list holds a null beside
    Carol's CID, on a node that has registered no peer; and a note whose
    ["participants"] is the one name ["bobby"], not a list, on a node that
    knows Bob by the name ["bob"]. *)
Definition invitation : thought :=
  mkThought "baf_invitation" "note"
    [("text"%string, JStr "for carol");
     ("participants"%string, JList [JStr "baf_carol"; JNull])]
    "baf_alice_identity" [] "2026-01-04T00:00:00" "c2lnNA=="
    (Some "participants_only"%string).

Definition bobby_note : thought :=
  mkThought "baf_bobby_note" "note"
    [("text"%string, JStr "for bobby"); ("participants"%string, JStr "bobby")]
    "baf_alice_identity" [] "2026-01-05T00:00:00" "c2lnNQ=="
    (Some "participants_only"%string).

Definition bob_identity : thought :=
  mkThought "baf_bob" "identity"
    [("name"%string, JStr "bob"); ("pubkey"%string, JStr "b0b0")]
    "GENESIS" [] "2026-01-01T00:00:00" "c2lnNg==" None.

Definition node_knowing_bob : NodeV2.WellspringNodeV2 :=
  NodeV2.mkNode "baf_alice_identity" store ∅
    (Bloom.init Bloom.default_size Bloom.default_hash_count) ∅ ∅
    {["baf_bob"%string := bob_identity]} ∅ 0.

(** C4 fails on the participants row. Mallory is a peer the node has never
    registered: the name looked up for her is [None], which [in] finds in a
    list that holds a null, and the invitation is shared with her though
    neither her CID nor any name of hers is in the list. Where
    ["participants"] is a string, [in] is the substring test, and the note
    for ["bobby"] is shared with Bob, whose CID and name are not the
    participant. Carol, whose CID is listed, is a participant as the table
    says, and without the null Mallory is none. *)
Theorem stranger_passes_as_participant :
  NodeV2._can_share_with_peer node_v2 invitation "baf_mallory"
    = Some (true, "is_participant"%string)
  /\ NodeV2.known_peers node_v2 !! "baf_mallory"%string = None
  /\ NodeV2.participants invitation = JList [JStr "baf_carol"; JNull]
  /\ NodeV2._can_share_with_peer node_knowing_bob bobby_note "baf_bob"
     = Some (true, "is_participant"%string)
  /\ NodeV2.peer_name node_knowing_bob "baf_bob" = JStr "bob"
  /\ NodeV2.participants bobby_note = JStr "bobby"
  /\ NodeV2._can_share_with_peer node_v2 invitation "baf_carol"
     = Some (true, "is_participant"%string)
  /\ NodeV2._can_share_with_peer node_v2
       (mkThought "baf_invitation" "note"
          [("participants"%string, JList [JStr "baf_carol"])]
          "baf_alice_identity" [] "2026-01-04T00:00:00" "c2lnNA=="
          (Some "participants_only"%string))
       "baf_mallory"
     = Some (false, "not_participant"%string).
Proof. repeat split; vm_compute; reflexivity. Qed.

End Sync.

(* ===================================================================== *)
(** * Thoughts: CID, signature and store *)
(* ===================================================================== *)

(** Stand-ins for the external libraries, used by the closed examples. *)
Module Toy.
Import Py.

(** The bytes of a string. *)
Definition str_bytes (s : string) : list Z :=
  (fun c => Z.of_nat (nat_of_ascii c)) <$> list_ascii_of_string s.

Definition quote : string := String (ascii_of_nat 34) EmptyString.

(** A compact JSON printer (keys as they come, no escaping). *)
Fixpoint dumps (j : json) : string :=
  (match j with
  | JNull => "null"
  | JBool b => if b then "true" else "false"
  | JInt z => pretty z
  | JStr s => quote ++ s ++ quote
  | JList l =>
      "[" ++ (fix go (l : list json) : string :=
                match l with
                | [] => EmptyString
                | [x] => dumps x
                | x :: rest => dumps x ++ "," ++ go rest
                end) l ++ "]"
  | JObj o =>
      "{" ++ (fix go (o : list (string * json)) : string :=
                match o with
                | [] => EmptyString
                | [(k, v)] => quote ++ k ++ quote ++ ":" ++ dumps v
                | (k, v) :: rest => quote ++ k ++ quote ++ ":" ++ dumps v ++ "," ++ go rest
                end) o ++ "}"
  end)%string.

(** A digest that shows what was hashed: the text itself, and for the
    truncating [compute_cid] of the nodes the text read from its end. *)
Definition digest (s : string) : string := s.
Definition digest_rev (s : string) : string :=
  string_of_list_ascii (rev (list_ascii_of_string s)).

(** A signature scheme that shows what was signed: the key followed by the
    message; the public key is the private key. *)
Definition sign (key : list Z) (msg : string) : list Z := key ++ str_bytes msg.
Definition verify (key : list Z) (sig : list Z) (msg : string) : bool :=
  bool_decide (sig = key ++ str_bytes msg).

(** Keys are given in hexadecimal. *)
Definition key_of_hex (hex : string) : option (list Z) := bytes_fromhex hex.

End Toy.

Module Thoughts.
Import Py.

(** Two different dictionaries with the same CID: a collision of the
    truncated SHA-256 digest (or of the canonical encoding). *)
Definition cid_collision (json_dumps : json -> string)
    (sha256_hexdigest : string -> string) (d d' : list (string * json)) : Prop :=
  d <> d' /\ Signed.compute_cid json_dumps sha256_hexdigest d
            = Signed.compute_cid json_dumps sha256_hexdigest d'.

(** Identities and thoughts to run [thread-3/core.py] on: two identities
    with one CID and different private keys. *)
Definition alice : Core.Identity :=
  Core.mkIdentity "alice" "ed25519:a11ce0" "cid:blake3:alice" (Some "a11ce0"%string).
Definition alice_rekeyed : Core.Identity :=
  Core.mkIdentity "alice" "ed25519:b0b0b0" "cid:blake3:alice" (Some "b0b0b0"%string).

Definition core_create (identity : Core.Identity) : option Core.Thought :=
  Core.create_thought Toy.dumps Toy.digest Toy.key_of_hex
    (fun key msg => Toy.sign key msg)
    (JStr "hello") "note" identity [] None None 1700000000000.

(** A signed thought of the sync nodes. *)
Definition node_key : list Z := [161; 28; 224].
Definition node_note : Signed.SignedThought :=
  Signed.sign Toy.dumps Toy.digest_rev bytes_hex Toy.sign
    (Signed.new "note" [("text"%string, JStr "hello")] "baf_alice_identity" []
                None "2026-01-02T00:00:00")
    node_key.

Lemma cid_data_app (ty : string) (c : list (string * json)) (cb : string)
    (bc : list string) (at_ : string) (v : option string) (sig : string) :
  Signed.cid_data (Signed.sign_data ty c cb bc at_ v) sig
  = Signed.sign_data ty c cb bc at_ v ++ [("signature"%string, JStr sig)].
Proof.
  unfold Signed.cid_data, Signed.sign_data. destruct (truthy v); reflexivity.
Qed.

Section NodeSign.

Variable json_dumps : json -> string.
Variable sha256_hexdigest : string -> string.
Variable b64encode : list Z -> string.
Variable ed25519_sign : list Z -> string -> list Z.

(** C1, for the thoughts of the sync nodes: the constructor leaves
    signature and CID empty; [sign] fills in the signature and then the CID,
    which is [compute_cid] of the signed fields together with the signature.
    Another signature gives another dictionary to hash, hence another CID
    unless the two dictionaries collide. *)
Theorem cid_covers_signature (ty : string) (c : list (string * json))
    (cb : string) (bc : list string) (v : option string) (now : string)
    (private_key : list Z) :
  let t0 := Signed.new ty c cb bc v now in
  let t := Signed.sign json_dumps sha256_hexdigest b64encode ed25519_sign t0 private_key in
  let sd := Signed.sign_data ty c cb bc now v in
  Signed.cid t0 = None /\ Signed.signature t0 = None
  /\ exists sig,
       Signed.signature t = Some sig
       /\ Signed.cid t
          = Some (Signed.compute_cid json_dumps sha256_hexdigest (Signed.cid_data sd sig))
       /\ dict_get (Signed.cid_data sd sig) "signature" = Some (JStr sig)
       /\ forall sig', sig' <> sig ->
            Signed.compute_cid json_dumps sha256_hexdigest (Signed.cid_data sd sig')
              <> Signed.compute_cid json_dumps sha256_hexdigest (Signed.cid_data sd sig)
            \/ cid_collision json_dumps sha256_hexdigest
                 (Signed.cid_data sd sig') (Signed.cid_data sd sig).
Proof.
  cbn zeta. split; [reflexivity|]. split; [reflexivity|].
  eexists. split; [reflexivity|]. split; [reflexivity|]. split.
  - rewrite cid_data_app. unfold Signed.sign_data.
    destruct (truthy v); cbn; reflexivity.
  - intros sig' Hne.
    match goal with
    | |- ?a <> ?b \/ _ => destruct (decide (a = b)) as [Heq|Hneq]; [right | now left]
    end.
    split; [|exact Heq].
    rewrite !cid_data_app. intros Happ. apply app_inv_head in Happ.
    congruence.
Qed.

End NodeSign.


Section CoreSign.

Variable json_dumps_canonical : json -> string.
Variable json_dumps : json -> string.
Variable blake3_hexdigest : string -> string.
Variable nacl_signing_key : string -> option (list Z).
Variable nacl_sign : list Z -> string -> list Z.
Variable nacl_verify_key : string -> option (list Z).
Variable nacl_verify : list Z -> string -> list Z -> bool.

(** What [create_thought] returns: the CID is computed from the signable
    fields, before and without the signature, and the signature is the
    signature of that CID. *)
Lemma create_thought_spec (content : json) (thought_type : string)
    (identity : Core.Identity) (because : list string)
    (visibility source : option string) (now : Z) (t : Core.Thought) :
  Core.create_thought json_dumps_canonical blake3_hexdigest nacl_signing_key nacl_sign
    content thought_type identity because visibility source now = Some t ->
  Core.cid t
  = Core.compute_cid json_dumps_canonical blake3_hexdigest
      (JObj (Core.signable thought_type content (Core.id_cid identity) now because
                           visibility source))
  /\ exists privkey signing_key,
       Core._privkey identity = Some privkey
       /\ nacl_signing_key privkey = Some signing_key
       /\ Core.signature t = bytes_hex (nacl_sign signing_key (Core.cid t)).
Proof.
  unfold Core.create_thought, Core.sign_content. intros H.
  destruct (Core._privkey identity) as [[|a k]|] eqn:Ek; cbn in H; try discriminate.
  destruct (nacl_signing_key (String a k)) as [sk|] eqn:Esk; cbn in H; [|discriminate].
  simplify_eq. split; [reflexivity|]. cbn. now exists (String a k), sk.
Qed.

(** C2, for [thread-3/core.py]: the signature [create_thought] attaches is
    the Ed25519 signature of the bytes of the CID, and [verify_signature]
    accepts exactly when the key (its ["ed25519:"] marker removed) and the
    hexadecimal signature decode and the signature verifies against the
    bytes of the CID. *)
Theorem signature_is_over_cid :
  (forall content thought_type identity because visibility source now t,
     Core.create_thought json_dumps_canonical blake3_hexdigest nacl_signing_key
       nacl_sign content thought_type identity because visibility source now = Some t ->
     exists privkey signing_key,
       Core._privkey identity = Some privkey
       /\ nacl_signing_key privkey = Some signing_key
       /\ Core.signature t = bytes_hex (nacl_sign signing_key (Core.cid t)))
  /\ (forall t pubkey,
       Core.verify_signature nacl_verify_key nacl_verify t pubkey = true <->
       exists verify_key sig,
         nacl_verify_key (str_remove "ed25519:" pubkey) = Some verify_key
         /\ bytes_fromhex (Core.signature t) = Some sig
         /\ nacl_verify verify_key (Core.cid t) sig = true).
Proof.
  split.
  - intros content thought_type identity because visibility source now t H.
    now destruct (create_thought_spec _ _ _ _ _ _ _ _ H) as [_ ?].
  - intros t pubkey. unfold Core.verify_signature. split.
    + destruct (nacl_verify_key _) as [vk|]; [|discriminate].
      destruct (bytes_fromhex _) as [sig|]; [|discriminate].
      intros H. now exists vk, sig.
    + intros (vk & sig & -> & -> & H). exact H.
Qed.

(** Storing a thought a second time leaves the table as the first call
    left it, with the thought's row under its CID, and appends a second,
    identical line to the JSONL log. *)
Lemma store_thought_twice (t : Core.Thought) (s : Core.storage) :
  let s1 := Core.store_thought json_dumps t s in
  let s2 := Core.store_thought json_dumps t s1 in
  Core.db s2 = Core.db s1
  /\ is_Some (Core.db s1 !! Core.cid t)
  /\ exists line, Core.jsonl s1 = Core.jsonl s ++ [line]
       /\ Core.jsonl s2 = Core.jsonl s ++ [line; line].
Proof.
  cbn. split; [apply insert_insert_eq|]. split.
  - rewrite lookup_insert_eq. now eexists.
  - eexists. split; [reflexivity|]. now rewrite <- app_assoc.
Qed.

End CoreSign.


Lemma dict_get_set_eq {V} (d : list (string * V)) (k : string) (v : V) :
  dict_get (dict_set d k v) k = Some v.
Proof.
  induction d as [|[k' v'] d IH]; cbn.
  - now rewrite String.eqb_refl.
  - destruct (String.eqb_spec k' k) as [->|Hne]; cbn.
    + now rewrite String.eqb_refl.
    + apply String.eqb_neq in Hne. now rewrite Hne.
Qed.

Section NodeStore.

Variable json_dumps : json -> string.
Variable b64decode : string -> option (list Z).
Variable ed25519_verify : list Z -> list Z -> string -> bool.
Variable mmh3_hash : string -> Z -> Z.

(** [_store_thought] of a thought it was already given: [False], and the
    store, the keys and the filter stay as they are (only the counter of
    rejections moves, when the thought was and is rejected). *)
Lemma store_thought_again (n : Node.WellspringNode) (th : Signed.thought)
    (b : bool) (n1 : Node.WellspringNode) :
  Node._store_thought json_dumps b64decode ed25519_verify mmh3_hash n th = Some (b, n1) ->
  exists n2,
    Node._store_thought json_dumps b64decode ed25519_verify mmh3_hash n1 th
      = Some (false, n2)
    /\ Node.thoughts n2 = Node.thoughts n1
    /\ Node.pubkeys n2 = Node.pubkeys n1
    /\ Node.bloom n2 = Node.bloom n1
    /\ Node.verified_count n2 = Node.verified_count n1
    /\ (b = true -> n2 = n1).
Proof.
  unfold Node._store_thought. intros H.
  destruct (dict_mem (Node.thoughts n) (Signed.t_cid th)) eqn:Emem.
  { simplify_eq. rewrite Emem. exists n1. repeat split; auto. }
  destruct (Node._verify_signature _ _ _ n th) as [[|]|] eqn:Ever; cbn in H;
    [| |discriminate].
  - destruct (Bloom.add _ _ _) as [bloom'|]; cbn in H; [|discriminate].
    match type of H with
    | context [mbind _ ?p] => destruct p as [pubkeys'|]; cbn in H; [|discriminate]
    end.
    simplify_eq. cbn.
    unfold dict_mem at 1. rewrite dict_get_set_eq.
    eexists. repeat split; reflexivity.
  - simplify_eq. cbn. rewrite Emem.
    unfold Node._verify_signature in *. cbn. rewrite Ever. cbn.
    eexists. repeat split; try reflexivity; discriminate.
Qed.

End NodeStore.

(** C6, as the code has it. [store_thought] of [thread-3/core.py]: a
    second call leaves the table as the first left it and appends a second
    line for the thought to the JSONL log. [_store_thought] of
    [wellspring_node.py], which keeps no log: a second call returns [False]
    and leaves store, keys and filter alone. *)
Theorem store_twice (json_dumps : json -> string)
    (b64decode : string -> option (list Z))
    (ed25519_verify : list Z -> list Z -> string -> bool)
    (mmh3_hash : string -> Z -> Z) :
  (forall t s,
     let s1 := Core.store_thought json_dumps t s in
     let s2 := Core.store_thought json_dumps t s1 in
     Core.db s2 = Core.db s1
     /\ is_Some (Core.db s1 !! Core.cid t)
     /\ exists line, Core.jsonl s1 = Core.jsonl s ++ [line]
          /\ Core.jsonl s2 = Core.jsonl s ++ [line; line])
  /\ (forall n th b n1,
       Node._store_thought json_dumps b64decode ed25519_verify mmh3_hash n th
         = Some (b, n1) ->
       exists n2,
         Node._store_thought json_dumps b64decode ed25519_verify mmh3_hash n1 th
           = Some (false, n2)
         /\ Node.thoughts n2 = Node.thoughts n1
         /\ Node.pubkeys n2 = Node.pubkeys n1
         /\ Node.bloom n2 = Node.bloom n1
         /\ (b = true -> n2 = n1)).
Proof.
  split.
  - intros t s. apply store_thought_twice.
  - intros n th b n1 H.
    destruct (store_thought_again _ _ _ _ _ _ _ _ H) as (n2 & H2 & ? & ? & ? & _ & ?).
    exists n2. auto.
Qed.

(** ** Closed examples *)

Definition core_note : Core.Thought :=
  Core.mkThought
    "cid:blake3:note" "note" (JStr "hello") "cid:blake3:alice" 1700000000000 []
    "a11ce0" None None.

(** C6 fails for the log: two calls, two lines. *)
Lemma store_twice_logs_twice :
  length (Core.jsonl (Core.store_thought Toy.dumps core_note
                        (Core.store_thought Toy.dumps core_note
                           (Core.mkStorage ∅ [])))) = 2%nat.
Proof. reflexivity. Qed.

(** C1 fails for [create_thought] of [thread-3/core.py]: the same fields
    signed under two keys give two signatures and one CID, which is the CID
    of the fields without the signature and not of the fields with it. *)
Lemma core_cid_ignores_signature :
  exists t1 t2,
    core_create alice = Some t1 /\ core_create alice_rekeyed = Some t2
    /\ Core.signature t1 <> Core.signature t2
    /\ Core.cid t1 = Core.cid t2
    /\ Core.cid t1
       = Core.compute_cid Toy.dumps Toy.digest
           (JObj (Core.signable "note" (JStr "hello") "cid:blake3:alice"
                                 1700000000000 [] None None))
    /\ Core.cid t1
       <> Core.compute_cid Toy.dumps Toy.digest
            (JObj (Core.signable "note" (JStr "hello") "cid:blake3:alice"
                                  1700000000000 [] None None
                   ++ [("signature"%string, JStr (Core.signature t1))])).
Proof.
  eexists. eexists.
  split; [vm_compute; reflexivity|]. split; [vm_compute; reflexivity|].
  repeat split; vm_compute; congruence.
Qed.

(** C2 fails for [SignedThought.sign] of the sync nodes: the signature is
    over the canonical JSON of the fields, which [_verify_signature]
    checks it against, and it is no signature of the CID. *)
Lemma node_signature_is_over_message :
  exists th sig_bytes,
    Signed.to_dict node_note = Some th
    /\ bytes_fromhex (Signed.t_signature th) = Some sig_bytes
    /\ sig_bytes = Toy.sign node_key (Signed.message Toy.dumps node_note)
    /\ Signed.verify_signature Toy.dumps bytes_fromhex Toy.verify
         {["baf_alice_identity"%string := JStr "a11ce0"]} th = Some true
    /\ Toy.verify node_key sig_bytes (Signed.t_cid th) = false.
Proof.
  eexists. eexists.
  split; [vm_compute; reflexivity|]. split; [vm_compute; reflexivity|].
  repeat split; vm_compute; reflexivity.
Qed.

(** The theorems above at work on the closed examples. *)
Definition fresh_node : Node.WellspringNode :=
  Node.mkNode "baf_bob_identity" [] {["baf_alice_identity"%string := JStr "a11ce0"]}
    (Bloom.init Bloom.default_size Bloom.default_hash_count) 0 0 0 0.

Lemma signature_is_over_cid_witness :
  match core_create alice with
  | Some t =>
      exists privkey signing_key,
        Core._privkey alice = Some privkey
        /\ Toy.key_of_hex privkey = Some signing_key
        /\ Core.signature t = bytes_hex (Toy.sign signing_key (Core.cid t))
  | None => False
  end.
Proof.
  destruct (core_create alice) as [t|] eqn:E.
  - exact (proj1 (signature_is_over_cid Toy.dumps Toy.digest Toy.key_of_hex
                    (fun key msg => Toy.sign key msg) Toy.key_of_hex
                    (fun key msg sig => Toy.verify key sig msg))
             _ _ _ _ _ _ _ t E).
  - vm_compute in E. discriminate.
Defined.

Lemma store_twice_witness :
  match Signed.to_dict node_note with
  | Some th =>
      match Node._store_thought Toy.dumps bytes_fromhex Toy.verify Sync.toy_hash
              fresh_node th with
      | Some (b, n1) =>
          exists n2,
            Node._store_thought Toy.dumps bytes_fromhex Toy.verify Sync.toy_hash n1 th
            = Some (false, n2)
            /\ Node.thoughts n2 = Node.thoughts n1
            /\ Node.pubkeys n2 = Node.pubkeys n1
            /\ Node.bloom n2 = Node.bloom n1
            /\ (b = true -> n2 = n1)
      | None => False
      end
  | None => False
  end.
Proof.
  destruct (Signed.to_dict node_note) as [th|] eqn:Eth;
    [|vm_compute in Eth; discriminate].
  destruct (Node._store_thought _ _ _ _ fresh_node th) as [[b n1]|] eqn:E.
  - exact (proj2 (store_twice Toy.dumps bytes_fromhex Toy.verify Sync.toy_hash)
             fresh_node th b n1 E).
  - vm_compute in Eth. simplify_eq.
Defined.

(** The first call stores the thought. *)
Lemma fresh_node_stores_note :
  (th ← Signed.to_dict node_note;
   fst <$> Node._store_thought Toy.dumps bytes_fromhex Toy.verify Sync.toy_hash
             fresh_node th)
  = Some true.
Proof. vm_compute. reflexivity. Qed.

Lemma cid_covers_signature_witness :
  let sd := Signed.sign_data "note" [("text"%string, JStr "hello")]
              "baf_alice_identity" [] "2026-01-02T00:00:00" None in
  exists sig,
    Signed.signature node_note = Some sig
    /\ Signed.cid node_note
       = Some (Signed.compute_cid Toy.dumps Toy.digest_rev (Signed.cid_data sd sig))
    /\ (Signed.compute_cid Toy.dumps Toy.digest_rev (Signed.cid_data sd "f0f0")
          <> Signed.compute_cid Toy.dumps Toy.digest_rev (Signed.cid_data sd sig)
        \/ cid_collision Toy.dumps Toy.digest_rev
             (Signed.cid_data sd "f0f0") (Signed.cid_data sd sig)).
Proof.
  destruct (cid_covers_signature Toy.dumps Toy.digest_rev bytes_hex Toy.sign
              "note" [("text"%string, JStr "hello")] "baf_alice_identity" [] None
              "2026-01-02T00:00:00" node_key)
    as (_ & _ & sig & Hsig & Hcid & _ & Hother).
  exists sig. split; [exact Hsig|]. split; [exact Hcid|].
  apply Hother. intros <-. vm_compute in Hsig. discriminate.
Defined.

End Thoughts.

(* ===================================================================== *)
(** * The relevance score of the semantic index *)
(* ===================================================================== *)

Module Embeddings.

#[local] Set Warnings "-inexact-float".

(** A row of [embedding_metadata] as [query] reads it; [similarity] is
    [1.0 - cosine_distance(query_embedding, embedding)], computed by numpy. *)
Record row := mkRow {
  cid : string;
  similarity : float;
  text_content : string;
  appetite_status : option string;
  trust_weight : option float;
  chain_depth : option Z;
  created_at : option Z
}.

(** An integer as a float (exact below [2^53] in absolute value). *)
Definition float_of_Z (z : Z) : float :=
  if z <? 0 then PrimFloat.opp (PrimFloat.of_uint63 (Uint63.of_Z (- z)))
  else PrimFloat.of_uint63 (Uint63.of_Z z).

(** Python's truth test on a float: only zero is false. *)
Definition float_truthy (x : float) : bool := negb (PrimFloat.eqb x 0%float).

(** [max(a, b)]: [b] when [b > a], else [a]. *)
Definition py_max (a b : float) : float := if PrimFloat.ltb a b then b else a.

(** [trust_weight if trust_weight else 1.0] *)
Definition trust_of (trust_weight : option float) : float :=
  match trust_weight with
  | Some w => if float_truthy w then w else 1%float
  | None => 1%float
  end.

(** [1.0 / (1.0 + (chain_depth or 0) * 0.1)] *)
Definition chain_boost_of (chain_depth : option Z) : float :=
  PrimFloat.div 1%float
    (PrimFloat.add 1%float
       (PrimFloat.mul (float_of_Z (default 0 chain_depth)) 0.1%float)).

(** The recency factor, [now_ms] being [int(time.time() * 1000)]. *)
Definition hours_old_of (now_ms created_at : Z) : float :=
  PrimFloat.div (float_of_Z (now_ms - created_at)) (float_of_Z (1000 * 60 * 60)).

Definition recency_of (recency_decay : float) (now_ms : Z) (created_at : option Z)
  : float :=
  match created_at with
  | Some c =>
      if PrimFloat.ltb 0%float recency_decay && negb (c =? 0)
      then py_max 0.5%float
             (PrimFloat.sub 1%float (PrimFloat.mul recency_decay (hours_old_of now_ms c)))
      else 1%float
  | None => 1%float
  end.

(** The relevance [query] computes for a row. *)
Definition relevance (apply_trust_weighting : bool) (recency_decay : float)
    (now_ms : Z) (r : row) : float :=
  if apply_trust_weighting then
    PrimFloat.mul
      (PrimFloat.mul
         (PrimFloat.mul (similarity r) (trust_of (trust_weight r)))
         (chain_boost_of (chain_depth r)))
      (recency_of recency_decay now_ms (created_at r))
  else similarity r.

(** The list [results] of [query] before it is sorted by relevance and cut
    to [top_k]: the rows kept, each with its relevance. *)
Definition scored (apply_trust_weighting exclude_pending : bool)
    (recency_decay : float) (now_ms : Z) (rows : list row) : list (row * float) :=
  (fun r => (r, relevance apply_trust_weighting recency_decay now_ms r))
  <$> filter (fun r => ~ (exclude_pending = true
                          /\ appetite_status r = Some "pending_attestation"%string))
             rows.

(** A thought flagged and given weight zero:
    [set_appetite(cid, "flagged", trust_weight=0.0)]. *)
Definition flagged_row : row :=
  mkRow "cid:blake3:spam" 1%float "buy now" (Some "flagged"%string)
        (Some 0%float) (Some 0) None.

(** ** The relevance formula *)

(** For a row with a non-zero weight, a chain depth and a creation time,
    and a positive decay, the relevance is the product of the spec. *)
Lemma relevance_formula (recency_decay : float) (now_ms : Z) (c : string)
    (sim : float) (text : string) (appetite : option string) (w : float)
    (depth created : Z) :
  float_truthy w = true ->
  PrimFloat.ltb 0%float recency_decay = true ->
  created <> 0 ->
  relevance true recency_decay now_ms
    (mkRow c sim text appetite (Some w) (Some depth) (Some created))
  = PrimFloat.mul
      (PrimFloat.mul
         (PrimFloat.mul sim w)
         (PrimFloat.div 1%float
            (PrimFloat.add 1%float (PrimFloat.mul (float_of_Z depth) 0.1%float))))
      (py_max 0.5%float
         (PrimFloat.sub 1%float
            (PrimFloat.mul recency_decay (hours_old_of now_ms created)))).
Proof.
  intros Hw Hd Hc. unfold relevance, trust_of, recency_of, chain_boost_of. cbn.
  rewrite Hw, Hd. apply Z.eqb_neq in Hc. now rewrite Hc.
Qed.

Lemma relevance_formula_witness :
  relevance true 0.0001%float 1700003600000
    (mkRow "c" 0.5%float "t" None (Some 0.5%float) (Some 2) (Some 1700000000000))
  = PrimFloat.mul
      (PrimFloat.mul
         (PrimFloat.mul 0.5%float 0.5%float)
         (PrimFloat.div 1%float
            (PrimFloat.add 1%float (PrimFloat.mul (float_of_Z 2) 0.1%float))))
      (py_max 0.5%float
         (PrimFloat.sub 1%float
            (PrimFloat.mul 0.0001%float (hours_old_of 1700003600000 1700000000000)))).
Proof.
  apply (relevance_formula 0.0001%float 1700003600000 "c" 0.5%float "t" None
           0.5%float 2 1700000000000); [reflexivity | reflexivity | discriminate].
Defined.

(** C8 at its boundary case: a stored weight of zero is read as a missing
    weight and replaced by one. The flagged row of weight zero is returned
    by the default query with relevance 1.0, its similarity, where the
    product of the spec is zero; and whatever the other inputs, weight zero
    scores like weight one. *)
Theorem zero_weight_scored_as_one :
  scored true true 0.0001%float 1700000000000 [flagged_row]
    = [(flagged_row, 1%float)]
  /\ PrimFloat.mul (similarity flagged_row) 0%float = 0%float
  /\ forall recency_decay now_ms c sim text appetite depth created,
       relevance true recency_decay now_ms
         (mkRow c sim text appetite (Some 0%float) depth created)
       = relevance true recency_decay now_ms
           (mkRow c sim text appetite (Some 1%float) depth created).
Proof.
  split; [vm_compute; reflexivity|]. split; [vm_compute; reflexivity|].
  intros. reflexivity.
Qed.

End Embeddings.

(* ===================================================================== *)
(** * The trust graph with repeaters of [wellspring_repeaters.py] *)
(* ===================================================================== *)

Module Repeaters.
Import Py.

(** Scores are floats in the source; they are exact rationals here, which
    keeps the comparisons and the shape of the products and leaves rounding
    out. [x < y] as a boolean: *)
Definition Qltb (x y : Q) : bool := negb (Qle_bool y x).

(** [class TrustGraphWithRepeaters]: [edges] maps a source to its targets
    and weights, [repeaters] a designator to its repeaters and their
    domains, both in insertion order; [cache] is keyed by
    [(from_cid, to_cid, use_repeaters)]. *)
Record TrustGraphWithRepeaters := mkGraph {
  edges : list (string * list (string * Q));
  repeaters : list (string * list (string * list string));
  cache : gmap (string * string * bool) Q
}.

Definition empty_graph : TrustGraphWithRepeaters := mkGraph [] [] ∅.

(** [add_edge]: the cache is dropped. *)
Definition add_edge (g : TrustGraphWithRepeaters) (from_cid to_cid : string)
    (weight : Q) : TrustGraphWithRepeaters :=
  mkGraph
    (dict_set (edges g) from_cid
       (dict_set (default [] (dict_get (edges g) from_cid)) to_cid weight))
    (repeaters g) ∅.

(** [designate_repeater] *)
Definition designate_repeater (g : TrustGraphWithRepeaters)
    (designator_cid repeater_cid : string) (domains : list string)
  : TrustGraphWithRepeaters :=
  mkGraph (edges g)
    (dict_set (repeaters g) designator_cid
       (dict_set (default [] (dict_get (repeaters g) designator_cid))
                 repeater_cid domains))
    (cache g).

(** [domain is None or domain in domains or "*" in domains] *)
Definition domain_matches (domain : option string) (domains : list string) : bool :=
  match domain with
  | None => true
  | Some d => set_mem domains d || set_mem domains "*"
  end.

Section Compute.

Variable edge_map : list (string * list (string * Q)).
Variable repeater_map : list (string * list (string * list string)).
Variable decay : Q.

(** One turn of the loop over [self.edges[from_cid].items()]: [rec] is the
    recursive call on an intermediate, given the cache and
    [visited.copy()]. *)
Definition transitive_step
    (rec : gmap (string * string * bool) Q -> string -> list string
           -> Q * gmap (string * string * bool) Q)
    (visited : list string) (acc : Q * gmap (string * string * bool) Q)
    (e : string * Q) : Q * gmap (string * string * bool) Q :=
  let '(best_trust, c) := acc in
  let '(intermediate, weight) := e in
  if Qltb 0 weight && negb (set_mem visited intermediate) then
    let '(transitive, c') := rec c intermediate visited in
    let path_trust := (weight * transitive * decay)%Q in
    if Qltb best_trust path_trust then (path_trust, c') else (best_trust, c')
  else (best_trust, c).

(** The loop over [self.repeaters[from_cid].items()]: [leg c a b] is
    [compute_trust(a, b, use_repeaters=False, visited=set(), depth=0)]. The
    first repeater whose domains match and whose two legs are positive
    ends the loop with the product of the legs. *)
Fixpoint repeater_loop
    (leg : gmap (string * string * bool) Q -> string -> string
           -> Q * gmap (string * string * bool) Q)
    (c : gmap (string * string * bool) Q) (from_cid to_cid : string)
    (domain : option string) (reps : list (string * list string))
  : option Q * gmap (string * string * bool) Q :=
  match reps with
  | [] => (None, c)
  | (repeater_cid, domains) :: rest =>
      if domain_matches domain domains then
        let '(my_trust_in_repeater, c1) := leg c from_cid repeater_cid in
        if Qltb 0 my_trust_in_repeater then
          let '(repeater_trust, c2) := leg c1 repeater_cid to_cid in
          if Qltb 0 repeater_trust
          then (Some (my_trust_in_repeater * repeater_trust)%Q, c2)
          else repeater_loop leg c2 from_cid to_cid domain rest
        else repeater_loop leg c1 from_cid to_cid domain rest
      else repeater_loop leg c from_cid to_cid domain rest
  end.

(** The body of [compute_trust]. [budget] is [11 - depth], so that
    [depth > 10] is [budget = 0] and [depth + 1] is the predecessor of
    [budget]; the second component is the cache afterwards. The path
    description the source returns beside the score plays no part in the
    scores and is left out. *)
Fixpoint compute_trust_at
    (leg : gmap (string * string * bool) Q -> string -> string
           -> Q * gmap (string * string * bool) Q)
    (use_repeaters : bool) (budget : nat) (c : gmap (string * string * bool) Q)
    (from_cid to_cid : string) (domain : option string) (visited : list string)
  : Q * gmap (string * string * bool) Q :=
  if String.eqb from_cid to_cid then (1%Q, c)
  else
    let cache_key := (from_cid, to_cid, use_repeaters) in
    match c !! cache_key with
    | Some cached => (cached, c)
    | None =>
        match budget with
        | O => (0%Q, c)
        | S budget' =>
            if set_mem visited from_cid then (0%Q, c)
            else
              let visited := set_add visited from_cid in
              let '(shortcut, c) :=
                if use_repeaters then
                  match dict_get repeater_map from_cid with
                  | Some reps => repeater_loop leg c from_cid to_cid domain reps
                  | None => (None, c)
                  end
                else (None, c) in
              match shortcut with
              | Some final => (final, <[cache_key := final]> c)
              | None =>
                  match dict_get edge_map from_cid with
                  | None => (0%Q, c)
                  | Some out =>
                      match dict_get out to_cid with
                      | Some trust => (trust, <[cache_key := trust]> c)
                      | None =>
                          let '(best_trust, c') :=
                            foldl (transitive_step
                                     (fun c intermediate visited =>
                                        compute_trust_at leg use_repeaters budget' c
                                          intermediate to_cid domain visited)
                                     visited)
                                  (0%Q, c) out in
                          (best_trust, <[cache_key := best_trust]> c')
                      end
                  end
              end
        end
    end.

(** [compute_trust(a, b, use_repeaters=False, visited=set(), depth=0)] *)
Definition plain_trust (c : gmap (string * string * bool) Q) (from_cid to_cid : string)
  : Q * gmap (string * string * bool) Q :=
  compute_trust_at (fun c _ _ => (0%Q, c)) false 11 c from_cid to_cid None [].

End Compute.

(** [compute_trust]: the score and the cache afterwards; [visited = []]
    stands for [None]. *)
Definition compute_trust (g : TrustGraphWithRepeaters) (from_cid to_cid : string)
    (use_repeaters : bool) (domain : option string) (visited : list string)
    (depth : nat) (decay : Q) : Q * gmap (string * string * bool) Q :=
  compute_trust_at (edges g) (repeaters g) decay
    (plain_trust (edges g) (repeaters g) decay)
    use_repeaters (11 - depth) (cache g) from_cid to_cid domain visited.

Definition default_decay : Q := 8 # 10.

(** The graph of the source's [main]: publishers, experts and users. *)
Definition demo_graph : TrustGraphWithRepeaters :=
  let g := empty_graph in
  let g := add_edge g "nature" "dr_chen" 1 in
  let g := add_edge g "prof_climate" "nature" 1 in
  let g := add_edge g "prof_climate" "crystal_woo" 0 in
  let g := add_edge g "alice" "prof_climate" (9 # 10) in
  let g := add_edge g "bob" "alice" (8 # 10) in
  let g := add_edge g "carol" "bob" (7 # 10) in
  let g := add_edge g "dave" "carol" (6 # 10) in
  let g := add_edge g "dave" "crystal_woo" (8 # 10) in
  designate_repeater g "dave" "prof_climate" ["climate"%string; "environment"%string].


(** ** The repeater shortcut *)

Section Shortcut.

Variable g : TrustGraphWithRepeaters.
Variable decay : Q.

(** The two legs of a shortcut, as [compute_trust] calls them. *)
Definition leg
  : gmap (string * string * bool) Q -> string -> string
    -> Q * gmap (string * string * bool) Q :=
  plain_trust (edges g) (repeaters g) decay.

(** [skipped c reps c']: the loop passes over all of [reps] without taking
    a shortcut, the cache going from [c] to [c']. *)
Inductive skipped (from_cid to_cid : string) (domain : option string)
  : gmap (string * string * bool) Q -> list (string * list string)
    -> gmap (string * string * bool) Q -> Prop :=
| skipped_nil c : skipped from_cid to_cid domain c [] c
| skipped_domain c c' r domains rest :
    domain_matches domain domains = false ->
    skipped from_cid to_cid domain c rest c' ->
    skipped from_cid to_cid domain c ((r, domains) :: rest) c'
| skipped_first_leg c c1 c' r domains rest m :
    domain_matches domain domains = true ->
    leg c from_cid r = (m, c1) -> Qltb 0 m = false ->
    skipped from_cid to_cid domain c1 rest c' ->
    skipped from_cid to_cid domain c ((r, domains) :: rest) c'
| skipped_second_leg c c1 c2 c' r domains rest m t :
    domain_matches domain domains = true ->
    leg c from_cid r = (m, c1) -> Qltb 0 m = true ->
    leg c1 r to_cid = (t, c2) -> Qltb 0 t = false ->
    skipped from_cid to_cid domain c2 rest c' ->
    skipped from_cid to_cid domain c ((r, domains) :: rest) c'.

Lemma repeater_loop_first (from_cid to_cid : string) (domain : option string)
    (pre post : list (string * list string)) (r : string) (domains : list string)
    (c c0 c1 c2 : gmap (string * string * bool) Q) (m t : Q) :
  skipped from_cid to_cid domain c pre c0 ->
  domain_matches domain domains = true ->
  leg c0 from_cid r = (m, c1) -> Qltb 0 m = true ->
  leg c1 r to_cid = (t, c2) -> Qltb 0 t = true ->
  repeater_loop leg c from_cid to_cid domain (pre ++ (r, domains) :: post)
  = (Some (m * t)%Q, c2).
Proof.
  intros Hskip Hdom Hm Hmpos Ht Htpos.
  induction Hskip as [c | c c' r' d' rest Hd _ IH
                     | c ca c' r' d' rest m' Hd Hl Hneg _ IH
                     | c ca cb c' r' d' rest m' t' Hd Hl Hpos Hl2 Hneg _ IH];
    cbn [repeater_loop app].
  - now rewrite Hdom, Hm, Hmpos, Ht, Htpos.
  - rewrite Hd. now apply IH.
  - rewrite Hd, Hl, Hneg. now apply IH.
  - rewrite Hd, Hl, Hpos, Hl2, Hneg. now apply IH.
Qed.

Lemma Qltb_lt (x y : Q) : Qltb x y = true <-> (x < y)%Q.
Proof.
  unfold Qltb. rewrite negb_true_iff. split.
  - intros H. apply Qnot_le_lt. intros Hle. apply Qle_bool_iff in Hle. congruence.
  - intros H. destruct (Qle_bool y x) eqn:E; [|reflexivity].
    apply Qle_bool_iff in E. exfalso. now apply (Qlt_not_le x y).
Qed.

(** C7, as the code has it: when [R] is the first repeater designated by
    [O] whose domains match and whose two legs are positive (the repeaters
    designated before it are passed over), [O] is not [T] and no score for
    [(O, T)] is cached, the repeater-aware trust is the product of the two
    legs, each computed without repeaters from a fresh visited set and depth
    zero: no decay factor sits between them. *)
Theorem repeater_reset (O T R : string) (domain : option string)
    (domains : list string) (pre post : list (string * list string))
    (visited : list string) (depth : nat) (c0 : gmap (string * string * bool) Q) :
  O <> T ->
  cache g !! (O, T, true) = None ->
  (depth <= 10)%nat -> O ∉ visited ->
  dict_get (repeaters g) O = Some (pre ++ (R, domains) :: post) ->
  skipped O T domain (cache g) pre c0 ->
  domain_matches domain domains = true ->
  (0 < (leg c0 O R).1)%Q ->
  (0 < (leg (leg c0 O R).2 R T).1)%Q ->
  compute_trust g O T true domain visited depth decay
  = (((leg c0 O R).1 * (leg (leg c0 O R).2 R T).1)%Q,
     <[(O, T, true) := ((leg c0 O R).1 * (leg (leg c0 O R).2 R T).1)%Q]>
       (leg (leg c0 O R).2 R T).2)
  /\ ((leg c0 O R).1 * (leg (leg c0 O R).2 R T).1
      <= (compute_trust g O T true domain visited depth decay).1)%Q.
Proof.
  intros Hne Hmiss Hdepth Hvis Hreps Hskip Hdom Hmpos Htpos.
  destruct (leg c0 O R) as [m c1] eqn:Hm. cbn [fst snd] in *.
  destruct (leg c1 R T) as [t c2] eqn:Ht. cbn [fst snd] in *.
  assert (Heq : compute_trust g O T true domain visited depth decay
                = ((m * t)%Q, <[(O, T, true) := (m * t)%Q]> c2)).
  { unfold compute_trust.
    destruct (11 - depth)%nat as [|budget] eqn:Eb; [lia|].
    cbn [compute_trust_at].
    apply String.eqb_neq in Hne. rewrite Hne, Hmiss.
    destruct (set_mem visited O) eqn:Ev.
    { apply set_mem_true in Ev. contradiction. }
    rewrite Hreps. change (plain_trust (edges g) (repeaters g) decay) with leg.
    apply Qltb_lt in Hmpos, Htpos.
    now rewrite (repeater_loop_first O T domain pre post R domains
                   (cache g) c0 c1 c2 m t Hskip Hdom Hm Hmpos Ht Htpos). }
  split; [exact Heq|]. rewrite Heq. cbn. apply Qle_refl.
Qed.

End Shortcut.


(** Dave's trust in Dr. Chen through his repeater, the climate professor:
    0.1548288 to reach the professor, 0.8 from the professor to Dr. Chen. *)
Lemma repeater_reset_witness :
  ((leg demo_graph default_decay ∅ "dave" "prof_climate").1
   * (leg demo_graph default_decay
        (leg demo_graph default_decay ∅ "dave" "prof_climate").2
        "prof_climate" "dr_chen").1
   <= (compute_trust demo_graph "dave" "dr_chen" true (Some "climate"%string) [] 0
         default_decay).1)%Q.
Proof.
  refine (proj2 (repeater_reset demo_graph default_decay "dave" "dr_chen" "prof_climate"
           (Some "climate"%string) ["climate"%string; "environment"%string] [] []
           [] 0 ∅ _ _ _ _ _ _ _ _ _)).
  - discriminate.
  - reflexivity.
  - lia.
  - apply not_elem_of_nil.
  - reflexivity.
  - constructor.
  - reflexivity.
  - vm_compute. reflexivity.
  - vm_compute. reflexivity.
Defined.

(** Olga designates rita, then ruth, as repeaters for the same domain. *)
Definition two_repeaters : TrustGraphWithRepeaters :=
  let g := empty_graph in
  let g := add_edge g "olga" "rita" (1 # 10) in
  let g := add_edge g "rita" "tom" (1 # 10) in
  let g := add_edge g "olga" "ruth" (9 # 10) in
  let g := add_edge g "ruth" "tom" (9 # 10) in
  let g := designate_repeater g "olga" "rita" ["climate"%string] in
  designate_repeater g "olga" "ruth" ["climate"%string].

(** C7 as stated fails for a repeater designated after another one that
    qualifies: the score is the product through rita, 0.01, below the
    product through ruth, 0.81. *)
Lemma later_repeater_not_consulted :
  dict_get (repeaters two_repeaters) "olga"
    = Some [("rita"%string, ["climate"%string]); ("ruth"%string, ["climate"%string])]
  /\ (compute_trust two_repeaters "olga" "ruth" false None [] 0 default_decay).1
     = (9 # 10)%Q
  /\ (compute_trust two_repeaters "ruth" "tom" false None [] 0 default_decay).1
     = (9 # 10)%Q
  /\ (compute_trust two_repeaters "olga" "tom" true (Some "climate"%string) [] 0
        default_decay).1
     = ((1 # 10) * (1 # 10))%Q
  /\ ~ ((9 # 10) * (9 # 10)
        <= (compute_trust two_repeaters "olga" "tom" true (Some "climate"%string) []
              0 default_decay).1)%Q.
Proof.
  repeat split; try (vm_compute; reflexivity).
  vm_compute. intros H. now apply H.
Qed.

(** ** Monotonicity in the weights *)





Lemma Qltb_ge (x y : Q) : Qltb x y = false <-> (y <= x)%Q.
Proof.
  unfold Qltb. rewrite negb_false_iff. apply Qle_bool_iff.
Qed.







Section Monotone.

Variable decay : Q.
Hypothesis decay_nonneg : (0 <= decay)%Q.





Lemma transitive_step_skip
    (rec : gmap (string * string * bool) Q -> string -> list string
           -> Q * gmap (string * string * bool) Q)
    (visited : list string) (best : Q) (c : gmap (string * string * bool) Q)
    (a : string) (w : Q) :
  Qltb 0 w && negb (set_mem visited a) = false ->
  transitive_step decay rec visited (best, c) (a, w) = (best, c).
Proof. intros H. unfold transitive_step. now rewrite H. Qed.

Lemma transitive_step_go
    (rec : gmap (string * string * bool) Q -> string -> list string
           -> Q * gmap (string * string * bool) Q)
    (visited : list string) (best : Q) (c : gmap (string * string * bool) Q)
    (a : string) (w : Q) :
  Qltb 0 w && negb (set_mem visited a) = true ->
  transitive_step decay rec visited (best, c) (a, w)
  = (if Qltb best (w * (rec c a visited).1 * decay)
     then (w * (rec c a visited).1 * decay)%Q else best,
     (rec c a visited).2).
Proof.
  intros H. unfold transitive_step. rewrite H.
  destruct (rec c a visited) as [t c1]. cbn.
  now destruct (Qltb best (w * t * decay)).
Qed.





End Monotone.


(** Why the two weights have to agree in sign: Olga's edge to Ivan has
    weight zero and is passed over, and Xena's score is computed through
    Ivan. Once the edge is positive, Ivan is tried first, and the score he
    leaves in the cache for Xena was computed with Ivan himself on the
    path. *)
Definition crossing : TrustGraphWithRepeaters :=
  let g := empty_graph in
  let g := add_edge g "olga" "ivan" 0 in
  let g := add_edge g "olga" "xena" 1 in
  let g := add_edge g "ivan" "xena" 1 in
  let g := add_edge g "ivan" "zoe" 1 in
  let g := add_edge g "zoe" "tom" 1 in
  add_edge g "xena" "ivan" 1.

End Repeaters.

(* ===================================================================== *)
(** * The trust graph of the network simulation (wellspring_trust_network.py) *)
(* ===================================================================== *)

Module TrustNet.
Import Py.

(** [class TrustGraph]: [direct_trust[from_id][to_id] = weight] in
    insertion order, and the decay per hop. Scores are exact rationals,
    as in [Repeaters]. *)
Record TrustGraph := mkTrustGraph {
  direct_trust : list (string * list (string * Q));
  decay : Q
}.

(** [__init__] *)
Definition init : TrustGraph := mkTrustGraph [] (8 # 10).

(** [add_trust]: [self.direct_trust[from_id][to_id] = weight] on a
    [defaultdict(dict)]. *)
Definition add_trust (g : TrustGraph) (from_id to_id : string) (weight : Q)
  : TrustGraph :=
  mkTrustGraph
    (dict_set (direct_trust g) from_id
       (dict_set (default [] (dict_get (direct_trust g) from_id)) to_id weight))
    (decay g).

(** The variables of the search: [visited], [queue] (entries
    [(current, accumulated_trust, path)]), [best_score], [best_path]. *)
Record search := mkSearch {
  visited : list string;
  queue : list (string * Q * list string);
  best_score : Q;
  best_path : list string
}.

(** One turn of the loop over [self.direct_trust.get(current, {}).items()]. *)
Definition visit (g : TrustGraph) (target : string) (trust_so_far : Q)
    (path : list string) (s : search) (e : string * Q) : search :=
  let '(next_id, weight) := e in
  if set_mem (visited s) next_id then s
  else
    let new_trust := (trust_so_far * weight * decay g)%Q in
    let new_path := path ++ [next_id] in
    if String.eqb next_id target then
      if Repeaters.Qltb (best_score s) new_trust
      then mkSearch (visited s) (queue s) new_trust new_path
      else s
    else
      mkSearch (set_add (visited s) next_id)
               (queue s ++ [(next_id, new_trust, new_path)])
               (best_score s) (best_path s).

(** [while queue:], one unit of [fuel] for each entry taken off the
    queue; [None] when the fuel runs out first. *)
Fixpoint bfs (g : TrustGraph) (target : string) (max_hops : Z) (fuel : nat)
    (s : search) : option (Q * list string) :=
  match queue s with
  | [] => Some (best_score s, best_path s)
  | (current, trust_so_far, path) :: rest =>
      match fuel with
      | O => None
      | S fuel' =>
          let s := mkSearch (visited s) rest (best_score s) (best_path s) in
          if max_hops + 1 <? Z.of_nat (length path) then bfs g target max_hops fuel' s
          else
            bfs g target max_hops fuel'
              (foldl (visit g target trust_so_far path) s
                 (default [] (dict_get (direct_trust g) current)))
      end
  end.

(** The targets of all edges, with repetitions. *)
Definition targets (g : TrustGraph) : list string :=
  mjoin ((fun o : string * list (string * Q) => o.2.*1) <$> direct_trust g).

(** [compute_trust]: every entry that joins the queue has a target of
    its own, so one more unit of fuel than there are edges is enough
    ([bfs_terminates] below). *)
Definition compute_trust (g : TrustGraph) (viewer target : string) (max_hops : Z)
  : option (Q * list string) :=
  if String.eqb viewer target then Some (1%Q, [viewer])
  else
    match dict_get (default [] (dict_get (direct_trust g) viewer)) target with
    | Some weight => Some (weight, [viewer; target])
    | None =>
        bfs g target max_hops (S (length (targets g)))
          (mkSearch [viewer] [(viewer, 1%Q, [viewer])] 0%Q [])
    end.

(** ** The search ends *)

(** The targets not yet visited. *)
Definition unvisited (g : TrustGraph) (vis : list string) : list string :=
  filter (fun x => set_mem vis x = false) (targets g).

Definition measure (g : TrustGraph) (s : search) : nat :=
  (length (queue s) + length (unvisited g (visited s)))%nat.

Lemma dict_get_elem {V} (d : list (string * V)) (k : string) (v : V) :
  dict_get d k = Some v -> (k, v) ∈ d.
Proof.
  induction d as [|[a u] d IH]; cbn; [discriminate|].
  destruct (String.eqb_spec a k) as [->|_].
  - intros [= ->]. apply list_elem_of_here.
  - intros H. apply list_elem_of_further. now apply IH.
Qed.

Lemma out_targets (g : TrustGraph) (current : string) (out : list (string * Q)) :
  dict_get (direct_trust g) current = Some out -> fst <$> out ⊆ targets g.
Proof.
  intros H x Hx. unfold targets. apply list_elem_of_join.
  exists (fst <$> out). split; [exact Hx|].
  apply list_elem_of_fmap. exists (current, out). split; [reflexivity|].
  now apply dict_get_elem.
Qed.

Lemma unvisited_add_le (l vis : list string) (x : string) :
  (length (filter (fun y => set_mem (set_add vis x) y = false) l)
   <= length (filter (fun y => set_mem vis y = false) l))%nat.
Proof.
  induction l as [|y l IH]; [reflexivity|].
  rewrite !filter_cons, set_mem_set_add.
  destruct (set_mem vis y), (String.eqb y x); cbn [orb];
    repeat case_decide; try congruence; cbn [length]; lia.
Qed.

Lemma unvisited_add (g : TrustGraph) (vis : list string) (x : string) :
  x ∈ targets g -> set_mem vis x = false ->
  (S (length (unvisited g (set_add vis x))) <= length (unvisited g vis))%nat.
Proof.
  unfold unvisited. intros Hx Hv.
  induction (targets g) as [|y l IH]; [now apply elem_of_nil in Hx|].
  rewrite !filter_cons, set_mem_set_add.
  apply elem_of_cons in Hx as [<-|Hx].
  - rewrite Hv, String.eqb_refl. cbn [orb].
    repeat case_decide; try congruence. cbn [length].
    pose proof (unvisited_add_le l vis x). lia.
  - specialize (IH Hx).
    destruct (set_mem vis y), (String.eqb y x); cbn [orb];
      repeat case_decide; try congruence; cbn [length]; lia.
Qed.

Lemma visit_measure (g : TrustGraph) (target : string) (t : Q) (path : list string)
    (s : search) (e : string * Q) :
  e.1 ∈ targets g ->
  (measure g (visit g target t path s e) <= measure g s)%nat.
Proof.
  destruct e as [next_id weight]. cbn [fst]. intros He. unfold visit, measure.
  destruct (set_mem (visited s) next_id) eqn:Ev; [lia|].
  destruct (String.eqb next_id target).
  - destruct (Repeaters.Qltb _ _); cbn; lia.
  - cbn [queue visited]. rewrite length_app. cbn [length].
    pose proof (unvisited_add g (visited s) next_id He Ev). lia.
Qed.

Lemma visits_measure (g : TrustGraph) (target : string) (t : Q) (path : list string)
    (out : list (string * Q)) (s : search) :
  fst <$> out ⊆ targets g ->
  (measure g (foldl (visit g target t path) s out) <= measure g s)%nat.
Proof.
  revert s. induction out as [|e out IH]; intros s Hsub; cbn [foldl]; [lia|].
  etransitivity; [apply IH | apply visit_measure].
  - intros x Hx. apply Hsub. rewrite fmap_cons. now apply list_elem_of_further.
  - apply Hsub. rewrite fmap_cons. apply list_elem_of_here.
Qed.

(** With as much fuel as the measure, the search returns. *)
Lemma bfs_terminates (g : TrustGraph) (target : string) (max_hops : Z) (fuel : nat)
    (s : search) :
  (measure g s <= fuel)%nat -> is_Some (bfs g target max_hops fuel s).
Proof.
  revert s. induction fuel as [|fuel IH]; intros s Hm.
  - unfold measure in Hm. destruct s as [vis [|x q] b p]; cbn in *; [eauto | lia].
  - destruct s as [vis [|[[current t] path] q] b p]; cbn [bfs queue visited best_score
      best_path]; [eauto|].
    unfold measure in Hm. cbn [queue visited length] in Hm.
    destruct (max_hops + 1 <? Z.of_nat (length path)).
    + apply IH. unfold measure. cbn [queue visited]. lia.
    + apply IH. etransitivity; [apply visits_measure|].
      * destruct (dict_get (direct_trust g) current) as [out|] eqn:E; cbn.
        -- now apply (out_targets g current).
        -- intros x Hx. now apply elem_of_nil in Hx.
      * unfold measure. cbn [queue visited]. lia.
Qed.

(** [compute_trust] always returns. *)
Lemma compute_trust_total (g : TrustGraph) (viewer target : string) (max_hops : Z) :
  is_Some (compute_trust g viewer target max_hops).
Proof.
  unfold compute_trust. destruct (String.eqb viewer target); [eauto|].
  destruct (dict_get _ target); [eauto|].
  apply bfs_terminates. unfold measure, unvisited. cbn [queue visited length].
  pose proof (length_filter (fun x => set_mem [viewer] x = false) (targets g)). lia.
Qed.

(** ** Monotonicity in the weights *)

(** [weight_le x y]: [0 <= x <= y]. *)
Definition weight_le (x y : Q) : Prop := (0 <= x)%Q /\ (x <= y)%Q.

(** [graph_le g g']: the same edges in the same order and the same decay,
    no weight negative, every weight of [g'] at least that of [g]. *)
Definition graph_le (g g' : TrustGraph) : Prop :=
  dict_rel (dict_rel weight_le) (direct_trust g) (direct_trust g')
  /\ decay g = decay g'.

Definition entry_le (x y : string * Q * list string) : Prop :=
  x.1.1 = y.1.1 /\ x.2 = y.2 /\ weight_le x.1.2 y.1.2.

Definition search_le (s s' : search) : Prop :=
  visited s = visited s' /\ Forall2 entry_le (queue s) (queue s')
  /\ weight_le (best_score s) (best_score s').

(** No weight of the graph is negative. *)
Definition nonneg (g : TrustGraph) : Prop :=
  Forall (fun o : string * list (string * Q) =>
            Forall (fun e : string * Q => (0 <= e.2)%Q) o.2)
         (direct_trust g).

Lemma new_trust_le (t t' w w' d : Q) :
  weight_le t t' -> weight_le w w' -> (0 <= d)%Q ->
  weight_le (t * w * d) (t' * w' * d).
Proof.
  intros [Ht Htt] [Hw Hww] Hd.
  assert (H1 : (0 <= t * w)%Q) by now apply Qmult_le_0_compat.
  assert (H2 : (t * w <= t' * w')%Q).
  { apply Qle_trans with (t * w')%Q.
    - rewrite (Qmult_comm t w), (Qmult_comm t w'). now apply Qmult_le_compat_r.
    - apply Qmult_le_compat_r; [exact Htt | lra]. }
  split; [now apply Qmult_le_0_compat | now apply Qmult_le_compat_r].
Qed.

Lemma visit_le (g g' : TrustGraph) (target : string) (t t' : Q) (path : list string)
    (s s' : search) (next_id : string) (w w' : Q) :
  decay g = decay g' -> (0 <= decay g)%Q ->
  weight_le t t' -> weight_le w w' -> search_le s s' ->
  search_le (visit g target t path s (next_id, w))
            (visit g' target t' path s' (next_id, w')).
Proof.
  intros Hd Hd0 Ht Hw (Hv & Hq & Hb). unfold visit. rewrite <- Hv, <- Hd.
  destruct (set_mem (visited s) next_id); [exact (conj Hv (conj Hq Hb))|].
  pose proof (new_trust_le t t' w w' (decay g) Ht Hw Hd0) as [Hn Hnn].
  destruct Hb as [Hb Hbb].
  destruct (String.eqb next_id target).
  - destruct (Repeaters.Qltb (best_score s) _) eqn:E1;
      destruct (Repeaters.Qltb (best_score s') _) eqn:E2;
      try apply Repeaters.Qltb_lt in E1; try apply Repeaters.Qltb_lt in E2;
      try apply Repeaters.Qltb_ge in E1; try apply Repeaters.Qltb_ge in E2;
      (split; [cbn [visited]; first [exact Hv | reflexivity]|]);
      (split; [exact Hq|]); cbn [best_score]; split; lra.
  - split; [reflexivity|].
    split; [|now split]. cbn [queue].
    apply Forall2_app; [exact Hq|]. constructor; [|constructor].
    repeat split; assumption.
Qed.

Lemma visits_le (g g' : TrustGraph) (target : string) (t t' : Q) (path : list string)
    (out out' : list (string * Q)) :
  decay g = decay g' -> (0 <= decay g)%Q -> weight_le t t' ->
  dict_rel weight_le out out' ->
  forall s s', search_le s s' ->
    search_le (foldl (visit g target t path) s out)
              (foldl (visit g' target t' path) s' out').
Proof.
  intros Hd Hd0 Ht Hout.
  induction Hout as [|[a w] [a' w'] out out' (Ha & Hw) _ IH]; intros s s' Hs;
    cbn [foldl]; [exact Hs|].
  cbn in Ha, Hw. subst a'. apply IH. now apply visit_le.
Qed.

Lemma bfs_le (g g' : TrustGraph) (target : string) (max_hops : Z) :
  graph_le g g' -> (0 <= decay g)%Q ->
  forall fuel s s', search_le s s' ->
    option_Forall2 (fun r r' : Q * list string => (r.1 <= r'.1)%Q)
      (bfs g target max_hops fuel s) (bfs g' target max_hops fuel s').
Proof.
  intros [Hg Hd] Hd0 fuel.
  induction fuel as [|fuel IH]; intros s s' (Hv & Hq & Hb);
    destruct s as [vis q b p], s' as [vis' q' b' p']; cbn in Hv, Hq, Hb; subst vis';
    destruct Hq as [|[[current t] path] [[current' t'] path'] q q' (Hc & Hp & Ht) Hq];
    cbn [bfs queue visited best_score best_path];
    try (constructor; cbn; exact (proj2 Hb)); try constructor.
  cbn in Hc, Hp, Ht. subst current' path'.
  assert (Hs : search_le (mkSearch vis q b p) (mkSearch vis q' b' p'))
    by exact (conj eq_refl (conj Hq Hb)).
  destruct (max_hops + 1 <? Z.of_nat (length path)); [now apply IH|].
  apply IH.
  pose proof (dict_rel_get _ _ _ current Hg) as Hout.
  destruct Hout as [out out' Hout|]; cbn [default foldl]; [|exact Hs].
  now apply visits_le.
Qed.

Lemma targets_le (g g' : TrustGraph) : graph_le g g' -> targets g = targets g'.
Proof.
  intros [Hg _]. unfold targets. f_equal.
  induction Hg as [|[a o] [a' o'] d d' (_ & Ho) _ IH]; [reflexivity|].
  rewrite !fmap_cons. f_equal; [|exact IH]. cbn in *.
  clear -Ho. induction Ho as [|[b w] [b' w'] o o' (Hb & _) _ IHo]; [reflexivity|].
  rewrite !fmap_cons. cbn in *. now f_equal.
Qed.

(** [compute_trust] on two graphs that differ in their weights only. *)
Lemma trust_graph_monotone (g g' : TrustGraph) (viewer target : string)
    (max_hops : Z) :
  graph_le g g' -> (0 <= decay g)%Q ->
  exists r r',
    compute_trust g viewer target max_hops = Some r
    /\ compute_trust g' viewer target max_hops = Some r'
    /\ (r.1 <= r'.1)%Q.
Proof.
  intros Hg Hd.
  destruct (compute_trust_total g viewer target max_hops) as [r Hr].
  destruct (compute_trust_total g' viewer target max_hops) as [r' Hr'].
  exists r, r'. split; [exact Hr|]. split; [exact Hr'|].
  unfold compute_trust in Hr, Hr'. rewrite <- (targets_le g g' Hg) in Hr'.
  destruct (String.eqb viewer target); [simplify_eq; apply Qle_refl|].
  pose proof (dict_rel_get _ _ _ viewer (proj1 Hg)) as Hout.
  assert (Hout' : dict_rel weight_le
                    (default [] (dict_get (direct_trust g) viewer))
                    (default [] (dict_get (direct_trust g') viewer))).
  { destruct Hout as [out out' Hout|]; [exact Hout | constructor]. }
  destruct (dict_rel_get _ _ _ target Hout') as [w w' Hw|].
  { simplify_eq. exact (proj2 Hw). }
  pose proof (bfs_le g g' target max_hops Hg Hd (S (length (targets g)))
                (mkSearch [viewer] [(viewer, 1%Q, [viewer])] 0%Q [])
                (mkSearch [viewer] [(viewer, 1%Q, [viewer])] 0%Q [])) as H.
  rewrite Hr, Hr' in H.
  assert (Hs : search_le (mkSearch [viewer] [(viewer, 1%Q, [viewer])] 0%Q [])
                         (mkSearch [viewer] [(viewer, 1%Q, [viewer])] 0%Q [])).
  { split; [reflexivity|]. split.
    - constructor; [|constructor]. repeat split; cbn; lra.
    - split; cbn; lra. }
  specialize (H Hs). now inversion H.
Qed.

Lemma nonneg_le (d : list (string * Q)) :
  Forall (fun e : string * Q => (0 <= e.2)%Q) d -> dict_rel weight_le d d.
Proof.
  induction 1 as [|x d Hx _ IH]; constructor; [|exact IH].
  split; [reflexivity|]. split; [exact Hx | apply Qle_refl].
Qed.

(** [add_trust] with a larger weight gives a larger graph. *)
Lemma add_trust_le (g : TrustGraph) (a b : string) (w w' : Q) :
  nonneg g -> (0 <= w)%Q -> (w <= w')%Q ->
  graph_le (add_trust g a b w) (add_trust g a b w').
Proof.
  intros Hg H0 Hw.
  assert (Hd : dict_rel (dict_rel weight_le) (direct_trust g) (direct_trust g)).
  { induction Hg as [|x d Hx _ IH]; constructor; [|exact IH].
    split; [reflexivity | now apply nonneg_le]. }
  split; [|reflexivity]. cbn [add_trust direct_trust].
  apply dict_rel_set; [exact Hd|].
  apply dict_rel_set; [|now split].
  destruct (dict_get (direct_trust g) a) as [out|] eqn:E; [|constructor].
  apply nonneg_le. apply dict_get_elem in E.
  exact (proj1 (Forall_forall _ _) Hg _ E).
Qed.

(** ** Raising and adding edges *)

(** The trust relationships of the simulation's second phase. *)
Definition simulation : TrustGraph :=
  let g := init in
  let g := add_trust g "alice" "bob" 1 in
  let g := add_trust g "bob" "carol" 1 in
  let g := add_trust g "bob" "eve" (8 # 10) in
  let g := add_trust g "carol" "eve" (8 # 10) in
  let g := add_trust g "alice" "dave" (7 # 10) in
  add_trust g "dave" "alice" 1.



Lemma simulation_nonneg : nonneg simulation.
Proof.
  unfold nonneg. vm_compute direct_trust.
  repeat (constructor; [repeat (constructor; [cbn; lra|]); constructor|]).
  constructor.
Qed.




End TrustNet.
(* ===================================================================== *)
(** * More on the bloom filter: which bits are set, and what is reported *)
(* ===================================================================== *)

Module BloomBits.
Import Bloom.

Section Bits.

Variable mmh3_hash : string -> Z -> Z.

(** The position [mmh3.hash(item, i) % size] as an index of [bits]. *)
Definition position (f : BloomFilter) (item : string) (i : Z) : nat :=
  Z.to_nat (mmh3_hash item i `mod` size f).

Lemma add_from_bits (item : string) (seeds : list Z) :
  forall f, wf f ->
  exists f', add_from mmh3_hash f item seeds = Some f'
    /\ wf f' /\ size f' = size f /\ hash_count f' = hash_count f
    /\ (forall k : nat, bits f' !! k = Some true <->
          bits f !! k = Some true \/ exists i, i ∈ seeds /\ k = position f item i).
Proof.
  induction seeds as [|i0 rest IH]; intros f Hwf.
  - exists f. repeat split; try apply Hwf; auto.
    intros [H|(i & Hi & _)]; [exact H | inversion Hi].
  - destruct (slot_wf mmh3_hash f item i0 Hwf) as (Hslot & Hidx & Hlt).
    fold (position f item i0) in Hidx, Hlt.
    set (k0 := position f item i0) in *.
    set (f1 := mk (size f) (hash_count f) (<[k0:=true]> (bits f))).
    assert (Hwf1 : wf f1).
    { destruct Hwf as [Hpos Hlen]. split; [exact Hpos|].
      cbn. rewrite length_insert. exact Hlen. }
    destruct (IH f1 Hwf1) as (f' & Hadd & Hwf' & Hsz & Hhc & Hbits).
    exists f'. cbn [add_from]. rewrite Hslot. cbn.
    unfold Py.setitem. rewrite Hidx. cbn. fold f1. rewrite Hadd.
    split; [reflexivity|]. split; [exact Hwf'|]. split; [exact Hsz|].
    split; [exact Hhc|]. intros k. rewrite Hbits. cbn [bits f1].
    unfold position. cbn [size f1]. fold (position f item i0). fold k0.
    destruct (decide (k0 = k)) as [<-|Hne].
    + rewrite list_lookup_insert_eq by exact Hlt. split; [|auto].
      intros _. right. exists i0. split; [apply list_elem_of_here | reflexivity].
    + rewrite list_lookup_insert_ne by exact Hne. split.
      * intros [H|(i & Hi & Hk)]; [auto|]. right. exists i.
        split; [now apply list_elem_of_further | exact Hk].
      * intros [H|(i & Hi & Hk)]; [auto|]. apply elem_of_cons in Hi as [->|Hi].
        -- fold (position f item i0) in Hk. fold k0 in Hk. congruence.
        -- right. now exists i.
Qed.

Lemma add_all_bits (items : list string) :
  forall f, wf f ->
  exists f', add_all mmh3_hash f items = Some f'
    /\ wf f' /\ size f' = size f /\ hash_count f' = hash_count f
    /\ (forall k : nat, bits f' !! k = Some true <->
          bits f !! k = Some true
          \/ exists x i, x ∈ items /\ 0 <= i < hash_count f /\ k = position f x i).
Proof.
  induction items as [|x rest IH]; intros f Hwf.
  - exists f. repeat split; try apply Hwf; auto.
    intros [H|(x & i & Hx & _)]; [exact H | inversion Hx].
  - destruct (add_from_bits x (Py.range (hash_count f)) f Hwf)
      as (f1 & Hadd & Hwf1 & Hsz1 & Hhc1 & Hbits1).
    destruct (IH f1 Hwf1) as (f' & Hall & Hwf' & Hsz & Hhc & Hbits).
    exists f'. cbn [add_all]. unfold add. rewrite Hadd. cbn. rewrite Hall.
    split; [reflexivity|]. split; [exact Hwf'|]. split; [congruence|].
    split; [congruence|]. intros k. rewrite Hbits, Hbits1, Hhc1.
    unfold position. rewrite Hsz1. split.
    + intros [[H|(i & Hi & Hk)]|(y & i & Hy & Hi & Hk)]; [auto| |].
      * right. exists x, i. apply Py.elem_of_range in Hi.
        split; [apply list_elem_of_here | auto].
      * right. exists y, i. split; [now apply list_elem_of_further | auto].
    + intros [H|(y & i & Hy & Hi & Hk)]; [auto|].
      apply elem_of_cons in Hy as [->|Hy].
      * left. right. exists i. split; [now apply Py.elem_of_range | exact Hk].
      * right. now exists y, i.
Qed.

(** On a filter with as many bits as its size, [maybe_contains] raises
    nothing, and answers [True] exactly when every position of the item is
    set. *)
Lemma maybe_contains_from_bits (f : BloomFilter) (item : string) (seeds : list Z) :
  wf f ->
  exists b, maybe_contains_from mmh3_hash f item seeds = Some b
    /\ (b = true <->
        forall i, i ∈ seeds -> bits f !! position f item i = Some true).
Proof.
  intros Hwf. induction seeds as [|i0 rest IH].
  - exists true. split; [reflexivity|]. split; [|reflexivity].
    intros _ i Hi. inversion Hi.
  - destruct (slot_wf mmh3_hash f item i0 Hwf) as (Hslot & Hidx & Hlt).
    fold (position f item i0) in Hidx, Hlt.
    cbn [maybe_contains_from]. rewrite Hslot. cbn.
    unfold Py.getitem. rewrite Hidx. cbn.
    destruct (lookup_lt_is_Some_2 _ _ Hlt) as [[|] Hb]; rewrite Hb; cbn.
    + destruct IH as (b & Hmc & Hiff). exists b. split; [exact Hmc|].
      rewrite Hiff. split.
      * intros H i Hi. apply elem_of_cons in Hi as [->|Hi]; auto.
      * intros H i Hi. apply H. now apply list_elem_of_further.
    + exists false. split; [reflexivity|]. split; [discriminate|].
      intros H. specialize (H i0 ltac:(apply list_elem_of_here)). congruence.
Qed.

Lemma init_bits (size hash_count : Z) (k : nat) :
  bits (init size hash_count) !! k <> Some true.
Proof.
  cbn. intros H. apply lookup_replicate in H as [H _]. discriminate.
Qed.

(** X1. Which items a filter reports after [items] were added to a new one:
    those whose every position is the position of an added item. With
    nothing added no item is reported (when [hash_count] is positive; a
    filter without hash functions reports every item). *)
Theorem reported_iff_positions_covered (size hash_count : Z) (items : list string)
    (y : string) :
  0 < size ->
  exists f b,
    add_all mmh3_hash (init size hash_count) items = Some f
    /\ maybe_contains mmh3_hash f y = Some b
    /\ (b = true <->
        forall i, 0 <= i < hash_count ->
          exists x j, x ∈ items /\ 0 <= j < hash_count
            /\ mmh3_hash y i `mod` size = mmh3_hash x j `mod` size).
Proof.
  intros Hpos.
  destruct (add_all_bits items (init size hash_count) (init_wf size hash_count Hpos))
    as (f & Hall & Hwf & Hsz & Hhc & Hbits).
  cbn in Hsz, Hhc.
  destruct (maybe_contains_from_bits f y (Py.range (Bloom.hash_count f)) Hwf)
    as (b & Hmc & Hiff).
  exists f, b. split; [exact Hall|]. split; [exact Hmc|].
  rewrite Hiff, Hhc. split.
  - intros H i Hi. specialize (H i (proj2 (Py.elem_of_range _ _) Hi)).
    apply Hbits in H as [H|(x & j & Hx & Hj & Hk)]; [now apply init_bits in H|].
    exists x, j. split; [exact Hx|]. split; [exact Hj|].
    unfold position in Hk. rewrite Hsz in Hk. cbn in Hk.
    pose proof (Z.mod_pos_bound (mmh3_hash y i) size Hpos).
    pose proof (Z.mod_pos_bound (mmh3_hash x j) size Hpos). lia.
  - intros H i Hi. apply Py.elem_of_range in Hi.
    destruct (H i Hi) as (x & j & Hx & Hj & Heq).
    apply Hbits. right. exists x, j. split; [exact Hx|]. split; [exact Hj|].
    unfold position. rewrite Hsz. cbn. now rewrite Heq.
Qed.

Lemma wf_bits_eq (f f' : BloomFilter) :
  wf f -> wf f' -> size f = size f' -> hash_count f = hash_count f' ->
  (forall k : nat, bits f !! k = Some true <-> bits f' !! k = Some true) ->
  f = f'.
Proof.
  intros [_ Hl] [_ Hl'] Hsz Hhc Hb. destruct f as [s h bs], f' as [s' h' bs'].
  cbn [size hash_count bits] in *.
  assert (bs = bs') as Hbs; [|now rewrite Hsz, Hhc, Hbs].
  apply list_eq. intros k.
  destruct (bs !! k) as [b|] eqn:E, (bs' !! k) as [b'|] eqn:E'.
  - specialize (Hb k). rewrite E, E' in Hb.
    destruct b, b'; try reflexivity; exfalso.
    + assert (Some false = Some true) by (now apply Hb). discriminate.
    + assert (Some false = Some true) by (now apply Hb). discriminate.
  - apply lookup_lt_Some in E. apply lookup_ge_None in E'. lia.
  - apply lookup_ge_None in E. apply lookup_lt_Some in E'. lia.
  - reflexivity.
Qed.

(** X2. The filter depends on which items were added, not on their order or
    on how often each was added: two nodes that hold the same CIDs publish
    the same filter. *)
Theorem same_items_same_filter (f : BloomFilter) (items items' : list string) :
  0 < size f -> Z.of_nat (length (bits f)) = size f ->
  (forall x, x ∈ items <-> x ∈ items') ->
  add_all mmh3_hash f items = add_all mmh3_hash f items'
  /\ is_Some (add_all mmh3_hash f items).
Proof.
  intros Hpos Hlen Hsame.
  destruct (add_all_bits items f (conj Hpos Hlen))
    as (f1 & Hall1 & Hwf1 & Hsz1 & Hhc1 & Hbits1).
  destruct (add_all_bits items' f (conj Hpos Hlen))
    as (f2 & Hall2 & Hwf2 & Hsz2 & Hhc2 & Hbits2).
  rewrite Hall1, Hall2. split; [|eauto]. f_equal.
  apply wf_bits_eq; try assumption; try congruence.
  intros k. rewrite Hbits1, Hbits2. split.
  - intros [H|(x & i & Hx & Hi)]; [auto|]. right. exists x, i.
    split; [now apply Hsame | exact Hi].
  - intros [H|(x & i & Hx & Hi)]; [auto|]. right. exists x, i.
    split; [now apply Hsame | exact Hi].
Qed.

End Bits.

Lemma reported_iff_positions_covered_witness :
  exists f b,
    add_all Sync.toy_hash (init 1024 3) ["baf_note"%string] = Some f
    /\ maybe_contains Sync.toy_hash f "baf_memo" = Some b
    /\ (b = true <->
        forall i, 0 <= i < 3 ->
          exists x j, x ∈ ["baf_note"%string] /\ 0 <= j < 3
            /\ Sync.toy_hash "baf_memo" i `mod` 1024 = Sync.toy_hash x j `mod` 1024).
Proof.
  apply (reported_iff_positions_covered Sync.toy_hash 1024 3 ["baf_note"%string]
           "baf_memo").
  lia.
Defined.

Lemma same_items_same_filter_witness :
  add_all Sync.toy_hash (init 1024 3)
    ["baf_note"%string; "baf_alice_identity"%string; "baf_note"%string]
  = add_all Sync.toy_hash (init 1024 3)
      ["baf_alice_identity"%string; "baf_note"%string]
  /\ is_Some (add_all Sync.toy_hash (init 1024 3)
                ["baf_note"%string; "baf_alice_identity"%string; "baf_note"%string]).
Proof.
  apply (same_items_same_filter Sync.toy_hash (init 1024 3)).
  - cbn. lia.
  - reflexivity.
  - intros x. rewrite !elem_of_cons, !elem_of_nil. tauto.
Defined.

End BloomBits.
(* ===================================================================== *)
(** * The store of a sync node: what receiving thoughts keeps true *)
(* ===================================================================== *)

Module NodeStore.
Import Py Signed Node.

Lemma dict_get_set_ne {V} (d : list (string * V)) (k k' : string) (v : V) :
  k <> k' -> dict_get (dict_set d k v) k' = dict_get d k'.
Proof.
  intros Hne. induction d as [|[a u] d IH]; cbn.
  - apply String.eqb_neq in Hne. now rewrite Hne.
  - destruct (String.eqb_spec a k) as [->|Hak]; cbn.
    + apply String.eqb_neq in Hne. now rewrite Hne.
    + destruct (String.eqb a k'); [reflexivity | exact IH].
Qed.

Lemma dict_get_set {V} (d : list (string * V)) (k k' : string) (v : V) :
  dict_get (dict_set d k v) k' = if String.eqb k k' then Some v else dict_get d k'.
Proof.
  destruct (String.eqb_spec k k') as [<-|Hne].
  - apply Thoughts.dict_get_set_eq.
  - now apply dict_get_set_ne.
Qed.

Lemma dict_mem_get {V} (d : list (string * V)) (k : string) :
  dict_mem d k = true <-> is_Some (dict_get d k).
Proof.
  unfold dict_mem. destruct (dict_get d k); split; eauto; try discriminate.
  intros [? ?]. discriminate.
Qed.

Lemma dict_keys_set {V} (d : list (string * V)) (k k' : string) (v : V) :
  k' ∈ dict_keys (dict_set d k v) <-> k' = k \/ k' ∈ dict_keys d.
Proof.
  rewrite <- !dict_mem_true, !dict_mem_get, dict_get_set.
  destruct (String.eqb_spec k k') as [<-|Hne]; split; eauto.
  intros [->|H]; [contradiction | exact H].
Qed.

Section Store.

Variable json_dumps : json -> string.
Variable b64decode : string -> option (list Z).
Variable ed25519_verify : list Z -> list Z -> string -> bool.
Variable mmh3_hash : string -> Z -> Z.

(** The thought is a self-signed identity, whose key is in its content. *)
Definition genesis_identity (th : thought) : bool :=
  String.eqb (t_type th) "identity" && String.eqb (t_created_by th) "GENESIS".

(** What [_store_thought] does, case by case. *)
Lemma store_thought_cases (n n' : WellspringNode) (th : thought) (b : bool) :
  _store_thought json_dumps b64decode ed25519_verify mmh3_hash n th = Some (b, n') ->
  self_cid n' = self_cid n /\ received_count n' = received_count n
  /\ sent_count n' = sent_count n
  /\ ((b = true
       /\ dict_mem (thoughts n) (t_cid th) = false
       /\ verify_signature json_dumps b64decode ed25519_verify (pubkeys n) th = Some true
       /\ thoughts n' = dict_set (thoughts n) (t_cid th) th
       /\ Bloom.add mmh3_hash (bloom n) (t_cid th) = Some (bloom n')
       /\ (if genesis_identity th
           then exists pk, dict_get (t_content th) "pubkey" = Some pk
                  /\ pubkeys n' = <[t_cid th := pk]> (pubkeys n)
           else pubkeys n' = pubkeys n)
       /\ verified_count n' = verified_count n + 1
       /\ rejected_count n' = rejected_count n)
      \/ (b = false
          /\ thoughts n' = thoughts n /\ pubkeys n' = pubkeys n /\ bloom n' = bloom n
          /\ verified_count n' = verified_count n
          /\ (dict_mem (thoughts n) (t_cid th) = true /\ rejected_count n' = rejected_count n
              \/ dict_mem (thoughts n) (t_cid th) = false
                 /\ verify_signature json_dumps b64decode ed25519_verify (pubkeys n) th
                    = Some false
                 /\ rejected_count n' = rejected_count n + 1))).
Proof.
  unfold _store_thought, _verify_signature, genesis_identity. intros H.
  destruct (dict_mem (thoughts n) (t_cid th)) eqn:Emem.
  { simplify_eq. repeat split; try reflexivity. right. repeat split; auto. }
  destruct (verify_signature _ _ _ (pubkeys n) th) as [[|]|] eqn:Ever; cbn in H;
    [| |discriminate].
  - destruct (Bloom.add _ _ _) as [bloom'|] eqn:Eadd; cbn in H; [|discriminate].
    destruct ((t_type th =? "identity")%string && (t_created_by th =? "GENESIS")%string)
      eqn:Eg; cbn in H.
    + destruct (dict_get (t_content th) "pubkey") as [pk|] eqn:Epk; cbn in H;
        [|discriminate].
      simplify_eq. cbn. repeat split; try reflexivity. left.
      repeat split; try reflexivity. now exists pk.
    + simplify_eq. cbn. repeat split; try reflexivity. left.
      repeat split; reflexivity.
  - simplify_eq. cbn. repeat split; try reflexivity. right.
    repeat split; try reflexivity. right. auto.
Qed.

(** ** Properties of the store that receiving keeps

    [P] speaks of the store, the known keys and the filter; the counters
    play no part. *)
Section Kept.

Variable P : list (string * thought) -> gmap string json -> Bloom.BloomFilter -> Prop.

Hypothesis P_store : forall n n' th b,
  P (thoughts n) (pubkeys n) (bloom n) ->
  _store_thought json_dumps b64decode ed25519_verify mmh3_hash n th = Some (b, n') ->
  P (thoughts n') (pubkeys n') (bloom n').

Lemma receive_loop_keeps (first : bool) (ths : list thought) :
  forall n new_count deferred n' new_count' deferred',
  P (thoughts n) (pubkeys n) (bloom n) ->
  receive_loop json_dumps b64decode ed25519_verify mmh3_hash first ths n new_count
    deferred = Some (n', new_count', deferred') ->
  P (thoughts n') (pubkeys n') (bloom n').
Proof.
  induction ths as [|th rest IH]; intros n c d n' c' d' HP H; cbn in H.
  - now simplify_eq.
  - destruct (_store_thought _ _ _ _ n th) as [[b n1]|] eqn:Es; cbn in H; [|discriminate].
    pose proof (P_store _ _ _ _ HP Es) as HP1.
    destruct b; cbn in H.
    + eapply IH; [|exact H]. exact HP1.
    + destruct (first && negb (dict_mem (thoughts n1) (t_cid th)));
        (eapply IH; [|exact H]; exact HP1).
Qed.

Lemma receive_thoughts_keeps (n n' : WellspringNode) (ths : list thought) (r c : Z) :
  P (thoughts n) (pubkeys n) (bloom n) ->
  receive_thoughts json_dumps b64decode ed25519_verify mmh3_hash n ths = Some (n', r, c) ->
  P (thoughts n') (pubkeys n') (bloom n').
Proof.
  unfold receive_thoughts. intros HP H.
  destruct (receive_loop _ _ _ _ true _ n 0 []) as [[[n1 c1] d1]|] eqn:E1; cbn in H;
    [|discriminate].
  destruct (receive_loop _ _ _ _ false _ n1 c1 []) as [[[n2 c2] d2]|] eqn:E2; cbn in H;
    [|discriminate].
  simplify_eq. eapply receive_loop_keeps; [|exact E2].
  eapply receive_loop_keeps; [exact HP | exact E1].
Qed.

End Kept.

(** ** The filter covers the store *)

Lemma reported_recorded (f : Bloom.BloomFilter) (item : string) :
  Bloom.wf f ->
  Bloom.maybe_contains mmh3_hash f item = Some true <-> Bloom.recorded mmh3_hash f item.
Proof.
  intros Hwf. split; [|now apply Bloom.recorded_maybe_contains].
  unfold Bloom.maybe_contains. intros H.
  destruct (BloomBits.maybe_contains_from_bits mmh3_hash f item
              (range (Bloom.hash_count f)) Hwf) as (b & Hb & Hiff).
  rewrite H in Hb. simplify_eq. intros i Hi. apply Hiff; [reflexivity|].
  now apply elem_of_range.
Qed.

(** [covered T B]: the filter [B] has its bits and reports every CID of
    the store [T]. *)
Definition covered (T : list (string * thought)) (B : Bloom.BloomFilter) : Prop :=
  Bloom.wf B
  /\ forall cid, cid ∈ dict_keys T -> Bloom.maybe_contains mmh3_hash B cid = Some true.

Lemma store_thought_covered (n n' : WellspringNode) (th : thought) (b : bool) :
  covered (thoughts n) (bloom n) ->
  _store_thought json_dumps b64decode ed25519_verify mmh3_hash n th = Some (b, n') ->
  covered (thoughts n') (bloom n').
Proof.
  intros [Hwf Hcov] H.
  destruct (store_thought_cases _ _ _ _ H)
    as (_ & _ & _ & [(_ & _ & _ & HT & HB & _)|(_ & HT & _ & HB & _)]).
  2:{ rewrite HT, HB. now split. }
  destruct (Bloom.add_spec mmh3_hash (bloom n) (t_cid th) Hwf)
    as (f' & Hadd & Hwf' & _ & _ & Hrec & Hmono).
  rewrite HB in Hadd. simplify_eq. split; [exact Hwf'|].
  intros cid Hcid. rewrite HT in Hcid. apply dict_keys_set in Hcid as [->|Hcid].
  - now apply reported_recorded.
  - apply reported_recorded; [exact Hwf'|]. apply Hmono.
    apply reported_recorded; [exact Hwf|]. now apply Hcov.
Qed.

(** X3. Receiving thoughts keeps the node's own filter complete: every CID
    of the store is reported by the filter the node publishes, so that a
    peer never sends it a thought it holds. *)
Theorem receive_keeps_filter_covering (n n' : WellspringNode) (ths : list thought)
    (received new_count : Z) :
  Bloom.wf (bloom n) ->
  (forall cid, cid ∈ dict_keys (thoughts n) ->
     Bloom.maybe_contains mmh3_hash (bloom n) cid = Some true) ->
  receive_thoughts json_dumps b64decode ed25519_verify mmh3_hash n ths
    = Some (n', received, new_count) ->
  Bloom.wf (bloom n')
  /\ forall cid, cid ∈ dict_keys (thoughts n') ->
       Bloom.maybe_contains mmh3_hash (bloom n') cid = Some true.
Proof.
  intros Hwf Hcov H.
  apply (receive_thoughts_keeps (fun T _ B => covered T B)) with n ths received new_count;
    [|now split|exact H].
  intros m m' th b. apply store_thought_covered.
Qed.

(** ** The store is signed *)

(** [signed T K]: every thought of the store [T] is stored under its own
    CID and passes [_verify_signature] with the keys [K]; a key is known
    only for a CID of the store. *)
Definition signed (T : list (string * thought)) (K : gmap string json) : Prop :=
  (forall cid th, dict_get T cid = Some th ->
     t_cid th = cid
     /\ verify_signature json_dumps b64decode ed25519_verify K th = Some true)
  /\ (forall cid, is_Some (K !! cid) -> dict_mem T cid = true).

Lemma verify_signature_insert (K : gmap string json) (th : thought) (k : string)
    (pk : json) :
  K !! k = None ->
  verify_signature json_dumps b64decode ed25519_verify K th = Some true ->
  verify_signature json_dumps b64decode ed25519_verify (<[k := pk]> K) th = Some true.
Proof.
  unfold verify_signature. intros Hk H.
  destruct ((t_type th =? "identity")%string && (t_created_by th =? "GENESIS")%string);
    [exact H|].
  destruct (decide (k = t_created_by th)) as [->|Hne].
  - rewrite Hk in H. discriminate.
  - rewrite lookup_insert_ne by exact Hne. exact H.
Qed.

Lemma store_thought_signed (n n' : WellspringNode) (th : thought) (b : bool) :
  signed (thoughts n) (pubkeys n) ->
  _store_thought json_dumps b64decode ed25519_verify mmh3_hash n th = Some (b, n') ->
  signed (thoughts n') (pubkeys n').
Proof.
  intros [Hs Hk] H.
  destruct (store_thought_cases _ _ _ _ H)
    as (_ & _ & _ & [(_ & Hnew & Hver & HT & _ & HK & _)|(_ & HT & HK & _)]).
  2:{ rewrite HT, HK. now split. }
  assert (Hnone : pubkeys n !! t_cid th = None).
  { destruct (pubkeys n !! t_cid th) eqn:E; [|reflexivity].
    rewrite Hk in Hnew by eauto. discriminate. }
  assert (Hver' : forall th', verify_signature json_dumps b64decode ed25519_verify
                                (pubkeys n) th' = Some true ->
                              verify_signature json_dumps b64decode ed25519_verify
                                (pubkeys n') th' = Some true).
  { intros th' Hth'. destruct (genesis_identity th).
    - destruct HK as (pk & _ & ->). now apply verify_signature_insert.
    - now rewrite HK. }
  split.
  - intros cid th' Hget. rewrite HT, dict_get_set in Hget.
    destruct (String.eqb_spec (t_cid th) cid) as [<-|Hne].
    + simplify_eq. split; [reflexivity | now apply Hver'].
    + destruct (Hs cid th' Hget) as [Hc Hv]. split; [exact Hc | now apply Hver'].
  - intros cid Hcid. rewrite HT. apply dict_mem_get. rewrite dict_get_set.
    destruct (String.eqb_spec (t_cid th) cid) as [<-|Hne]; [eauto|].
    apply dict_mem_get, Hk. destruct (genesis_identity th).
    + destruct HK as (pk & _ & HK). rewrite HK, lookup_insert_ne in Hcid by exact Hne.
      exact Hcid.
    + now rewrite HK in Hcid.
Qed.

(** X4. Receiving thoughts keeps the store signed: whatever a peer sends,
    every thought the node holds afterwards is held under its own CID and
    verifies against the key the node holds for its creator (the key in
    its own content, for a self-signed identity). *)
Theorem receive_keeps_store_signed (n n' : WellspringNode) (ths : list thought)
    (received new_count : Z) :
  (forall cid th, dict_get (thoughts n) cid = Some th ->
     t_cid th = cid
     /\ verify_signature json_dumps b64decode ed25519_verify (pubkeys n) th = Some true) ->
  (forall cid, is_Some (pubkeys n !! cid) -> dict_mem (thoughts n) cid = true) ->
  receive_thoughts json_dumps b64decode ed25519_verify mmh3_hash n ths
    = Some (n', received, new_count) ->
  (forall cid th, dict_get (thoughts n') cid = Some th ->
     t_cid th = cid
     /\ verify_signature json_dumps b64decode ed25519_verify (pubkeys n') th = Some true)
  /\ (forall cid, is_Some (pubkeys n' !! cid) -> dict_mem (thoughts n') cid = true).
Proof.
  intros Hs Hk H.
  apply (receive_thoughts_keeps (fun T K _ => signed T K)) with n ths received new_count;
    [|now split|exact H].
  intros m m' th b. apply store_thought_signed.
Qed.

(** ** What receiving changes *)

Lemma store_thought_frame (n n' : WellspringNode) (th : thought) (b : bool) :
  _store_thought json_dumps b64decode ed25519_verify mmh3_hash n th = Some (b, n') ->
  (forall cid th', dict_get (thoughts n) cid = Some th' ->
     dict_get (thoughts n') cid = Some th')
  /\ (forall cid th', dict_get (thoughts n') cid = Some th' ->
        dict_get (thoughts n) cid = Some th' \/ (b = true /\ th' = th /\ t_cid th = cid))
  /\ (forall k, dict_mem (thoughts n) k = true -> pubkeys n' !! k = pubkeys n !! k)
  /\ (forall k, pubkeys n' !! k = pubkeys n !! k \/ (b = true /\ t_cid th = k)).
Proof.
  intros H.
  destruct (store_thought_cases _ _ _ _ H)
    as (_ & _ & _ & [(-> & Hnew & _ & HT & _ & HK & _)|(-> & HT & HK & _)]).
  2:{ rewrite HT, HK. repeat split; auto. }
  rewrite HT. repeat split.
  - intros cid th' Hget. rewrite dict_get_set.
    destruct (String.eqb_spec (t_cid th) cid) as [<-|Hne]; [|exact Hget].
    apply dict_get_mem in Hget. congruence.
  - intros cid th'. rewrite dict_get_set.
    destruct (String.eqb_spec (t_cid th) cid) as [<-|Hne]; [|auto].
    intros [= <-]. auto.
  - intros k Hk. destruct (genesis_identity th); [|now rewrite HK].
    destruct HK as (pk & _ & ->). apply lookup_insert_ne. intros <-. congruence.
  - intros k. destruct (genesis_identity th); [|left; now rewrite HK].
    destruct HK as (pk & _ & ->).
    destruct (decide (t_cid th = k)) as [<-|Hne]; [auto|].
    left. now apply lookup_insert_ne.
Qed.

Lemma receive_loop_frame (first : bool) (ths : list thought) :
  forall n c d n' c' d',
  receive_loop json_dumps b64decode ed25519_verify mmh3_hash first ths n c d
    = Some (n', c', d') ->
  (forall cid th, dict_get (thoughts n) cid = Some th ->
     dict_get (thoughts n') cid = Some th)
  /\ (forall cid th, dict_get (thoughts n') cid = Some th ->
        dict_get (thoughts n) cid = Some th \/ (th ∈ ths /\ t_cid th = cid))
  /\ (forall k, dict_mem (thoughts n) k = true -> pubkeys n' !! k = pubkeys n !! k)
  /\ (forall k, pubkeys n' !! k = pubkeys n !! k \/ exists th, th ∈ ths /\ t_cid th = k)
  /\ exists dn,
       d' = d ++ dn /\ 0 <= c' - c
       /\ (c' - c) + Z.of_nat (length dn) <= Z.of_nat (length ths)
       /\ received_count n' = received_count n + (c' - c)
       /\ verified_count n' = verified_count n + (c' - c)
       /\ (forall th, th ∈ dn -> th ∈ ths)
       /\ (first = false -> dn = []).
Proof.
  induction ths as [|th rest IH]; intros n c d n' c' d' H; cbn in H.
  - simplify_eq. split; [auto|]. split; [auto|]. split; [auto|]. split; [auto|].
    exists []. rewrite app_nil_r. repeat split; auto; try lia;
      try (intros th Hth; inversion Hth).
  - destruct (_store_thought _ _ _ _ n th) as [[b n1]|] eqn:Es; cbn in H; [|discriminate].
    destruct (store_thought_frame _ _ _ _ Es) as (F1 & F2 & F3 & F4).
    destruct (store_thought_cases _ _ _ _ Es) as (_ & Hrc & _ & Hcases).
    assert (Hmono : forall k, dict_mem (thoughts n) k = true ->
                              dict_mem (thoughts n1) k = true).
    { intros k Hk. apply dict_mem_get in Hk as [v Hv]. apply dict_mem_get.
      rewrite (F1 _ _ Hv). eauto. }
    destruct b; cbn in H.
    + apply IH in H as (G1 & G2 & G3 & G4 & dn & -> & Hc0 & Hc & Hr & Hv & Hin & Hf).
      cbn [thoughts pubkeys received_count verified_count] in *.
      destruct Hcases as [(_ & _ & _ & _ & _ & _ & Hvc & _)|(? & _)]; [|discriminate].
      split; [auto|]. split.
      { intros cid th' Hget. destruct (G2 _ _ Hget) as [Hg|[Hm Hcid]].
        - destruct (F2 _ _ Hg) as [?|(_ & -> & ?)]; [auto|].
          right. split; [apply list_elem_of_here | assumption].
        - right. split; [now apply list_elem_of_further | exact Hcid]. }
      split; [intros k Hk; rewrite G3 by auto; auto|]. split.
      { intros k. destruct (G4 k) as [->|(th' & Hm & Hcid)].
        - destruct (F4 k) as [?|[_ ?]]; [auto|]. right. exists th.
          split; [apply list_elem_of_here | assumption].
        - right. exists th'. split; [now apply list_elem_of_further | exact Hcid]. }
      exists dn. rewrite length_cons. repeat split; auto; try lia.
      intros th' Hth'. apply list_elem_of_further. auto.
    + destruct Hcases as [(? & _)|(_ & _ & _ & _ & Hvc & _)]; [discriminate|].
      assert (Hgen : forall dd, receive_loop json_dumps b64decode ed25519_verify
                                  mmh3_hash first rest n1 c dd = Some (n', c', d') ->
                 (forall cid th0, dict_get (thoughts n) cid = Some th0 ->
                    dict_get (thoughts n') cid = Some th0)
                 /\ (forall cid th0, dict_get (thoughts n') cid = Some th0 ->
                       dict_get (thoughts n) cid = Some th0
                       \/ (th0 ∈ th :: rest /\ t_cid th0 = cid))
                 /\ (forall k, dict_mem (thoughts n) k = true ->
                       pubkeys n' !! k = pubkeys n !! k)
                 /\ (forall k, pubkeys n' !! k = pubkeys n !! k
                       \/ exists th0, th0 ∈ th :: rest /\ t_cid th0 = k)
                 /\ exists dn, d' = dd ++ dn /\ 0 <= c' - c
                      /\ (c' - c) + Z.of_nat (length dn) <= Z.of_nat (length rest)
                      /\ received_count n' = received_count n + (c' - c)
                      /\ verified_count n' = verified_count n + (c' - c)
                      /\ (forall th0, th0 ∈ dn -> th0 ∈ rest)
                      /\ (first = false -> dn = [])).
      { intros dd Hdd.
        apply IH in Hdd as (G1 & G2 & G3 & G4 & dn & -> & Hc0 & Hc & Hr & Hv & Hin & Hf).
        split; [auto|]. split.
        { intros cid th' Hget. destruct (G2 _ _ Hget) as [Hg|[Hm Hcid]].
          - destruct (F2 _ _ Hg) as [?|(? & _)]; [auto | discriminate].
          - right. split; [now apply list_elem_of_further | exact Hcid]. }
        split; [intros k Hk; rewrite G3 by auto; auto|]. split.
        { intros k. destruct (G4 k) as [->|(th' & Hm & Hcid)].
          - destruct (F4 k) as [?|[? _]]; [auto | discriminate].
          - right. exists th'. split; [now apply list_elem_of_further | exact Hcid]. }
        exists dn. repeat split; auto; lia. }
      destruct (first && negb (dict_mem (thoughts n1) (t_cid th))) eqn:Ed.
      * apply Hgen in H as (G1 & G2 & G3 & G4 & dn & -> & Hc0 & Hc & Hr & Hv & Hin & Hf).
        repeat (split; [assumption|]).
        exists (th :: dn). rewrite <- app_assoc. cbn [app]. rewrite !length_cons.
        repeat split; auto; try lia.
        -- intros th' Hth'. apply elem_of_cons in Hth' as [->|Hth'];
             [apply list_elem_of_here | apply list_elem_of_further; auto].
        -- intros ->. discriminate.
      * apply Hgen in H as (G1 & G2 & G3 & G4 & dn & -> & Hc0 & Hc & Hr & Hv & Hin & Hf).
        repeat (split; [assumption|]).
        exists dn. rewrite length_cons. repeat split; auto; try lia.
        intros th' Hth'. apply list_elem_of_further. auto.
Qed.

(** X5. Receiving only adds to the store, and only what was sent: a thought
    the node held is held unchanged, a thought it holds afterwards was held
    before or is a thought of the batch under its own CID, and the counts
    returned are the size of the batch and the number of thoughts stored,
    at most the size of the batch. *)
Theorem receive_only_adds (n n' : WellspringNode) (ths : list thought)
    (received new_count : Z) :
  receive_thoughts json_dumps b64decode ed25519_verify mmh3_hash n ths
    = Some (n', received, new_count) ->
  (forall cid th, dict_get (thoughts n) cid = Some th ->
     dict_get (thoughts n') cid = Some th)
  /\ (forall cid th, dict_get (thoughts n') cid = Some th ->
        dict_get (thoughts n) cid = Some th \/ (th ∈ ths /\ t_cid th = cid))
  /\ received = Z.of_nat (length ths)
  /\ 0 <= new_count <= Z.of_nat (length ths)
  /\ received_count n' = received_count n + new_count
  /\ verified_count n' = verified_count n + new_count.
Proof.
  unfold receive_thoughts. intros H.
  destruct (receive_loop _ _ _ _ true _ n 0 []) as [[[n1 c1] d1]|] eqn:E1; cbn in H;
    [|discriminate].
  destruct (receive_loop _ _ _ _ false _ n1 c1 []) as [[[n2 c2] d2]|] eqn:E2; cbn in H;
    [|discriminate].
  simplify_eq.
  apply receive_loop_frame in E1
    as (F1 & F2 & _ & _ & dn1 & Hd1 & Hc0 & Hc & Hr & Hv & Hin & _).
  apply receive_loop_frame in E2
    as (G1 & G2 & _ & _ & dn2 & _ & Hc0' & Hc' & Hr' & Hv' & _ & _).
  cbn [app] in Hd1. subst d1.
  pose proof (Permutation_length (sorted_perm key_le ths)) as Hlen.
  fold (sorted_thoughts ths) in Hlen.
  assert (Hsub : forall th, th ∈ sorted_thoughts ths -> th ∈ ths).
  { intros th. unfold sorted_thoughts. now rewrite (sorted_perm key_le ths). }
  split; [auto|]. split.
  { intros cid th Hget. destruct (G2 _ _ Hget) as [Hg|[Hm Hcid]].
    - destruct (F2 _ _ Hg) as [?|[Hm Hcid]]; auto.
    - right. split; [|exact Hcid]. auto. }
  split; [reflexivity|]. split; [lia|]. split; lia.
Qed.

(** ** An identity and what it signed, in one batch *)

Lemma receive_loop_app (first : bool) (l l' : list thought) :
  forall n c d,
  receive_loop json_dumps b64decode ed25519_verify mmh3_hash first (l ++ l') n c d
  = p ← receive_loop json_dumps b64decode ed25519_verify mmh3_hash first l n c d;
    receive_loop json_dumps b64decode ed25519_verify mmh3_hash first l' p.1.1 p.1.2 p.2.
Proof.
  induction l as [|th rest IH]; intros n c d; cbn; [reflexivity|].
  destruct (_store_thought _ _ _ _ n th) as [[b n1]|]; cbn; [|reflexivity].
  destruct b; cbn; [apply IH|].
  destruct (first && negb (dict_mem (thoughts n1) (t_cid th))); apply IH.
Qed.

(** A loop over thoughts none of which has the CID [k] leaves the store and
    the keys at [k] alone. *)
Lemma receive_loop_other (first : bool) (ths : list thought) (k : string)
    (n n' : WellspringNode) (c c' : Z) (d d' : list thought) :
  (forall th, th ∈ ths -> t_cid th <> k) ->
  receive_loop json_dumps b64decode ed25519_verify mmh3_hash first ths n c d
    = Some (n', c', d') ->
  dict_get (thoughts n') k = dict_get (thoughts n) k
  /\ pubkeys n' !! k = pubkeys n !! k.
Proof.
  intros Hk H. apply receive_loop_frame in H as (F1 & F2 & _ & F4 & _). split.
  - destruct (dict_get (thoughts n) k) as [v|] eqn:E; [now apply F1|].
    destruct (dict_get (thoughts n') k) as [v'|] eqn:E'; [|reflexivity].
    destruct (F2 _ _ E') as [?|[Hm Hc]]; [congruence|]. now apply Hk in Hm.
  - destruct (F4 k) as [?|(th & Hm & Hc)]; [assumption|]. now apply Hk in Hm.
Qed.

(** A thought that is new to the store and verifies is stored. *)
Lemma store_thought_new (n : WellspringNode) (th : thought) :
  dict_get (thoughts n) (t_cid th) = None ->
  verify_signature json_dumps b64decode ed25519_verify (pubkeys n) th = Some true ->
  forall b n',
  _store_thought json_dumps b64decode ed25519_verify mmh3_hash n th = Some (b, n') ->
  b = true /\ dict_get (thoughts n') (t_cid th) = Some th.
Proof.
  intros Hnew Hver b n' H.
  destruct (store_thought_cases _ _ _ _ H)
    as (_ & _ & _ & [(-> & _ & _ & HT & _)|(_ & _ & _ & _ & _ & [[Hm _]|(_ & Hv & _)])]).
  - split; [reflexivity|]. rewrite HT. apply Thoughts.dict_get_set_eq.
  - apply dict_mem_get in Hm as [v Hv]. congruence.
  - congruence.
Qed.

(** X6. A batch that holds a self-signed identity and a thought that identity
    signed delivers both, in whatever order the batch lists them: the
    receiver takes the identity first, learns its key, and verifies the
    thought against it. *)
Theorem identity_and_dependent_stored (n n' : WellspringNode) (ths : list thought)
    (received new_count : Z) (identity th : thought) (pk : json) :
  receive_thoughts json_dumps b64decode ed25519_verify mmh3_hash n ths
    = Some (n', received, new_count) ->
  NoDup (t_cid <$> ths) ->
  identity ∈ ths -> th ∈ ths ->
  t_type identity = "identity"%string -> t_created_by identity = "GENESIS"%string ->
  dict_get (t_content identity) "pubkey" = Some pk ->
  check_signature json_dumps b64decode ed25519_verify pk identity = true ->
  t_type th <> "identity"%string -> t_created_by th = t_cid identity ->
  check_signature json_dumps b64decode ed25519_verify pk th = true ->
  dict_get (thoughts n) (t_cid identity) = None ->
  pubkeys n !! t_cid identity = None ->
  dict_get (thoughts n) (t_cid th) = None ->
  dict_get (thoughts n') (t_cid identity) = Some identity
  /\ dict_get (thoughts n') (t_cid th) = Some th
  /\ pubkeys n' !! t_cid identity = Some pk.
Proof.
  intros H Hnd Hi Ht Hty Hgen Hpk Hsi Htt Hcb Hst Hni Hki Hnt.
  assert (Hkey : key_le th identity = false).
  { unfold key_le, sort_key. cbn [fst snd].
    apply String.eqb_eq in Hty. apply String.eqb_neq in Htt. now rewrite Hty, Htt. }
  destruct (sorted_before key_le Sync.key_le_total Sync.key_le_trans ths identity th
              Hi Ht Hkey) as (l1 & l2 & l3 & Hsorted).
  fold (sorted_thoughts ths) in Hsorted.
  assert (Hnd' : NoDup (t_cid <$> sorted_thoughts ths)).
  { unfold sorted_thoughts. now rewrite (sorted_perm key_le ths). }
  rewrite Hsorted in Hnd'. rewrite !fmap_app, !fmap_cons, !fmap_app, !fmap_cons in Hnd'.
  apply NoDup_app in Hnd' as (_ & Hl1 & Hnd').
  apply NoDup_cons in Hnd' as (Hi2 & Hnd').
  apply NoDup_app in Hnd' as (_ & Hl2 & Hnd').
  apply NoDup_cons in Hnd' as (Ht3 & _).
  assert (Hl1i : forall x, x ∈ l1 -> t_cid x <> t_cid identity).
  { intros x Hx Heq. apply (Hl1 (t_cid x)); [now apply list_elem_of_fmap_2|].
    rewrite Heq. apply list_elem_of_here. }
  assert (Hl1t : forall x, x ∈ l1 -> t_cid x <> t_cid th).
  { intros x Hx Heq. apply (Hl1 (t_cid x)); [now apply list_elem_of_fmap_2|].
    rewrite Heq. apply list_elem_of_further. rewrite elem_of_app. right.
    apply list_elem_of_here. }
  assert (Hit : t_cid identity <> t_cid th).
  { intros Heq. apply Hi2. rewrite Heq, elem_of_app. right. apply list_elem_of_here. }
  assert (Hl2i : forall x, x ∈ l2 -> t_cid x <> t_cid identity).
  { intros x Hx Heq. apply Hi2. rewrite <- Heq, elem_of_app. left.
    now apply list_elem_of_fmap_2. }
  assert (Hl2t : forall x, x ∈ l2 -> t_cid x <> t_cid th).
  { intros x Hx Heq. apply (Hl2 (t_cid x)); [now apply list_elem_of_fmap_2|].
    rewrite Heq. apply list_elem_of_here. }
  unfold receive_thoughts in H. rewrite Hsorted in H.
  destruct (receive_loop _ _ _ _ true _ n 0 []) as [[[n4 c4] d4]|] eqn:E; cbn in H;
    [|discriminate].
  destruct (receive_loop _ _ _ _ false d4 n4 c4 []) as [[[n5 c5] d5]|] eqn:E5; cbn in H;
    [|discriminate].
  simplify_eq.
  rewrite receive_loop_app in E.
  destruct (receive_loop _ _ _ _ true l1 n 0 []) as [[[n1 c1] d1]|] eqn:E1; cbn in E;
    [|discriminate].
  destruct (receive_loop_other _ _ _ _ _ _ _ _ _ Hl1i E1) as [Ti1 Ki1].
  destruct (receive_loop_other _ _ _ _ _ _ _ _ _ Hl1t E1) as [Tt1 _].
  destruct (_store_thought _ _ _ _ n1 identity) as [[b n2]|] eqn:Es; cbn in E;
    [|discriminate].
  assert (Hvi : verify_signature json_dumps b64decode ed25519_verify (pubkeys n1)
                  identity = Some true).
  { unfold verify_signature. apply String.eqb_eq in Hty, Hgen.
    rewrite Hty, Hgen. cbn. rewrite Hpk. cbn. now rewrite Hsi. }
  destruct (store_thought_new n1 identity ltac:(congruence) Hvi _ _ Es) as [-> Ti2].
  destruct (store_thought_cases _ _ _ _ Es)
    as (_ & _ & _ & [(_ & _ & _ & HT2 & _ & HK2 & _)|(? & _)]); [|discriminate].
  unfold genesis_identity in HK2. apply String.eqb_eq in Hty, Hgen.
  rewrite Hty, Hgen in HK2. cbn in HK2. destruct HK2 as (pk' & Hpk' & HK2).
  assert (pk' = pk) by congruence. subst pk'.
  cbn in E.
  set (n2' := mkNode (self_cid n2) (thoughts n2) (pubkeys n2) (bloom n2)
                (received_count n2 + 1) (sent_count n2) (verified_count n2)
                (rejected_count n2)) in *.
  rewrite receive_loop_app in E.
  destruct (receive_loop _ _ _ _ true l2 n2' _ d1) as [[[n3 c3] d3]|] eqn:E2;
    cbn in E; [|discriminate].
  destruct (receive_loop_other _ _ _ _ _ _ _ _ _ Hl2i E2) as [Ti3 Ki3].
  destruct (receive_loop_other _ _ _ _ _ _ _ _ _ Hl2t E2) as [Tt3 _].
  cbn [thoughts pubkeys n2'] in Ti3, Ki3, Tt3.
  destruct (_store_thought _ _ _ _ n3 th) as [[b n3']|] eqn:Es3; cbn in E;
    [|discriminate].
  assert (Hnt3 : dict_get (thoughts n3) (t_cid th) = None).
  { rewrite Tt3, HT2, dict_get_set_ne by exact Hit. congruence. }
  assert (Hvt : verify_signature json_dumps b64decode ed25519_verify (pubkeys n3) th
                = Some true).
  { unfold verify_signature. apply String.eqb_neq in Htt. rewrite Htt. cbn.
    rewrite Hcb, Ki3, HK2, lookup_insert_eq. now rewrite Hst. }
  destruct (store_thought_new n3 th Hnt3 Hvt _ _ Es3) as [-> Tt4].
  destruct (store_thought_frame _ _ _ _ Es3) as (F1 & _ & F3 & _).
  assert (Ti4 : dict_get (thoughts n3') (t_cid identity) = Some identity).
  { apply F1. now rewrite Ti3. }
  assert (Ki4 : pubkeys n3' !! t_cid identity = Some pk).
  { rewrite F3; [now rewrite Ki3, HK2, lookup_insert_eq|].
    apply dict_mem_get. rewrite Ti3. eauto. }
  cbn in E.
  apply receive_loop_frame in E as (G1 & _ & G3 & _).
  apply receive_loop_frame in E5 as (G1' & _ & G3' & _).
  cbn [thoughts pubkeys] in G1, G3.
  split; [auto|]. split; [auto|].
  rewrite G3', G3; [exact Ki4| |].
  - apply dict_mem_get. rewrite Ti4. eauto.
  - apply dict_mem_get. rewrite (G1 _ _ Ti4). eauto.
Qed.

End Store.

(** ** A batch to run the receiver on

    Carol's self-signed identity and a note she signed, with the stand-in
    libraries of [Toy]; the note comes first in the batch. *)
Definition carol_key : list Z := [202; 254].

Definition unsigned : thought := mkThought "" "" [] "" [] "" "" None.

Definition carol_identity : thought :=
  default unsigned
    (to_dict
       (Signed.sign Toy.dumps Toy.digest_rev bytes_hex Toy.sign
          (Signed.new "identity"
             [("name"%string, JStr "Carol"); ("pubkey"%string, JStr "cafe")]
             "GENESIS" [] None "2026-02-01T00:00:00")
          carol_key)).

Definition carol_note : thought :=
  default unsigned
    (to_dict
       (Signed.sign Toy.dumps Toy.digest_rev bytes_hex Toy.sign
          (Signed.new "note" [("text"%string, JStr "hello")]
             (t_cid carol_identity) [] None "2026-01-15T00:00:00")
          carol_key)).

Definition carol_batch : list thought := [carol_note; carol_identity].

Definition blank_node : WellspringNode :=
  mkNode "baf_bob_identity" [] ∅
    (Bloom.init Bloom.default_size Bloom.default_hash_count) 0 0 0 0.

Definition receive_toy (n : WellspringNode) (ths : list thought)
  : option (WellspringNode * Z * Z) :=
  receive_thoughts Toy.dumps bytes_fromhex Toy.verify Sync.toy_hash n ths.

Lemma receive_toy_carol :
  (fun r => (dict_keys (thoughts r.1.1), r.1.2, r.2)) <$> receive_toy blank_node carol_batch
  = Some ([t_cid carol_identity; t_cid carol_note], 2, 2).
Proof. vm_compute. reflexivity. Qed.

Lemma receive_keeps_filter_covering_witness :
  match receive_toy blank_node carol_batch with
  | Some (n', _, _) =>
      Bloom.wf (bloom n')
      /\ forall cid, cid ∈ dict_keys (thoughts n') ->
           Bloom.maybe_contains Sync.toy_hash (bloom n') cid = Some true
  | None => False
  end.
Proof.
  destruct (receive_toy blank_node carol_batch) as [[[n' r] c]|] eqn:E.
  - apply (receive_keeps_filter_covering Toy.dumps bytes_fromhex Toy.verify
             Sync.toy_hash blank_node n' carol_batch r c).
    + apply Bloom.init_wf. reflexivity.
    + intros cid Hcid. inversion Hcid.
    + exact E.
  - vm_compute in E. discriminate.
Defined.

Lemma receive_keeps_store_signed_witness :
  match receive_toy blank_node carol_batch with
  | Some (n', _, _) =>
      (forall cid th, dict_get (thoughts n') cid = Some th ->
         t_cid th = cid
         /\ verify_signature Toy.dumps bytes_fromhex Toy.verify (pubkeys n') th
            = Some true)
      /\ (forall cid, is_Some (pubkeys n' !! cid) -> dict_mem (thoughts n') cid = true)
  | None => False
  end.
Proof.
  destruct (receive_toy blank_node carol_batch) as [[[n' r] c]|] eqn:E.
  - apply (receive_keeps_store_signed Toy.dumps bytes_fromhex Toy.verify
             Sync.toy_hash blank_node n' carol_batch r c).
    + intros cid th Hget. discriminate.
    + intros cid [v Hv]. cbn in Hv. rewrite lookup_empty in Hv. discriminate.
    + exact E.
  - vm_compute in E. discriminate.
Defined.

Lemma receive_only_adds_witness :
  match receive_toy blank_node carol_batch with
  | Some (n', received, new_count) =>
      (forall cid th, dict_get (thoughts blank_node) cid = Some th ->
         dict_get (thoughts n') cid = Some th)
      /\ (forall cid th, dict_get (thoughts n') cid = Some th ->
            dict_get (thoughts blank_node) cid = Some th
            \/ (th ∈ carol_batch /\ t_cid th = cid))
      /\ received = Z.of_nat (length carol_batch)
      /\ 0 <= new_count <= Z.of_nat (length carol_batch)
      /\ received_count n' = received_count blank_node + new_count
      /\ verified_count n' = verified_count blank_node + new_count
  | None => False
  end.
Proof.
  destruct (receive_toy blank_node carol_batch) as [[[n' r] c]|] eqn:E.
  - exact (receive_only_adds Toy.dumps bytes_fromhex Toy.verify Sync.toy_hash
             blank_node n' carol_batch r c E).
  - vm_compute in E. discriminate.
Defined.

Lemma identity_and_dependent_stored_witness :
  match receive_toy blank_node carol_batch with
  | Some (n', _, _) =>
      dict_get (thoughts n') (t_cid carol_identity) = Some carol_identity
      /\ dict_get (thoughts n') (t_cid carol_note) = Some carol_note
      /\ pubkeys n' !! t_cid carol_identity = Some (JStr "cafe")
  | None => False
  end.
Proof.
  destruct (receive_toy blank_node carol_batch) as [[[n' r] c]|] eqn:E.
  - apply (identity_and_dependent_stored Toy.dumps bytes_fromhex Toy.verify
             Sync.toy_hash blank_node n' carol_batch r c carol_identity carol_note
             (JStr "cafe") E).
    + apply (bool_decide_unpack _). vm_compute. reflexivity.
    + apply list_elem_of_further, list_elem_of_here.
    + apply list_elem_of_here.
    + reflexivity.
    + reflexivity.
    + reflexivity.
    + vm_compute. reflexivity.
    + discriminate.
    + reflexivity.
    + vm_compute. reflexivity.
    + reflexivity.
    + reflexivity.
    + reflexivity.
  - vm_compute in E. discriminate.
Defined.

End NodeStore.

(* ===================================================================== *)
(** * Creating a node and its thoughts *)
(* ===================================================================== *)

Module NodeCreate.
Import Py Signed Node.

Lemma sign_data_truthy (ty : string) (c : list (string * json)) (cb : string)
    (bc : list string) (at_ : string) (v : option string) :
  sign_data ty c cb bc at_ (if truthy v then v else None) = sign_data ty c cb bc at_ v.
Proof. unfold sign_data. destruct v as [[|a s]|]; reflexivity. Qed.

Section Create.

Variable json_dumps : json -> string.
Variable sha256_hexdigest : string -> string.
Variable b64encode : list Z -> string.
Variable b64decode : string -> option (list Z).
Variable ed25519_sign : list Z -> string -> list Z.
Variable ed25519_verify : list Z -> list Z -> string -> bool.
Variable mmh3_hash : string -> Z -> Z.
(** [private_key.public_key()], as its raw bytes. *)
Variable public_key : list Z -> list Z.

(** [pubkey_to_hex] *)
Definition pubkey_to_hex (pubkey : list Z) : string := bytes_hex pubkey.

(** [WellspringNode.__init__], given the key it generates and the time. *)
Definition new_node (name : string) (port : Z) (private_key : list Z) (now : string)
  : option WellspringNode :=
  let pubkey_hex := pubkey_to_hex (public_key private_key) in
  let identity_thought :=
    sign json_dumps sha256_hexdigest b64encode ed25519_sign
      (new "identity"
         [("name"%string, JStr name); ("pubkey"%string, JStr pubkey_hex);
          ("endpoint"%string, JStr ("http://localhost:" ++ pretty port))]
         "GENESIS" [] None now)
      private_key in
  cid ← Signed.cid identity_thought;
  d ← to_dict identity_thought;
  bloom ← Bloom.add mmh3_hash
             (Bloom.init Bloom.default_size Bloom.default_hash_count) cid;
  Some (mkNode cid [(cid, d)] {[cid := JStr pubkey_hex]} bloom 0 0 0 0).

(** [create_thought]: the thought and the node afterwards. *)
Definition create_thought (n : WellspringNode) (private_key : list Z) (type : string)
    (content : list (string * json)) (because : option (list string)) (now : string)
  : option (SignedThought * WellspringNode) :=
  let thought :=
    sign json_dumps sha256_hexdigest b64encode ed25519_sign
      (new type content (self_cid n) (default [] because) None now) private_key in
  d ← to_dict thought;
  r ← _store_thought json_dumps b64decode ed25519_verify mmh3_hash n d;
  Some (thought, r.2).

(** The libraries do their part for the key [sk]: a signature made with it
    verifies under its public key, base64 decodes what it encoded, and the
    public key is a string of bytes. *)
Variable sk : list Z.
Hypothesis verify_sign : forall msg,
  ed25519_verify (public_key sk) (ed25519_sign sk msg) msg = true.
Hypothesis b64_round_trip : forall msg,
  b64decode (b64encode (ed25519_sign sk msg)) = Some (ed25519_sign sk msg).
Hypothesis public_key_bytes : Forall (fun b => 0 <= b < 256) (public_key sk).

Lemma compute_cid_prefix (data : list (string * json)) :
  String.prefix "baf_" (compute_cid json_dumps sha256_hexdigest data) = true.
Proof.
  unfold compute_cid.
  change ("baf_" +:+ ?x) with (String "b" (String "a" (String "f" (String "_" x)))).
  cbn. now destruct (str_take 32 _).
Qed.

(** What [sk] signs verifies under its public key in hexadecimal. *)
Lemma signed_checks (ty : string) (c : list (string * json)) (cb : string)
    (bc : list string) (v : option string) (now : string) :
  exists d,
    to_dict (sign json_dumps sha256_hexdigest b64encode ed25519_sign
               (new ty c cb bc v now) sk) = Some d
    /\ Signed.cid (sign json_dumps sha256_hexdigest b64encode ed25519_sign
                     (new ty c cb bc v now) sk) = Some (t_cid d)
    /\ t_type d = ty /\ t_created_by d = cb /\ t_content d = c
    /\ String.prefix "baf_" (t_cid d) = true
    /\ check_signature json_dumps b64decode ed25519_verify
         (JStr (pubkey_to_hex (public_key sk))) d = true.
Proof.
  eexists. split; [reflexivity|]. cbn [t_type t_created_by t_content t_cid].
  split; [reflexivity|].
  split; [reflexivity|]. split; [reflexivity|]. split; [reflexivity|].
  split; [apply compute_cid_prefix|].
  unfold check_signature, pubkey_to_hex. cbv beta iota.
  rewrite bytes_fromhex_hex by exact public_key_bytes.
  cbn [t_type t_content t_created_by t_because t_created_at t_visibility t_signature].
  rewrite sign_data_truthy, b64_round_trip. apply verify_sign.
Qed.

(** The node knows its own key, its CID is no ["GENESIS"], and its filter
    has its bits. *)
Definition owns (n : WellspringNode) : Prop :=
  pubkeys n !! self_cid n = Some (JStr (pubkey_to_hex (public_key sk)))
  /\ self_cid n <> "GENESIS"%string
  /\ Bloom.wf (bloom n).

(** X8. A new node holds its own identity, self-signed and verified by its own
    check, knows its own key, and publishes a filter that reports its
    identity. *)
Theorem new_node_holds_its_identity (name : string) (port : Z) (now : string) :
  exists n d,
    new_node name port sk now = Some n
    /\ thoughts n = [(self_cid n, d)]
    /\ t_cid d = self_cid n
    /\ t_type d = "identity"%string /\ t_created_by d = "GENESIS"%string
    /\ _verify_signature json_dumps b64decode ed25519_verify n d = Some true
    /\ pubkeys n = {[self_cid n := JStr (pubkey_to_hex (public_key sk))]}
    /\ self_cid n <> "GENESIS"%string
    /\ Bloom.wf (bloom n)
    /\ Bloom.maybe_contains mmh3_hash (bloom n) (self_cid n) = Some true.
Proof.
  unfold new_node. cbv zeta.
  destruct (signed_checks "identity"
              [("name"%string, JStr name);
               ("pubkey"%string, JStr (pubkey_to_hex (public_key sk)));
               ("endpoint"%string, JStr ("http://localhost:" ++ pretty port))]
              "GENESIS" [] None now) as (d & Hd & Hcid & Hty & Hcb & Hco & Hpre & Hchk).
  rewrite Hcid, Hd. cbn [mbind option_bind].
  destruct (Bloom.add_spec mmh3_hash
              (Bloom.init Bloom.default_size Bloom.default_hash_count) (t_cid d)
              (Bloom.init_wf Bloom.default_size Bloom.default_hash_count eq_refl))
    as (f & Hadd & Hwf & _ & _ & Hrec & _).
  rewrite Hadd. cbn [mbind option_bind].
  eexists _, d. split; [reflexivity|]. cbn [thoughts self_cid pubkeys bloom].
  split; [reflexivity|]. split; [reflexivity|]. split; [exact Hty|].
  split; [exact Hcb|]. split.
  { unfold _verify_signature, verify_signature. cbn [pubkeys].
    rewrite Hty, Hcb, Hco.
    change (dict_get _ "pubkey") with (Some (JStr (pubkey_to_hex (public_key sk)))).
    cbn [String.eqb Ascii.eqb Bool.eqb andb mbind option_bind].
    now rewrite Hchk. }
  split; [reflexivity|]. split.
  { intros Heq. rewrite Heq in Hpre. discriminate. }
  split; [exact Hwf|]. now apply Bloom.recorded_maybe_contains.
Qed.

(** X9. A node that knows its own key stores what it creates: the thought it
    signs passes its own signature check and is in the store afterwards,
    newly stored unless its CID was there already. *)
Theorem create_thought_stored (n : WellspringNode) (type : string)
    (content : list (string * json)) (because : option (list string)) (now : string) :
  pubkeys n !! self_cid n = Some (JStr (pubkey_to_hex (public_key sk))) ->
  self_cid n <> "GENESIS"%string ->
  Bloom.wf (bloom n) ->
  exists t d n',
    create_thought n sk type content because now = Some (t, n')
    /\ to_dict t = Some d
    /\ _verify_signature json_dumps b64decode ed25519_verify n d = Some true
    /\ dict_mem (thoughts n') (t_cid d) = true
    /\ (dict_mem (thoughts n) (t_cid d) = false ->
        dict_get (thoughts n') (t_cid d) = Some d
        /\ verified_count n' = verified_count n + 1)
    /\ pubkeys n' !! self_cid n' = Some (JStr (pubkey_to_hex (public_key sk)))
    /\ self_cid n' = self_cid n
    /\ Bloom.wf (bloom n').
Proof.
  intros Hkey Hgen Hwf. unfold create_thought.
  destruct (signed_checks type content (self_cid n) (default [] because) None now)
    as (d & Hd & _ & Hty & Hcb & Hco & Hpre & Hchk).
  rewrite Hd. cbn [mbind option_bind].
  assert (Hver : _verify_signature json_dumps b64decode ed25519_verify n d = Some true).
  { unfold _verify_signature, verify_signature. rewrite Hcb.
    apply String.eqb_neq in Hgen. rewrite Hgen, andb_false_r, Hkey. now rewrite Hchk. }
  assert (Hng : NodeStore.genesis_identity d = false).
  { unfold NodeStore.genesis_identity. rewrite Hcb. apply String.eqb_neq in Hgen.
    now rewrite Hgen, andb_false_r. }
  destruct (_store_thought json_dumps b64decode ed25519_verify mmh3_hash n d)
    as [[b n']|] eqn:Es.
  2:{ exfalso. unfold _store_thought in Es.
      destruct (dict_mem (thoughts n) (t_cid d)); [discriminate|].
      rewrite Hver in Es. cbn in Es.
      destruct (Bloom.add_spec mmh3_hash (bloom n) (t_cid d) Hwf) as (f & Hadd & _).
      rewrite Hadd in Es. cbn in Es. unfold NodeStore.genesis_identity in Hng.
      rewrite Hng in Es. discriminate. }
  cbn [mbind option_bind snd]. eexists _, d, n'. split; [reflexivity|].
  split; [exact Hd|].
  split; [exact Hver|].
  destruct (NodeStore.store_thought_cases _ _ _ _ _ _ _ _ Es)
    as (Hself & _ & _ & [(_ & Hnew & _ & HT & HB & HK & Hvc & _)
                        |(_ & HT & HK & HB & _ & [[Hm _]|(_ & Hv & _)])]).
  - rewrite Hng in HK. rewrite HT, HK, Hself. split.
    { apply NodeStore.dict_mem_get. rewrite Thoughts.dict_get_set_eq. eauto. }
    split; [intros _; split; [apply Thoughts.dict_get_set_eq | exact Hvc]|].
    split; [exact Hkey|]. split; [reflexivity|].
    destruct (Bloom.add_spec mmh3_hash (bloom n) (t_cid d) Hwf) as (f & Hadd & Hwf' & _).
    rewrite HB in Hadd. now simplify_eq.
  - rewrite HT, HK, HB, Hself. split; [exact Hm|].
    split; [intros Hf; congruence|]. auto.
  - unfold _verify_signature in Hver. congruence.
Qed.

End Create.

(** ** The stand-in libraries do their part *)

Lemma str_bytes_range (s : string) :
  Forall (fun b => 0 <= b < 256) (Toy.str_bytes s).
Proof.
  unfold Toy.str_bytes. apply Forall_fmap, Forall_forall. intros c _. cbn.
  pose proof (nat_ascii_bounded c). lia.
Qed.

Lemma toy_verify_sign (key : list Z) (msg : string) :
  Toy.verify key (Toy.sign key msg) msg = true.
Proof. unfold Toy.verify, Toy.sign. now apply bool_decide_eq_true_2. Qed.

Lemma toy_round_trip (key : list Z) (msg : string) :
  Forall (fun b => 0 <= b < 256) key ->
  bytes_fromhex (bytes_hex (Toy.sign key msg)) = Some (Toy.sign key msg).
Proof.
  intros Hkey. apply bytes_fromhex_hex, Forall_app. split; [exact Hkey|].
  apply str_bytes_range.
Qed.

Lemma carol_key_bytes : Forall (fun b => 0 <= b < 256) NodeStore.carol_key.
Proof. repeat constructor; lia. Qed.

Lemma new_node_holds_its_identity_witness :
  exists n d,
    new_node Toy.dumps Toy.digest_rev bytes_hex Toy.sign Sync.toy_hash id
      "Carol" 8001 NodeStore.carol_key "2026-02-01T00:00:00" = Some n
    /\ thoughts n = [(self_cid n, d)]
    /\ t_cid d = self_cid n
    /\ t_type d = "identity"%string /\ t_created_by d = "GENESIS"%string
    /\ _verify_signature Toy.dumps bytes_fromhex Toy.verify n d = Some true
    /\ pubkeys n = {[self_cid n := JStr (pubkey_to_hex NodeStore.carol_key)]}
    /\ self_cid n <> "GENESIS"%string
    /\ Bloom.wf (bloom n)
    /\ Bloom.maybe_contains Sync.toy_hash (bloom n) (self_cid n) = Some true.
Proof.
  apply (new_node_holds_its_identity Toy.dumps Toy.digest_rev bytes_hex bytes_fromhex
           Toy.sign Toy.verify Sync.toy_hash id NodeStore.carol_key).
  - apply toy_verify_sign.
  - intros msg. apply toy_round_trip, carol_key_bytes.
  - exact carol_key_bytes.
Defined.

(** Carol's node, as [new_node] makes it. *)
Definition carol_node : WellspringNode :=
  default NodeStore.blank_node
    (new_node Toy.dumps Toy.digest_rev bytes_hex Toy.sign Sync.toy_hash id
       "Carol" 8001 NodeStore.carol_key "2026-02-01T00:00:00").

Lemma carol_node_wf : Bloom.wf (bloom carol_node).
Proof. split; vm_compute; reflexivity. Qed.

Lemma create_thought_stored_witness :
  exists t d n',
    create_thought Toy.dumps Toy.digest_rev bytes_hex bytes_fromhex Toy.sign Toy.verify
      Sync.toy_hash carol_node NodeStore.carol_key "note"
      [("text"%string, JStr "hello")] None "2026-02-02T00:00:00" = Some (t, n')
    /\ to_dict t = Some d
    /\ _verify_signature Toy.dumps bytes_fromhex Toy.verify carol_node d = Some true
    /\ dict_mem (thoughts n') (t_cid d) = true
    /\ (dict_mem (thoughts carol_node) (t_cid d) = false ->
        dict_get (thoughts n') (t_cid d) = Some d
        /\ verified_count n' = verified_count carol_node + 1)
    /\ pubkeys n' !! self_cid n' = Some (JStr (pubkey_to_hex NodeStore.carol_key))
    /\ self_cid n' = self_cid carol_node
    /\ Bloom.wf (bloom n').
Proof.
  apply (create_thought_stored Toy.dumps Toy.digest_rev bytes_hex bytes_fromhex
           Toy.sign Toy.verify Sync.toy_hash id NodeStore.carol_key).
  - apply toy_verify_sign.
  - intros msg. apply toy_round_trip, carol_key_bytes.
  - exact carol_key_bytes.
  - vm_compute. reflexivity.
  - apply (bool_decide_unpack _). vm_compute. reflexivity.
  - exact carol_node_wf.
Defined.

End NodeCreate.

(* ===================================================================== *)
(** * One round of sync between two nodes *)
(* ===================================================================== *)

Module NodeSync.
Import Py Signed Node.

Section Round.

Variable json_dumps : json -> string.
Variable b64decode : string -> option (list Z).
Variable ed25519_verify : list Z -> list Z -> string -> bool.
Variable mmh3_hash : string -> Z -> Z.

(** ** What is selected for a peer *)

Lemma maybe_contains_total (f : Bloom.BloomFilter) (item : string) :
  Bloom.wf f -> is_Some (Bloom.maybe_contains mmh3_hash f item).
Proof.
  intros Hwf. unfold Bloom.maybe_contains.
  destruct (BloomBits.maybe_contains_from_bits mmh3_hash f item
              (range (Bloom.hash_count f)) Hwf) as (b & Hb & _).
  rewrite Hb. eauto.
Qed.

Lemma set_add_NoDup (s : list string) (x : string) : NoDup s -> NoDup (set_add s x).
Proof.
  intros Hs. unfold set_add. destruct (set_mem s x) eqn:E; [exact Hs|].
  apply NoDup_app. split; [exact Hs|]. split; [|apply NoDup_singleton].
  intros y Hy Hx. apply list_elem_of_singleton in Hx. subst y.
  apply set_mem_true in Hy. congruence.
Qed.

Lemma missing_pass_total (peer_bloom : Bloom.BloomFilter) (cids : list string) :
  Bloom.wf peer_bloom ->
  forall acc, NoDup acc ->
  exists m, missing_pass mmh3_hash peer_bloom cids acc = Some m /\ NoDup m.
Proof.
  intros Hwf. induction cids as [|cid rest IH]; intros acc Hacc; cbn.
  - eauto.
  - destruct (maybe_contains_total peer_bloom cid Hwf) as [b ->]. cbn.
    destruct b; apply IH; [exact Hacc | now apply set_add_NoDup].
Qed.

Lemma identity_pass_total (store : list (string * thought))
    (peer_bloom : Bloom.BloomFilter) (cids : list string) :
  Bloom.wf peer_bloom ->
  (forall c, c ∈ cids -> c ∈ dict_keys store) ->
  forall acc, is_Some (identity_pass mmh3_hash store peer_bloom cids acc).
Proof.
  intros Hwf. induction cids as [|cid rest IH]; intros Hin acc; cbn; [eauto|].
  assert (Hrest : forall c, c ∈ rest -> c ∈ dict_keys store).
  { intros c Hc. apply Hin. now apply list_elem_of_further. }
  destruct (proj1 (NodeStore.dict_mem_get store cid)) as [th ->].
  { apply dict_mem_true, Hin, list_elem_of_here. }
  cbn. destruct (negb _ && _); [|now apply IH].
  destruct (maybe_contains_total peer_bloom (t_created_by th) Hwf) as [b ->]. cbn.
  now apply IH.
Qed.

Lemma fetch_total (store : list (string * thought)) (cids : list string) :
  (forall c, c ∈ cids -> c ∈ dict_keys store) ->
  exists ths, fetch store cids = Some ths.
Proof.
  intros Hin. unfold fetch.
  destruct (mapM (dict_get store) cids) as [ths|] eqn:E; [eauto|exfalso].
  apply mapM_None in E. apply Exists_exists in E as (c & Hc & Hnone).
  apply Hin, dict_mem_true, NodeStore.dict_mem_get in Hc as [v Hv]. congruence.
Qed.

(** The iteration order of a set: each element once. *)
Variable set_iter : list string -> list string.
Hypothesis set_iter_perm : forall l, set_iter l ≡ₚ l.

Lemma set_iter_elem (l : list string) (x : string) : x ∈ set_iter l <-> x ∈ l.
Proof. now rewrite set_iter_perm. Qed.

(** The selection under a filter that has its bits. *)
Lemma missing_cids_total (n : WellspringNode) (hex : string) (f : Bloom.BloomFilter) :
  Bloom.from_hex hex Bloom.default_size Bloom.default_hash_count = Some f ->
  Bloom.wf f ->
  exists cids,
    missing_cids_for_peer mmh3_hash set_iter n hex = Some cids
    /\ NoDup cids
    /\ forall c, c ∈ cids <->
         c ∈ dict_keys (thoughts n) /\ Bloom.maybe_contains mmh3_hash f c = Some false.
Proof.
  intros Hhex Hwf.
  destruct (missing_pass_total f (dict_keys (thoughts n)) Hwf [] (NoDup_nil_2))
    as (m & Hm & Hnd).
  assert (Hkeys : forall c, c ∈ set_iter m -> c ∈ dict_keys (thoughts n)).
  { intros c Hc. apply (proj1 (set_iter_elem _ _)) in Hc.
    apply (proj1 (missing_pass_v1_spec _ _ _ _ _ Hm c)) in Hc as [Hc|[Hc _]];
      [inversion Hc | exact Hc]. }
  destruct (identity_pass_total (thoughts n) f (set_iter m) Hwf Hkeys []) as [needed Hi].
  pose proof (missing_pass_v1_spec _ _ _ _ _ Hm) as Hspec.
  assert (Hm' : forall c, c ∈ m <->
            c ∈ dict_keys (thoughts n)
            /\ Bloom.maybe_contains mmh3_hash f c = Some false).
  { intros c. rewrite Hspec. split; [|auto]. intros [Hc|?]; [inversion Hc | auto]. }
  assert (Hnone : filter (fun cid => set_mem m cid = false) (set_iter needed) = []).
  { destruct (filter _ (set_iter needed)) as [|c rest] eqn:Ef; [reflexivity|exfalso].
    assert (Hc : c ∈ filter (fun cid => set_mem m cid = false) (set_iter needed)).
    { rewrite Ef. apply list_elem_of_here. }
    apply list_elem_of_filter in Hc as [Hnot Hc]. apply (proj1 (set_iter_elem _ _)) in Hc.
    destruct (identity_pass_v1_spec _ _ _ _ _ _ Hi c Hc) as [Hacc|Hin];
      [inversion Hacc|].
    apply Hm', set_mem_true in Hin. congruence. }
  exists (set_iter m). unfold missing_cids_for_peer. rewrite Hhex. cbn.
  rewrite Hm. cbn. rewrite Hi. cbn. rewrite Hnone. split; [reflexivity|]. split.
  - rewrite set_iter_perm. exact Hnd.
  - intros c. rewrite set_iter_elem. apply Hm'.
Qed.

(** X10. Given a filter string that decodes to a filter with all its bits,
    [get_missing_for_peer] returns: each thought of the store whose CID the
    filter does not report, once, and nothing else. *)
Theorem peer_gets_what_its_filter_lacks (n : WellspringNode) (hex : string)
    (f : Bloom.BloomFilter) :
  Bloom.from_hex hex Bloom.default_size Bloom.default_hash_count = Some f ->
  Bloom.wf f ->
  exists cids ths,
    get_missing_for_peer mmh3_hash set_iter n hex = Some ths
    /\ Forall2 (fun c th => dict_get (thoughts n) c = Some th) cids ths
    /\ NoDup cids
    /\ forall c, c ∈ cids <->
         c ∈ dict_keys (thoughts n) /\ Bloom.maybe_contains mmh3_hash f c = Some false.
Proof.
  intros Hhex Hwf.
  destruct (missing_cids_total n hex f Hhex Hwf) as (cids & Hc & Hnd & Hspec).
  destruct (fetch_total (thoughts n) cids) as [ths Hf].
  { intros c Hin. now apply Hspec in Hin as [? _]. }
  exists cids, ths. unfold get_missing_for_peer. rewrite Hc. cbn.
  split; [exact Hf|]. split; [|now split].
  unfold fetch in Hf. now apply mapM_Some_1 in Hf.
Qed.

(** ** A filter string that is too short *)

Lemma missing_pass_raises (peer_bloom : Bloom.BloomFilter) (cids : list string)
    (cid : string) :
  cid ∈ cids -> Bloom.maybe_contains mmh3_hash peer_bloom cid = None ->
  forall acc, missing_pass mmh3_hash peer_bloom cids acc = None.
Proof.
  intros Hin Hnone. induction cids as [|c rest IH]; intros acc; [inversion Hin|].
  cbn. apply elem_of_cons in Hin as [<-|Hin]; [now rewrite Hnone|].
  destruct (Bloom.maybe_contains mmh3_hash peer_bloom c); cbn; [|reflexivity].
  now apply IH.
Qed.

Lemma unpack_length (byte_arr : list Z) :
  length (Bloom.unpack byte_arr) = (8 * length byte_arr)%nat.
Proof.
  unfold Bloom.unpack. induction byte_arr as [|b rest IH]; [reflexivity|].
  cbn [mbind list_bind]. rewrite length_app, IH. cbn [length]. 
  rewrite length_fmap. unfold range. rewrite length_fmap, length_seq. cbn. lia.
Qed.

Lemma probe_out_of_range (f : Bloom.BloomFilter) (item : string) (i : Z)
    (rest : list Z) :
  0 < Bloom.size f ->
  Z.of_nat (length (Bloom.bits f)) <= mmh3_hash item i `mod` Bloom.size f ->
  Bloom.maybe_contains_from mmh3_hash f item (i :: rest) = None.
Proof.
  intros Hpos Hlen. cbn [Bloom.maybe_contains_from]. unfold Bloom.slot.
  rewrite (mod_pos _ _ Hpos). cbn [mbind option_bind].
  pose proof (Z.mod_pos_bound (mmh3_hash item i) (Bloom.size f) Hpos) as Hb.
  unfold getitem, index.
  destruct (Z.ltb_spec (mmh3_hash item i `mod` Bloom.size f)
              (Z.of_nat (length (Bloom.bits f)))); [lia|].
  destruct (Z.ltb_spec (mmh3_hash item i `mod` Bloom.size f) 0); [lia|].
  now rewrite !andb_false_r.
Qed.

(** X11. A filter string of fewer bytes than a stored CID's first position needs
    makes [get_missing_for_peer] raise ([IndexError]); the empty string
    does so on every node that holds a thought. *)
Theorem short_filter_raises (n : WellspringNode) (hex : string) (byte_arr : list Z)
    (cid : string) :
  bytes_fromhex hex = Some byte_arr ->
  cid ∈ dict_keys (thoughts n) ->
  8 * Z.of_nat (length byte_arr) <= mmh3_hash cid 0 `mod` Bloom.default_size ->
  get_missing_for_peer mmh3_hash set_iter n hex = None.
Proof.
  intros Hhex Hin Hshort.
  unfold get_missing_for_peer, missing_cids_for_peer, Bloom.from_hex.
  rewrite Hhex. cbn [mbind option_bind].
  rewrite (missing_pass_raises _ _ cid Hin); [reflexivity|].
  unfold Bloom.maybe_contains. cbn [Bloom.hash_count].
  change (range Bloom.default_hash_count) with [0; 1; 2].
  apply probe_out_of_range; cbn [Bloom.size Bloom.bits]; [reflexivity|].
  etransitivity; [|exact Hshort].
  unfold slice_to. cbn. rewrite length_take, unpack_length. lia.
Qed.

(** ** Receiving what was selected *)

(** A loop that meets a self-signed identity new to the store stores it and
    learns its key. *)
Lemma loop_learns_identity (first : bool) (l : list thought) (idt : thought) (pk : json) :
  forall n c d n' c' d',
  receive_loop json_dumps b64decode ed25519_verify mmh3_hash first l n c d
    = Some (n', c', d') ->
  NoDup (t_cid <$> l) -> idt ∈ l ->
  t_type idt = "identity"%string -> t_created_by idt = "GENESIS"%string ->
  dict_get (t_content idt) "pubkey" = Some pk ->
  check_signature json_dumps b64decode ed25519_verify pk idt = true ->
  dict_get (thoughts n) (t_cid idt) = None ->
  dict_get (thoughts n') (t_cid idt) = Some idt /\ pubkeys n' !! t_cid idt = Some pk.
Proof.
  intros n c d n' c' d' H Hnd Hin Hty Hgen Hpk Hchk Hnew.
  apply list_elem_of_split in Hin as (l1 & l2 & ->).
  rewrite fmap_app, fmap_cons in Hnd.
  apply NoDup_app in Hnd as (_ & Hl1 & _).
  assert (Hl1i : forall x, x ∈ l1 -> t_cid x <> t_cid idt).
  { intros x Hx Heq. apply (Hl1 (t_cid x)); [now apply list_elem_of_fmap_2|].
    rewrite Heq. apply list_elem_of_here. }
  rewrite NodeStore.receive_loop_app in H.
  destruct (receive_loop _ _ _ _ first l1 n c d) as [[[n1 c1] d1]|] eqn:E1; cbn in H;
    [|discriminate].
  destruct (NodeStore.receive_loop_other _ _ _ _ _ _ _ _ _ _ _ _ _ Hl1i E1) as [T1 _].
  destruct (_store_thought _ _ _ _ n1 idt) as [[b n2]|] eqn:Es; cbn in H;
    [|discriminate].
  assert (Hv : verify_signature json_dumps b64decode ed25519_verify (pubkeys n1) idt
               = Some true).
  { unfold verify_signature. apply String.eqb_eq in Hty, Hgen.
    rewrite Hty, Hgen. cbn. rewrite Hpk. cbn. now rewrite Hchk. }
  destruct (NodeStore.store_thought_new _ _ _ _ n1 idt ltac:(congruence) Hv _ _ Es)
    as [-> T2].
  destruct (NodeStore.store_thought_cases _ _ _ _ _ _ _ _ Es)
    as (_ & _ & _ & [(_ & _ & _ & _ & _ & HK & _)|(? & _)]); [|discriminate].
  unfold NodeStore.genesis_identity in HK. apply String.eqb_eq in Hty, Hgen.
  rewrite Hty, Hgen in HK. cbn in HK. destruct HK as (pk' & Hpk' & HK).
  assert (pk' = pk) by congruence. subst pk'.
  cbn in H. apply NodeStore.receive_loop_frame in H as (G1 & _ & G3 & _).
  cbn [thoughts pubkeys] in G1, G3. split; [now apply G1|].
  rewrite G3; [now rewrite HK, lookup_insert_eq|].
  apply NodeStore.dict_mem_get. rewrite T2. eauto.
Qed.

(** A loop that meets a thought new to the store, by an author whose key
    the node holds, stores it. *)
Lemma loop_stores_with_key (first : bool) (l : list thought) (th : thought) (pk : json) :
  forall n c d n' c' d',
  receive_loop json_dumps b64decode ed25519_verify mmh3_hash first l n c d
    = Some (n', c', d') ->
  NoDup (t_cid <$> l) -> th ∈ l ->
  t_type th <> "identity"%string ->
  pubkeys n !! t_created_by th = Some pk ->
  dict_mem (thoughts n) (t_created_by th) = true ->
  check_signature json_dumps b64decode ed25519_verify pk th = true ->
  dict_get (thoughts n) (t_cid th) = None ->
  dict_get (thoughts n') (t_cid th) = Some th.
Proof.
  intros n c d n' c' d' H Hnd Hin Hty Hkey Hmem Hchk Hnew.
  apply list_elem_of_split in Hin as (l1 & l2 & ->).
  rewrite fmap_app, fmap_cons in Hnd.
  apply NoDup_app in Hnd as (_ & Hl1 & _).
  assert (Hl1t : forall x, x ∈ l1 -> t_cid x <> t_cid th).
  { intros x Hx Heq. apply (Hl1 (t_cid x)); [now apply list_elem_of_fmap_2|].
    rewrite Heq. apply list_elem_of_here. }
  rewrite NodeStore.receive_loop_app in H.
  destruct (receive_loop _ _ _ _ first l1 n c d) as [[[n1 c1] d1]|] eqn:E1; cbn in H;
    [|discriminate].
  destruct (NodeStore.receive_loop_other _ _ _ _ _ _ _ _ _ _ _ _ _ Hl1t E1) as [T1 _].
  apply NodeStore.receive_loop_frame in E1 as (_ & _ & K1 & _).
  destruct (_store_thought _ _ _ _ n1 th) as [[b n2]|] eqn:Es; cbn in H;
    [|discriminate].
  assert (Hv : verify_signature json_dumps b64decode ed25519_verify (pubkeys n1) th
               = Some true).
  { unfold verify_signature. apply String.eqb_neq in Hty. rewrite Hty. cbn.
    rewrite (K1 _ Hmem), Hkey. now rewrite Hchk. }
  destruct (NodeStore.store_thought_new _ _ _ _ n1 th ltac:(congruence) Hv _ _ Es)
    as [-> T2].
  cbn in H. apply NodeStore.receive_loop_frame in H as (G1 & _).
  cbn [thoughts] in G1. now apply G1.
Qed.

Lemma fetched (store : list (string * thought)) (cids : list string)
    (ths : list thought) (c : string) (th : thought) :
  fetch store cids = Some ths -> c ∈ cids -> dict_get store c = Some th -> th ∈ ths.
Proof.
  unfold fetch. intros H. apply mapM_Some_1 in H.
  induction H as [|x y l k Hxy _ IH]; intros Hc Hget; [inversion Hc|].
  apply elem_of_cons in Hc as [->|Hc].
  - assert (y = th) by congruence. subst y. apply list_elem_of_here.
  - apply list_elem_of_further. now apply IH.
Qed.

Lemma fetched_cids (store : list (string * thought)) (cids : list string)
    (ths : list thought) :
  (forall cid t, dict_get store cid = Some t -> t_cid t = cid) ->
  fetch store cids = Some ths -> t_cid <$> ths = cids.
Proof.
  unfold fetch. intros Hown H. apply mapM_Some_1 in H.
  induction H as [|x y l k Hxy _ IH]; [reflexivity|].
  cbn. now rewrite IH, (Hown _ _ Hxy).
Qed.

(** X12. One round of sync: node [a] selects for the filter node [b] published,
    and [b] receives the batch. A thought of [a] that [b]'s filter does not
    report, signed by an identity [a] holds, is in [b]'s store afterwards,
    when [b]'s filter does not report the identity either or [b] holds the
    identity's key already. *)
Theorem sync_round_delivers (a b b' : WellspringNode) (batch : list thought)
    (received new_count : Z) (th idt : thought) (pk : json) :
  Bloom.wf (bloom b) ->
  Bloom.size (bloom b) = Bloom.default_size ->
  Bloom.hash_count (bloom b) = Bloom.default_hash_count ->
  (forall cid, cid ∈ dict_keys (thoughts b) ->
     Bloom.maybe_contains mmh3_hash (bloom b) cid = Some true) ->
  (forall cid, is_Some (pubkeys b !! cid) -> dict_mem (thoughts b) cid = true) ->
  (forall cid t, dict_get (thoughts a) cid = Some t -> t_cid t = cid) ->
  get_missing_for_peer mmh3_hash set_iter a (Bloom.to_hex (bloom b)) = Some batch ->
  receive_thoughts json_dumps b64decode ed25519_verify mmh3_hash b batch
    = Some (b', received, new_count) ->
  dict_get (thoughts a) (t_cid th) = Some th ->
  dict_get (thoughts a) (t_cid idt) = Some idt ->
  t_type idt = "identity"%string -> t_created_by idt = "GENESIS"%string ->
  dict_get (t_content idt) "pubkey" = Some pk ->
  check_signature json_dumps b64decode ed25519_verify pk idt = true ->
  t_type th <> "identity"%string -> t_created_by th = t_cid idt ->
  check_signature json_dumps b64decode ed25519_verify pk th = true ->
  Bloom.maybe_contains mmh3_hash (bloom b) (t_cid th) = Some false ->
  Bloom.maybe_contains mmh3_hash (bloom b) (t_cid idt) = Some false
  \/ pubkeys b !! t_cid idt = Some pk ->
  dict_get (thoughts b') (t_cid th) = Some th.
Proof.
  intros Hwf Hsz Hhc Hcov Hkeys Hown Hsel Hrecv Hth Hidt Hty Hgen Hpk Hci Htt Hcb Hct
         Hmiss Hcase.
  assert (Hhex : Bloom.from_hex (Bloom.to_hex (bloom b)) Bloom.default_size
                   Bloom.default_hash_count = Some (bloom b)).
  { rewrite <- Hsz, <- Hhc. apply Bloom.from_hex_to_hex. apply Hwf. }
  destruct (missing_cids_total a _ _ Hhex Hwf) as (cids & Hc & Hnd & Hspec).
  unfold get_missing_for_peer in Hsel. rewrite Hc in Hsel. cbn in Hsel.
  pose proof (fetched_cids _ _ _ Hown Hsel) as Hcids.
  assert (Hnew : forall k, Bloom.maybe_contains mmh3_hash (bloom b) k = Some false ->
                   dict_get (thoughts b) k = None).
  { intros k Hk. destruct (dict_get (thoughts b) k) as [v|] eqn:E; [|reflexivity].
    apply dict_get_mem, dict_mem_true, Hcov in E. congruence. }
  assert (Hinb : th ∈ batch).
  { apply (fetched _ _ _ (t_cid th) th Hsel); [|exact Hth]. apply Hspec. split; [|exact Hmiss].
    apply dict_mem_true. now apply dict_get_mem in Hth. }
  assert (Hnds : NoDup (t_cid <$> sorted_thoughts batch)).
  { unfold sorted_thoughts. rewrite (sorted_perm key_le batch). now rewrite Hcids. }
  unfold receive_thoughts in Hrecv.
  destruct (receive_loop _ _ _ _ true _ b 0 []) as [[[n1 c1] d1]|] eqn:E1; cbn in Hrecv;
    [|discriminate].
  destruct (receive_loop _ _ _ _ false d1 n1 c1 []) as [[[n2 c2] d2]|] eqn:E2;
    cbn in Hrecv; [|discriminate].
  simplify_eq.
  apply NodeStore.receive_loop_frame in E2 as (G1 & _). apply G1. clear G1.
  destruct Hcase as [Hmi|Hk].
  - assert (Hini : idt ∈ batch).
    { apply (fetched _ _ _ (t_cid idt) idt Hsel); [|exact Hidt]. apply Hspec. split; [|exact Hmi].
      apply dict_mem_true. now apply dict_get_mem in Hidt. }
    assert (Hkey : key_le th idt = false).
    { unfold key_le, sort_key. cbn [fst snd].
      apply String.eqb_eq in Hty. apply String.eqb_neq in Htt. now rewrite Hty, Htt. }
    destruct (sorted_before key_le Sync.key_le_total Sync.key_le_trans batch idt th
                Hini Hinb Hkey) as (l1 & l2 & l3 & Hsorted).
    fold (sorted_thoughts batch) in Hsorted.
    assert (Hsplit : sorted_thoughts batch = (l1 ++ idt :: l2) ++ th :: l3).
    { rewrite Hsorted, <- app_assoc. reflexivity. }
    rewrite Hsplit in E1, Hnds. rewrite NodeStore.receive_loop_app in E1.
    destruct (receive_loop _ _ _ _ true (l1 ++ idt :: l2) b 0 [])
      as [[[m cm] dm]|] eqn:EL;
      cbn [mbind option_bind fst snd] in E1; [|discriminate].
    rewrite fmap_app in Hnds. apply NoDup_app in Hnds as (HndL & Hdis & HndR).
    destruct (loop_learns_identity _ _ idt pk _ _ _ _ _ _ EL HndL) as [Ti Ki];
      auto.
    { apply elem_of_app. right. apply list_elem_of_here. }
    assert (Hoth : forall x, x ∈ l1 ++ idt :: l2 -> t_cid x <> t_cid th).
    { intros x Hx Heq. apply (Hdis (t_cid x)); [now apply list_elem_of_fmap_2|].
      rewrite Heq. cbn. apply list_elem_of_here. }
    destruct (NodeStore.receive_loop_other _ _ _ _ _ _ _ _ _ _ _ _ _ Hoth EL) as [Tt _].
    apply (loop_stores_with_key _ _ th pk _ _ _ _ _ _ E1 HndR).
    + apply list_elem_of_here.
    + exact Htt.
    + now rewrite Hcb.
    + rewrite Hcb. apply NodeStore.dict_mem_get. rewrite Ti. eauto.
    + exact Hct.
    + rewrite Tt. now apply Hnew.
  - apply (loop_stores_with_key _ _ th pk _ _ _ _ _ _ E1 Hnds).
    + now rewrite (sorted_perm key_le batch).
    + exact Htt.
    + now rewrite Hcb.
    + rewrite Hcb. apply Hkeys. rewrite Hk. eauto.
    + exact Hct.
    + now apply Hnew.
Qed.

End Round.

(** ** A round between two nodes

    Carol's node with a note she created and Bob's new node, with the
    stand-in libraries of [Toy]; a hash that tells CIDs of equal length
    apart, and sets iterated in insertion order. *)
Definition sum_hash (item : string) (seed : Z) : Z :=
  foldr (fun c acc => Z.of_nat (nat_of_ascii c) + acc) 0 (list_ascii_of_string item)
  * (seed + 1) + seed.

Definition carol_created : option (SignedThought * WellspringNode) :=
  NodeCreate.create_thought Toy.dumps Toy.digest_rev bytes_hex bytes_fromhex Toy.sign
    Toy.verify Sync.toy_hash NodeCreate.carol_node NodeStore.carol_key "note"
    [("text"%string, JStr "hello")] None "2026-02-02T00:00:00".

Definition carol_with_note : WellspringNode :=
  default NodeCreate.carol_node (snd <$> carol_created).

Definition carol_hello : thought :=
  default NodeStore.unsigned (carol_created ≫= fun r => to_dict r.1).

Definition carol_self : thought :=
  default NodeStore.unsigned
    (dict_get (thoughts NodeCreate.carol_node) (self_cid NodeCreate.carol_node)).

Definition bob_node : WellspringNode :=
  default NodeStore.blank_node
    (NodeCreate.new_node Toy.dumps Toy.digest_rev bytes_hex Toy.sign sum_hash id
       "Bob" 8002 [11; 22] "2026-02-03T00:00:00").

Lemma insertion_order_perm (l : list string) : Sync.insertion_order l ≡ₚ l.
Proof. reflexivity. Qed.

Lemma bob_node_wf : Bloom.wf (bloom bob_node).
Proof. split; vm_compute; reflexivity. Qed.

Lemma bob_node_covered (cid : string) :
  cid ∈ dict_keys (thoughts bob_node) ->
  Bloom.maybe_contains sum_hash (bloom bob_node) cid = Some true.
Proof.
  intros H. vm_compute in H. apply list_elem_of_singleton in H. subst cid.
  vm_compute. reflexivity.
Qed.

Lemma bob_node_keys (cid : string) :
  is_Some (pubkeys bob_node !! cid) -> dict_mem (thoughts bob_node) cid = true.
Proof.
  intros [v Hv].
  assert (Hk : pubkeys bob_node = {[self_cid bob_node := JStr "0b16"]}).
  { vm_compute. reflexivity. }
  rewrite Hk in Hv. apply lookup_singleton_Some in Hv as [<- _].
  vm_compute. reflexivity.
Qed.

Lemma carol_with_note_own (cid : string) (t : thought) :
  dict_get (thoughts carol_with_note) cid = Some t -> t_cid t = cid.
Proof.
  intros H. apply TrustNet.dict_get_elem in H.
  assert (Hall : Forall (fun p : string * thought => t_cid p.2 = p.1)
                   (thoughts carol_with_note)).
  { apply (bool_decide_unpack _). vm_compute. reflexivity. }
  exact (proj1 (Forall_forall _ _) Hall _ H).
Qed.

Lemma peer_gets_what_its_filter_lacks_witness :
  exists cids ths,
    get_missing_for_peer sum_hash Sync.insertion_order carol_with_note
      (Bloom.to_hex (bloom bob_node)) = Some ths
    /\ Forall2 (fun c th => dict_get (thoughts carol_with_note) c = Some th) cids ths
    /\ NoDup cids
    /\ forall c, c ∈ cids <->
         c ∈ dict_keys (thoughts carol_with_note)
         /\ Bloom.maybe_contains sum_hash (bloom bob_node) c = Some false.
Proof.
  apply (peer_gets_what_its_filter_lacks sum_hash Sync.insertion_order
           insertion_order_perm carol_with_note (Bloom.to_hex (bloom bob_node))
           (bloom bob_node)).
  - apply (Bloom.from_hex_to_hex (bloom bob_node)), bob_node_wf.
  - exact bob_node_wf.
Defined.

Lemma short_filter_raises_witness :
  get_missing_for_peer sum_hash Sync.insertion_order carol_with_note "" = None.
Proof.
  apply (short_filter_raises sum_hash Sync.insertion_order carol_with_note "" []
           (self_cid carol_with_note)).
  - reflexivity.
  - apply (bool_decide_unpack _). vm_compute. reflexivity.
  - vm_compute. discriminate.
Defined.

Lemma sync_round_delivers_witness :
  match get_missing_for_peer sum_hash Sync.insertion_order carol_with_note
          (Bloom.to_hex (bloom bob_node)) with
  | Some batch =>
      match receive_thoughts Toy.dumps bytes_fromhex Toy.verify sum_hash bob_node batch with
      | Some (b', _, _) => dict_get (thoughts b') (t_cid carol_hello) = Some carol_hello
      | None => False
      end
  | None => False
  end.
Proof.
  destruct (get_missing_for_peer sum_hash Sync.insertion_order carol_with_note
              (Bloom.to_hex (bloom bob_node))) as [batch|] eqn:Esel.
  2:{ vm_compute in Esel. discriminate. }
  destruct (receive_thoughts Toy.dumps bytes_fromhex Toy.verify sum_hash bob_node batch)
    as [[[b' r] c]|] eqn:Erecv.
  2:{ vm_compute in Esel. injection Esel as <-. vm_compute in Erecv. discriminate. }
  apply (sync_round_delivers Toy.dumps bytes_fromhex Toy.verify sum_hash
           Sync.insertion_order insertion_order_perm carol_with_note bob_node b' batch
           r c carol_hello carol_self (JStr "cafe")).
  - exact bob_node_wf.
  - reflexivity.
  - reflexivity.
  - exact bob_node_covered.
  - exact bob_node_keys.
  - exact carol_with_note_own.
  - exact Esel.
  - exact Erecv.
  - vm_compute. reflexivity.
  - vm_compute. reflexivity.
  - reflexivity.
  - reflexivity.
  - reflexivity.
  - vm_compute. reflexivity.
  - intros H. vm_compute in H. discriminate.
  - vm_compute. reflexivity.
  - vm_compute. reflexivity.
  - vm_compute. reflexivity.
  - left. vm_compute. reflexivity.
Defined.

End NodeSync.

(* ===================================================================== *)
(** * Pools, peering and provenance of the visibility-aware node *)
(* ===================================================================== *)

Module Pools.
Import Py Signed NodeV2.

(** [add_pool_member] *)
Definition add_pool_member (n : WellspringNodeV2) (pool_cid member_cid : string)
  : WellspringNodeV2 :=
  mkNode (self_cid n) (thoughts n) (pubkeys n) (bloom n)
    (<[pool_cid := default ∅ (pool_memberships n !! pool_cid) ∪ {[member_cid]}]>
       (pool_memberships n))
    (peer_shared_pools n) (known_peers n) (received_via n) (filtered_count n).

(** [establish_peering] *)
Definition establish_peering (n : WellspringNodeV2) (peer_cid : string)
    (shared_pools : list string) : WellspringNodeV2 :=
  mkNode (self_cid n) (thoughts n) (pubkeys n) (bloom n) (pool_memberships n)
    (<[peer_cid := default ∅ (peer_shared_pools n !! peer_cid)
                   ∪ list_to_set shared_pools]> (peer_shared_pools n))
    (known_peers n) (received_via n) (filtered_count n).

(** [get_provenance] *)
Definition get_provenance (n : WellspringNodeV2) (thought_cid : string) : option string :=
  received_via n !! thought_cid.

(** The decision of [_can_share_with_peer], without its reason. *)
Definition decision (n : WellspringNodeV2) (th : thought) (peer_cid : string)
  : option bool :=
  fst <$> _can_share_with_peer n th peer_cid.

Lemma some_decide (P : Prop) `{Decision P} : Some (bool_decide P) = Some true <-> P.
Proof.
  split; [intros [= H']; now apply bool_decide_eq_true in H'|].
  intros HP. f_equal. now apply bool_decide_eq_true.
Qed.

Lemma pool_prefix (pool_cid : string) :
  String.prefix "pool:" ("pool:" ++ pool_cid) = true
  /\ str_drop 5 ("pool:" ++ pool_cid) = pool_cid.
Proof.
  change ("pool:" +:+ pool_cid)%string
    with (String "p" (String "o" (String "o" (String "l" (String ":" pool_cid))))).
  cbn. split; [now destruct pool_cid | reflexivity].
Qed.

Lemma pool_inj (X Y : string) : ("pool:" ++ X)%string = ("pool:" ++ Y)%string -> X = Y.
Proof.
  intros E. rewrite <- (proj2 (pool_prefix X)), <- (proj2 (pool_prefix Y)).
  now rewrite E.
Qed.

Lemma prefix_pool (v : string) :
  String.prefix "pool:" v = true -> v = ("pool:" ++ str_drop 5 v)%string.
Proof.
  intros H.
  change ("pool:" +:+ str_drop 5 v)%string
    with (String "p" (String "o" (String "o" (String "l" (String ":" (str_drop 5 v)))))).
  repeat match type of H with
         | String.prefix (String _ _) ?v = true =>
             destruct v as [|? ?]; cbn [String.prefix] in H; [discriminate|]
         | (if ?c then _ else _) = true => destruct c as [<-|]; [|discriminate]
         end.
  reflexivity.
Qed.

(** The decision on a pool-scoped thought. *)
Lemma decision_pool (n : WellspringNodeV2) (th : thought) (peer_cid pool_cid : string) :
  t_visibility th = Some ("pool:" ++ pool_cid)%string ->
  decision n th peer_cid
  = Some (bool_decide (peer_cid ∈ default ∅ (pool_memberships n !! pool_cid))
          || bool_decide (pool_cid ∈ get_shared_pools n peer_cid)).
Proof.
  intros H. unfold decision, _can_share_with_peer. rewrite H.
  destruct (pool_prefix pool_cid) as [Hp Hd].
  destruct (String.eqb_spec ("pool:" ++ pool_cid) "public") as [E|_].
  { rewrite E in Hp. discriminate. }
  destruct (String.eqb_spec ("pool:" ++ pool_cid) "local_forever") as [E|_].
  { rewrite E in Hp. discriminate. }
  rewrite Hp, Hd. unfold is_pool_member.
  destruct (bool_decide _); [reflexivity|]. now destruct (bool_decide _).
Qed.

(** The decision on any other thought does not read the pool tables. *)
Lemma decision_not_pool (n n' : WellspringNodeV2) (th : thought) (peer_cid : string) :
  known_peers n' = known_peers n ->
  (forall v, t_visibility th = Some v -> String.prefix "pool:" v = false) ->
  _can_share_with_peer n' th peer_cid = _can_share_with_peer n th peer_cid.
Proof.
  intros Hk Hv. unfold _can_share_with_peer, peer_name. rewrite Hk.
  destruct (t_visibility th) as [v|]; [|reflexivity].
  now rewrite (Hv v eq_refl).
Qed.

(** X13. A peering agreement grants the peer the pools it names and nothing
    else: the decision for a thought and a peer is to share afterwards
    exactly when it was before, or when the peer is the one of the agreement
    and the thought is scoped to one of its pools. *)
Theorem peering_grants_exactly (n : WellspringNodeV2) (peer_cid : string)
    (shared_pools : list string) (th : thought) (q : string) :
  (decision (establish_peering n peer_cid shared_pools) th q = None
   <-> decision n th q = None)
  /\ (decision (establish_peering n peer_cid shared_pools) th q = Some true
      <-> decision n th q = Some true
          \/ (q = peer_cid
              /\ exists pool_cid, pool_cid ∈ shared_pools
                   /\ t_visibility th = Some ("pool:" ++ pool_cid)%string)).
Proof.
  destruct (t_visibility th) as [v|] eqn:Ev.
  2:{ unfold decision.
      rewrite (decision_not_pool n (establish_peering n peer_cid shared_pools) th q);
        [|reflexivity|intros v Hv; congruence].
      split; [reflexivity|]. split; [auto|]. intros [H|(_ & X & _ & HX)]; [exact H|].
      discriminate. }
  destruct (String.prefix "pool:" v) eqn:Ep.
  2:{ unfold decision.
      rewrite (decision_not_pool n (establish_peering n peer_cid shared_pools) th q);
        [|reflexivity|intros v' Hv'; congruence].
      split; [reflexivity|]. split; [auto|]. intros [H|(_ & X & _ & HX)]; [exact H|].
      injection HX as ->. now rewrite (proj1 (pool_prefix X)) in Ep. }
  apply prefix_pool in Ep. set (X := str_drop 5 v) in *. rewrite Ep in Ev.
  rewrite !(decision_pool _ th q X Ev). split; [split; discriminate|].
  cbn [pool_memberships establish_peering]. unfold get_shared_pools.
  cbn [peer_shared_pools establish_peering].
  destruct (bool_decide_reflect (q ∈ default ∅ (pool_memberships n !! X))) as [Hm|Hm].
  { cbn. split; auto. }
  cbn [orb]. rewrite !some_decide. destruct (decide (q = peer_cid)) as [->|Hne].
  - rewrite lookup_insert_eq. cbn [from_option]. unfold id.
    rewrite elem_of_union, elem_of_list_to_set. split.
    + intros [H|H]; [now left|]. right. split; [reflexivity|].
      exists X. split; [exact H | congruence].
    + intros [H|(_ & Y & HY & HvY)]; [now left|]. right.
      assert (HYX : Y = X) by (apply pool_inj; congruence). now rewrite <- HYX.
  - rewrite lookup_insert_ne by congruence. split; [auto|].
    intros [H|(Hq & _)]; [exact H | contradiction].
Qed.

(** A pool named in the agreement is shared with the peer. *)
Lemma peering_shares_pool (n : WellspringNodeV2) (peer_cid : string)
    (shared_pools : list string) (th : thought) (pool_cid : string) :
  pool_cid ∈ shared_pools ->
  t_visibility th = Some ("pool:" ++ pool_cid)%string ->
  decision (establish_peering n peer_cid shared_pools) th peer_cid = Some true.
Proof.
  intros Hin Hv. rewrite (decision_pool _ th peer_cid pool_cid Hv). f_equal.
  apply orb_true_iff. right. apply bool_decide_eq_true. unfold get_shared_pools.
  cbn [peer_shared_pools establish_peering]. rewrite lookup_insert_eq.
  cbn [from_option]. unfold id. apply elem_of_union. right.
  now apply elem_of_list_to_set.
Qed.

(** X14. Adding a member to a pool grants that member that pool and nothing
    else. *)
Theorem membership_grants_exactly (n : WellspringNodeV2) (pool_cid member_cid : string)
    (th : thought) (q : string) :
  (decision (add_pool_member n pool_cid member_cid) th q = None
   <-> decision n th q = None)
  /\ (decision (add_pool_member n pool_cid member_cid) th q = Some true
      <-> decision n th q = Some true
          \/ (q = member_cid
              /\ t_visibility th = Some ("pool:" ++ pool_cid)%string)).
Proof.
  destruct (t_visibility th) as [v|] eqn:Ev.
  2:{ unfold decision.
      rewrite (decision_not_pool n (add_pool_member n pool_cid member_cid) th q);
        [|reflexivity|intros v Hv; congruence].
      split; [reflexivity|]. split; [auto|]. intros [H|(_ & HX)]; [exact H|].
      discriminate. }
  destruct (String.prefix "pool:" v) eqn:Ep.
  2:{ unfold decision.
      rewrite (decision_not_pool n (add_pool_member n pool_cid member_cid) th q);
        [|reflexivity|intros v' Hv'; congruence].
      split; [reflexivity|]. split; [auto|]. intros [H|(_ & HX)]; [exact H|].
      injection HX as ->. now rewrite (proj1 (pool_prefix pool_cid)) in Ep. }
  apply prefix_pool in Ep. set (X := str_drop 5 v) in *. rewrite Ep in Ev.
  rewrite !(decision_pool _ th q X Ev). split; [split; discriminate|].
  unfold get_shared_pools. cbn [pool_memberships peer_shared_pools add_pool_member].
  destruct (bool_decide_reflect (X ∈ default ∅ (peer_shared_pools n !! q))) as [Hs|Hs].
  { rewrite !orb_true_r. split; auto. }
  rewrite !orb_false_r, !some_decide.
  destruct (decide (X = pool_cid)) as [HX|Hne].
  - subst pool_cid. rewrite lookup_insert_eq. cbn [from_option]. unfold id.
    rewrite elem_of_union, elem_of_singleton. split.
    + intros [H|H]; [now left|]. right. split; [exact H | congruence].
    + intros [H|(Hq & _)]; auto.
  - rewrite lookup_insert_ne by congruence. split; [auto|].
    intros [H|(_ & HvY)]; [exact H|]. exfalso. apply Hne, pool_inj. congruence.
Qed.

Section Selection.

Variable mmh3_hash : string -> Z -> Z.
(** The iteration order of a set: each element once. *)
Variable set_iter : list string -> list string.
Hypothesis set_iter_perm : forall l, set_iter l ≡ₚ l.

Lemma set_iter_mem (l : list string) (x : string) : x ∈ set_iter l <-> x ∈ l.
Proof. now rewrite set_iter_perm. Qed.

(** What is sent was in the store and was judged shareable. *)
Lemma sent_shareable (n : WellspringNodeV2) (hex peer_cid : string)
    (result : list thought) (st : sync_stats) (th : thought) :
  get_missing_for_peer mmh3_hash set_iter n hex peer_cid = Some (result, st) ->
  th ∈ result ->
  exists cid, dict_get (thoughts n) cid = Some th
    /\ decision n th peer_cid = Some true.
Proof.
  unfold get_missing_for_peer. intros H Hth.
  destruct (select_for_peer _ _ _ _ _) as [sel|] eqn:Esel; cbn in H; [|discriminate].
  destruct (mapM _ _) as [res|] eqn:Emap; cbn in H; [|discriminate].
  simplify_eq.
  destruct (Sync.mapM_elem _ _ _ _ Emap Hth) as (c & Hc & Hget).
  destruct (select_for_peer_spec _ _ set_iter_mem _ _ _ _ Esel)
    as (pb & sh & _ & Hsent & Hsh).
  rewrite Hsent in Hc. apply set_iter_mem, Hsh in Hc.
  destruct Hc as (_ & _ & th' & reason & Hget' & Hshare).
  assert (th' = th) by congruence. subst th'.
  exists c. split; [exact Hget|]. unfold decision. now rewrite Hshare.
Qed.

(** X15. A pool-scoped thought is sent only to a member of its pool or to a
    peer the pool is shared with. *)
Theorem pool_thought_needs_access (n : WellspringNodeV2) (hex peer_cid : string)
    (result : list thought) (st : sync_stats) (th : thought) (pool_cid : string) :
  get_missing_for_peer mmh3_hash set_iter n hex peer_cid = Some (result, st) ->
  th ∈ result ->
  t_visibility th = Some ("pool:" ++ pool_cid)%string ->
  peer_cid ∈ default ∅ (pool_memberships n !! pool_cid)
  \/ pool_cid ∈ get_shared_pools n peer_cid.
Proof.
  intros H Hth Hv. destruct (sent_shareable _ _ _ _ _ _ H Hth) as (cid & _ & Hd).
  rewrite (decision_pool n th peer_cid pool_cid Hv) in Hd.
  injection Hd as Hd. apply orb_true_iff in Hd as [Hd|Hd];
    apply bool_decide_eq_true in Hd; auto.
Qed.

(** ** The selection returns *)

Lemma can_share_total (n : WellspringNodeV2) (th : thought) (peer_cid : string)
    (ps : list json) :
  participants th = JList ps -> is_Some (_can_share_with_peer n th peer_cid).
Proof.
  intros Hps. unfold _can_share_with_peer. rewrite Hps.
  destruct (t_visibility th) as [v|]; [|eauto].
  repeat match goal with
         | |- is_Some (if ?c then _ else _) => destruct c
         | |- is_Some (Some _) => eauto
         end.
  cbn -[py_eq]. destruct (existsb _ ps); cbn -[py_eq]; [eauto|].
  destruct (existsb _ ps); eauto.
Qed.

Lemma v2_missing_pass_total (peer_bloom : Bloom.BloomFilter) (cids : list string) :
  Bloom.wf peer_bloom ->
  forall acc st, is_Some (missing_pass mmh3_hash peer_bloom cids acc st).
Proof.
  intros Hwf. induction cids as [|cid rest IH]; intros acc st; cbn; [eauto|].
  destruct (NodeSync.maybe_contains_total mmh3_hash peer_bloom cid Hwf) as [b ->].
  cbn. destruct b; apply IH.
Qed.

(** [lists n]: the ["participants"] of every stored thought is a list. *)
Definition lists (n : WellspringNodeV2) : Prop :=
  forall cid th, dict_get (thoughts n) cid = Some th ->
    exists ps, participants th = JList ps.

Lemma visibility_pass_total (n : WellspringNodeV2) (peer_cid : string)
    (cids : list string) :
  lists n -> (forall c, c ∈ cids -> c ∈ dict_keys (thoughts n)) ->
  forall acc st f, is_Some (visibility_pass n peer_cid cids acc st f).
Proof.
  intros Hl. induction cids as [|cid rest IH]; intros Hin acc st f; cbn; [eauto|].
  assert (Hrest : forall c, c ∈ rest -> c ∈ dict_keys (thoughts n)).
  { intros c Hc. apply Hin. now apply list_elem_of_further. }
  destruct (proj1 (NodeStore.dict_mem_get (thoughts n) cid)) as [th Hth].
  { apply dict_mem_true, Hin, list_elem_of_here. }
  rewrite Hth. cbn. destruct (Hl _ _ Hth) as [ps Hps].
  destruct (can_share_total n th peer_cid ps Hps) as [[b r] ->]. cbn.
  destruct b; now apply IH.
Qed.

Lemma v2_identity_pass_total (n : WellspringNodeV2) (peer_bloom : Bloom.BloomFilter)
    (peer_cid : string) (cids : list string) :
  Bloom.wf peer_bloom -> lists n ->
  (forall c, c ∈ cids -> c ∈ dict_keys (thoughts n)) ->
  forall acc, is_Some (identity_pass mmh3_hash n peer_bloom peer_cid cids acc).
Proof.
  intros Hwf Hl. induction cids as [|cid rest IH]; intros Hin acc; cbn; [eauto|].
  assert (Hrest : forall c, c ∈ rest -> c ∈ dict_keys (thoughts n)).
  { intros c Hc. apply Hin. now apply list_elem_of_further. }
  destruct (proj1 (NodeStore.dict_mem_get (thoughts n) cid)) as [th Hth].
  { apply dict_mem_true, Hin, list_elem_of_here. }
  rewrite Hth. cbn.
  destruct (negb _ && dict_mem (thoughts n) (t_created_by th)) eqn:Eg; [|now apply IH].
  apply andb_true_iff in Eg as [_ Hmem].
  destruct (NodeSync.maybe_contains_total mmh3_hash peer_bloom (t_created_by th) Hwf)
    as [b ->].
  cbn. destruct b; [now apply IH|].
  apply NodeStore.dict_mem_get in Hmem as [ith Hith]. rewrite Hith. cbn.
  destruct (Hl _ _ Hith) as [ps Hps].
  destruct (can_share_total n ith peer_cid ps Hps) as [[b r] ->]. cbn.
  now apply IH.
Qed.

Lemma select_total (n : WellspringNodeV2) (hex peer_cid : string)
    (f : Bloom.BloomFilter) :
  Bloom.from_hex hex Bloom.default_size Bloom.default_hash_count = Some f ->
  Bloom.wf f -> lists n ->
  exists sel sh,
    select_for_peer mmh3_hash set_iter n hex peer_cid = Some sel
    /\ sent_cids sel = set_iter sh
    /\ forall c, c ∈ sh <->
         c ∈ dict_keys (thoughts n)
         /\ Bloom.maybe_contains mmh3_hash f c = Some false
         /\ shareable n peer_cid c.
Proof.
  intros Hhex Hwf Hl.
  destruct (select_for_peer mmh3_hash set_iter n hex peer_cid) as [sel|] eqn:E.
  { destruct (select_for_peer_spec _ _ set_iter_mem _ _ _ _ E)
      as (pb & sh & Hpb & Hsent & Hsh).
    assert (pb = f) by congruence. subst pb. now exists sel, sh. }
  exfalso. unfold select_for_peer in E. rewrite Hhex in E. cbn in E.
  destruct (v2_missing_pass_total f (dict_keys (thoughts n)) Hwf [] empty_stats)
    as [[m st1] Hm].
  rewrite Hm in E. cbn in E.
  assert (Hmk : forall c, c ∈ set_iter m -> c ∈ dict_keys (thoughts n)).
  { intros c Hc. apply (proj1 (set_iter_mem _ _)) in Hc.
    apply (proj1 (missing_pass_spec _ _ _ _ _ _ _ Hm c)) in Hc as [Hc|[Hc _]];
      [inversion Hc | exact Hc]. }
  destruct (visibility_pass_total n peer_cid (set_iter m) Hl Hmk [] st1
              (filtered_count n)) as [[[sh st2] fl] Hv].
  rewrite Hv in E. cbn in E.
  assert (Hsk : forall c, c ∈ set_iter sh -> c ∈ dict_keys (thoughts n)).
  { intros c Hc. apply (proj1 (set_iter_mem _ _)) in Hc.
    apply (proj1 (visibility_pass_spec _ _ _ _ _ _ _ _ _ Hv c)) in Hc as [Hc|[Hc _]];
      [inversion Hc | now apply Hmk]. }
  destruct (v2_identity_pass_total n f peer_cid (set_iter sh) Hwf Hl Hsk [])
    as [needed Hi].
  rewrite Hi in E. discriminate.
Qed.

Lemma mapM_fetched (store : list (string * thought)) (cids : list string)
    (ths : list thought) (c : string) (th : thought) :
  mapM (dict_get store) cids = Some ths -> c ∈ cids -> dict_get store c = Some th ->
  th ∈ ths.
Proof. exact (NodeSync.fetched store cids ths c th). Qed.

(** X16. Once a pool is shared with a peer, a thought of that pool that the
    peer's filter does not report is in what [get_missing_for_peer] returns
    for the peer. *)
Theorem peering_opens_pool (n : WellspringNodeV2) (peer_cid : string)
    (shared_pools : list string) (hex : string) (f : Bloom.BloomFilter)
    (pool_cid cid : string) (th : thought) :
  Bloom.from_hex hex Bloom.default_size Bloom.default_hash_count = Some f ->
  Bloom.wf f ->
  (forall c t, dict_get (thoughts n) c = Some t -> exists ps, participants t = JList ps) ->
  pool_cid ∈ shared_pools ->
  dict_get (thoughts n) cid = Some th ->
  t_visibility th = Some ("pool:" ++ pool_cid)%string ->
  Bloom.maybe_contains mmh3_hash f cid = Some false ->
  exists result st,
    get_missing_for_peer mmh3_hash set_iter (establish_peering n peer_cid shared_pools)
      hex peer_cid = Some (result, st)
    /\ th ∈ result.
Proof.
  intros Hhex Hwf Hl Hpool Hget Hv Hmiss.
  set (n' := establish_peering n peer_cid shared_pools).
  destruct (select_total n' hex peer_cid f Hhex Hwf Hl) as (sel & sh & Hsel & Hsent & Hsh).
  assert (Hin : cid ∈ sent_cids sel).
  { rewrite Hsent. apply set_iter_mem, Hsh. split.
    { apply dict_mem_true. now apply dict_get_mem in Hget. }
    split; [exact Hmiss|].
    destruct (_can_share_with_peer n' th peer_cid) as [[b r]|] eqn:Ec.
    - pose proof (peering_shares_pool n peer_cid shared_pools th pool_cid Hpool Hv)
        as Hg.
      unfold decision in Hg. fold n' in Hg. rewrite Ec in Hg. cbn in Hg.
      exists th, r. split; [exact Hget|]. congruence.
    - destruct (Hl _ _ Hget) as [ps Hps].
      destruct (can_share_total n' th peer_cid ps Hps) as [x Hx]. congruence. }
  unfold get_missing_for_peer. rewrite Hsel. cbn.
  change (thoughts n') with (thoughts n) in *.
  destruct (mapM (dict_get (thoughts n)) (sent_cids sel)) as [res|] eqn:Emap.
  - cbn. exists res, (stats sel). split; [reflexivity|].
    exact (mapM_fetched _ _ _ _ _ Emap Hin Hget).
  - exfalso. apply mapM_None in Emap. apply Exists_exists in Emap as (c & Hc & Hnone).
    rewrite Hsent in Hc. apply set_iter_mem, Hsh in Hc as (Hk & _).
    apply dict_mem_true, NodeStore.dict_mem_get in Hk as [v Hv']. congruence.
Qed.

(** ** The statistics *)

Lemma set_add_fresh (s : list string) (x : string) : x ∉ s -> set_add s x = s ++ [x].
Proof.
  intros Hx. unfold set_add. destruct (set_mem s x) eqn:E; [|reflexivity].
  now apply set_mem_true in E.
Qed.





End Selection.

Section Provenance.

Variable json_dumps : json -> string.
Variable sha256_hexdigest : string -> string.
Variable b64encode : list Z -> string.
Variable ed25519_sign : list Z -> string -> list Z.
Variable mmh3_hash : string -> Z -> Z.
Variable set_iter : list string -> list string.
Hypothesis set_iter_perm : forall l, set_iter l ≡ₚ l.

(** [_record_received_via]; the clock is read twice, for ["received_at"]
    and for the thought's own [created_at]. The provenance thought goes
    into the store and the filter directly. *)
Definition _record_received_via (n : WellspringNodeV2) (private_key : list Z)
    (thought_cid sender_cid received_at now : string) : option WellspringNodeV2 :=
  let provenance :=
    sign json_dumps sha256_hexdigest b64encode ed25519_sign
      (new "connection"
         [("connection_type"%string, JStr "received_via");
          ("thought"%string, JStr thought_cid);
          ("via"%string, JStr sender_cid);
          ("received_at"%string, JStr received_at)]
         (self_cid n) [thought_cid; sender_cid] (Some "local_forever"%string) now)
      private_key in
  cid ← Signed.cid provenance;
  d ← to_dict provenance;
  bloom' ← Bloom.add mmh3_hash (bloom n) cid;
  Some (mkNode (self_cid n) (dict_set (thoughts n) cid d) (pubkeys n) bloom'
          (pool_memberships n) (peer_shared_pools n) (known_peers n)
          (<[thought_cid := sender_cid]> (received_via n)) (filtered_count n)).

(** X18. Recording where a thought came from: the sender is what
    [get_provenance] answers afterwards, and the record is a thought of
    the node's own, in its store and its filter, that no selection for any
    peer ever contains. *)
Theorem provenance_stays_local (n : WellspringNodeV2) (private_key : list Z)
    (thought_cid sender_cid received_at now : string) :
  Bloom.wf (bloom n) ->
  exists n' p,
    _record_received_via n private_key thought_cid sender_cid received_at now = Some n'
    /\ get_provenance n' thought_cid = Some sender_cid
    /\ dict_get (thoughts n') (t_cid p) = Some p
    /\ t_type p = "connection"%string
    /\ t_created_by p = self_cid n
    /\ t_because p = [thought_cid; sender_cid]
    /\ t_visibility p = Some "local_forever"%string
    /\ Bloom.maybe_contains mmh3_hash (bloom n') (t_cid p) = Some true
    /\ (forall cid, cid <> t_cid p ->
          dict_get (thoughts n') cid = dict_get (thoughts n) cid)
    /\ (forall hex peer_cid result st,
          get_missing_for_peer mmh3_hash set_iter n' hex peer_cid = Some (result, st) ->
          p ∉ result).
Proof.
  intros Hwf. unfold _record_received_via. cbv zeta.
  set (t := sign _ _ _ _ _ private_key).
  assert (Hex : exists p, to_dict t = Some p /\ Signed.cid t = Some (t_cid p)
                 /\ t_type p = "connection"%string /\ t_created_by p = self_cid n
                 /\ t_because p = [thought_cid; sender_cid]
                 /\ t_visibility p = Some "local_forever"%string).
  { eexists. split; [reflexivity|]. cbn. auto. }
  destruct Hex as (p & Ep & Hc & Hfields).
  destruct Hfields as (Hty & Hcb & Hbc & Hvis).
  rewrite Hc, Ep. cbn [mbind option_bind].
  destruct (Bloom.add_spec mmh3_hash (bloom n) (t_cid p) Hwf)
    as (f & Hadd & Hwf' & _ & _ & Hrec & _).
  rewrite Hadd. cbn [mbind option_bind].
  eexists _, p. split; [reflexivity|]. unfold get_provenance.
  cbn [received_via thoughts bloom].
  split; [apply lookup_insert_eq|].
  split; [apply Thoughts.dict_get_set_eq|].
  split; [exact Hty|]. split; [exact Hcb|]. split; [exact Hbc|]. split; [exact Hvis|].
  split; [now apply Bloom.recorded_maybe_contains|].
  split; [intros cid Hne; now apply NodeStore.dict_get_set_ne|].
  intros hex peer_cid result st Hsel Hin.
  destruct (sent_shareable mmh3_hash set_iter set_iter_perm _ _ _ _ _ _ Hsel Hin)
    as (cid & _ & Hd).
  unfold decision in Hd.
  rewrite (can_share_local_forever _ p peer_cid Hvis) in Hd. discriminate.
Qed.

End Provenance.

(** ** A store with a pool thought

    Alice's store with a note scoped to the pool ["pool_x"], first on a
    node where Bob is a member of the pool, then on one where he is not. *)
Definition pool_store : list (string * thought) :=
  dict_set Sync.store "baf_pooled_note" Sync.pooled_note.

Definition pool_node : WellspringNodeV2 :=
  mkNode "baf_alice_identity" pool_store ∅
    (Bloom.init Bloom.default_size Bloom.default_hash_count)
    {["pool_x"%string := ({["baf_bob"%string]} : gset string)]} ∅ ∅ ∅ 0.

Definition closed_node : WellspringNodeV2 :=
  mkNode "baf_alice_identity" pool_store ∅
    (Bloom.init Bloom.default_size Bloom.default_hash_count) ∅ ∅ ∅ ∅ 0.

Definition select_toy (n : WellspringNodeV2) (peer_cid : string)
  : option (list thought * sync_stats) :=
  get_missing_for_peer Sync.toy_hash Sync.insertion_order n Sync.empty_filter_hex peer_cid.

Lemma pool_store_lists (c : string) (t : thought) :
  dict_get pool_store c = Some t -> exists ps, participants t = JList ps.
Proof.
  intros H. apply TrustNet.dict_get_elem in H. vm_compute in H.
  repeat (apply elem_of_cons in H as [H|H];
          [injection H as _ ->; eexists; vm_compute; reflexivity|]).
  inversion H.
Qed.

Lemma pool_thought_needs_access_witness :
  match select_toy pool_node "baf_bob" with
  | Some _ =>
      "baf_bob"%string ∈ default ∅ (pool_memberships pool_node !! "pool_x"%string)
      \/ "pool_x"%string ∈ get_shared_pools pool_node "baf_bob"
  | None => False
  end.
Proof.
  unfold select_toy.
  destruct (get_missing_for_peer Sync.toy_hash Sync.insertion_order pool_node
              Sync.empty_filter_hex "baf_bob") as [[result st]|] eqn:E.
  - apply (pool_thought_needs_access Sync.toy_hash Sync.insertion_order
             NodeSync.insertion_order_perm pool_node Sync.empty_filter_hex "baf_bob"
             result st Sync.pooled_note "pool_x" E).
    + pose proof E as E'. vm_compute in E'. injection E' as <- _.
      repeat (first [apply list_elem_of_here | apply list_elem_of_further]).
    + reflexivity.
  - vm_compute in E. discriminate.
Defined.

Lemma peering_opens_pool_witness :
  exists result st,
    get_missing_for_peer Sync.toy_hash Sync.insertion_order
      (establish_peering closed_node "baf_bob" ["pool_x"%string])
      Sync.empty_filter_hex "baf_bob" = Some (result, st)
    /\ Sync.pooled_note ∈ result.
Proof.
  apply (peering_opens_pool Sync.toy_hash Sync.insertion_order
           NodeSync.insertion_order_perm closed_node "baf_bob" ["pool_x"%string]
           Sync.empty_filter_hex
           (Bloom.init Bloom.default_size Bloom.default_hash_count)
           "pool_x" "baf_pooled_note" Sync.pooled_note).
  - vm_compute. reflexivity.
  - apply Bloom.init_wf. reflexivity.
  - exact pool_store_lists.
  - apply list_elem_of_here.
  - vm_compute. reflexivity.
  - reflexivity.
  - vm_compute. reflexivity.
Defined.


(** What Carol is sent from there: the identity and the public note, two
    of the four thoughts; the secret and the pool note are withheld. *)
Lemma carol_selection :
  select_toy pool_node "baf_carol"
  = Some ([Sync.alice_identity; Sync.note], mkStats 4 4 1 1 0 2).
Proof. vm_compute. reflexivity. Qed.

Lemma provenance_stays_local_witness :
  exists n' p,
    _record_received_via Toy.dumps Toy.digest_rev bytes_hex Toy.sign Sync.toy_hash
      pool_node NodeStore.carol_key "baf_note" "baf_bob" "2026-03-01T00:00:00"
      "2026-03-01T00:00:01" = Some n'
    /\ get_provenance n' "baf_note" = Some "baf_bob"%string
    /\ dict_get (thoughts n') (t_cid p) = Some p
    /\ t_type p = "connection"%string
    /\ t_created_by p = self_cid pool_node
    /\ t_because p = ["baf_note"%string; "baf_bob"%string]
    /\ t_visibility p = Some "local_forever"%string
    /\ Bloom.maybe_contains Sync.toy_hash (bloom n') (t_cid p) = Some true
    /\ (forall cid, cid <> t_cid p ->
          dict_get (thoughts n') cid = dict_get (thoughts pool_node) cid)
    /\ (forall hex peer_cid result st,
          get_missing_for_peer Sync.toy_hash Sync.insertion_order n' hex peer_cid
            = Some (result, st) ->
          p ∉ result).
Proof.
  apply (provenance_stays_local Toy.dumps Toy.digest_rev bytes_hex Toy.sign
           Sync.toy_hash Sync.insertion_order NodeSync.insertion_order_perm pool_node).
  apply Bloom.init_wf. reflexivity.
Defined.

End Pools.

(* ===================================================================== *)
(** * Identities and signed thoughts of [thread-3/core.py] *)
(* ===================================================================== *)

Module CoreKeys.
Import Py Core.

(** ** The ["ed25519:"] marker on a hexadecimal key *)

Definition colon : ascii := ":"%char.

Lemma hexdigit_not_colon (n : Z) : 0 <= n < 16 -> hexdigit n <> colon.
Proof.
  revert n. apply (below_cases 16). intros k Hk.
  do 16 (destruct k as [|k]; [discriminate|]). lia.
Qed.

Lemma bytes_hex_no_colon (bs : list Z) :
  Forall (fun b => 0 <= b < 256) bs ->
  colon ∉ list_ascii_of_string (bytes_hex bs).
Proof.
  induction 1 as [|b bs Hb _ IH]; cbn [bytes_hex list_ascii_of_string].
  - intros H. inversion H.
  - intros H. apply elem_of_cons in H as [H|H].
    { symmetry in H. revert H. apply hexdigit_not_colon.
      split; [apply Z.div_pos; lia | apply Z.div_lt_upper_bound; lia]. }
    apply elem_of_cons in H as [H|H]; [|now apply IH].
    symmetry in H. revert H. apply hexdigit_not_colon. apply Z.mod_pos_bound. lia.
Qed.

Lemma prefix_marker (s : string) :
  String.prefix "ed25519:" s = true -> colon ∈ list_ascii_of_string s.
Proof.
  intros H.
  repeat match type of H with
         | String.prefix (String _ _) ?v = true =>
             destruct v as [|? ?]; cbn [String.prefix] in H; [discriminate|]
         | (if ?c then _ else _) = true => destruct c as [<-|]; [|discriminate]
         end.
  cbn. do 7 apply list_elem_of_further. apply list_elem_of_here.
Qed.

Lemma str_remove_aux_clean (s : string) :
  colon ∉ list_ascii_of_string s ->
  forall fuel, str_remove_aux fuel "ed25519:" s = s.
Proof.
  induction s as [|c rest IH]; intros Hs fuel; destruct fuel as [|fuel];
    cbn [str_remove_aux]; try reflexivity.
  destruct (String.prefix "ed25519:" (String c rest)) eqn:Ep.
  { now apply prefix_marker in Ep. }
  f_equal. apply IH. intros Hin. apply Hs. cbn. now apply list_elem_of_further.
Qed.

(** [("ed25519:" + hex).replace("ed25519:", "")] is [hex]. *)
Lemma str_remove_marker (bs : list Z) :
  Forall (fun b => 0 <= b < 256) bs ->
  str_remove "ed25519:" ("ed25519:" ++ bytes_hex bs) = bytes_hex bs.
Proof.
  intros Hbs. unfold str_remove.
  change ("ed25519:" +:+ bytes_hex bs)%string
    with (String "e" (String "d" (String "2" (String "5" (String "5"
            (String "1" (String "9" (String ":" (bytes_hex bs))))))))).
  cbn [String.length]. set (fuel := (7 + String.length (bytes_hex bs))%nat).
  change (S (S (S (S (S (S (S (S (String.length (bytes_hex bs))))))))))
    with (S fuel).
  cbn [str_remove_aux].
  replace (String.prefix "ed25519:" _) with true.
  2:{ cbn. now destruct (bytes_hex bs). }
  cbn [str_drop String.length]. now apply str_remove_aux_clean, bytes_hex_no_colon.
Qed.

Section WithLibraries.

Variable json_dumps_canonical : json -> string.
Variable blake3_hexdigest : string -> string.
Variable nacl_signing_key : string -> option (list Z).
Variable nacl_sign : list Z -> string -> list Z.
Variable nacl_verify_key : string -> option (list Z).
Variable nacl_verify : list Z -> string -> list Z -> bool.
(** [signing_key.verify_key], as its bytes. *)
Variable verify_key_of : list Z -> list Z.

(** [create_identity], given the key [SigningKey.generate()] draws;
    [encode(encoder=HexEncoder)] is the hexadecimal form of the bytes. *)
Definition create_identity (name : string) (signing_key : list Z) : Identity :=
  let privkey_hex := bytes_hex signing_key in
  let pubkey_hex := bytes_hex (verify_key_of signing_key) in
  let identity_content :=
    JObj [("type"%string, JStr "identity"); ("name"%string, JStr name);
          ("pubkey"%string, JStr ("ed25519:" ++ pubkey_hex))] in
  mkIdentity name ("ed25519:" ++ pubkey_hex)
    (compute_cid json_dumps_canonical blake3_hexdigest identity_content)
    (Some privkey_hex).

(** [create_connection]; [because or [from_cid, to_cid]]. *)
Definition create_connection (from_cid to_cid relation : string) (identity : Identity)
    (because : option (list string)) (now : Z) : option Thought :=
  create_thought json_dumps_canonical blake3_hexdigest nacl_signing_key nacl_sign
    (JObj [("from"%string, JStr from_cid); ("to"%string, JStr to_cid);
           ("relation"%string, JStr relation)])
    "connection" identity
    (match because with
     | Some (c :: rest) => c :: rest
     | _ => [from_cid; to_cid]
     end)
    None None now.

(** The key [sk] as PyNaCl handles it: the hexadecimal encoder decodes what
    it encoded, a signature made with the key verifies under its verify
    key, and keys and signatures are strings of bytes. *)
Variable sk : list Z.
Hypothesis sk_bytes : sk <> [] /\ Forall (fun b => 0 <= b < 256) sk.
Hypothesis vk_bytes : Forall (fun b => 0 <= b < 256) (verify_key_of sk).
Hypothesis sig_bytes : forall msg, Forall (fun b => 0 <= b < 256) (nacl_sign sk msg).
Hypothesis signing_key_decodes : nacl_signing_key (bytes_hex sk) = Some sk.
Hypothesis verify_key_decodes :
  nacl_verify_key (bytes_hex (verify_key_of sk)) = Some (verify_key_of sk).
Hypothesis verify_sign : forall msg,
  nacl_verify (verify_key_of sk) msg (nacl_sign sk msg) = true.

Lemma created_verifies (name : string) (content : json) (thought_type : string)
    (because : list string) (visibility source : option string) (now : Z) :
  exists t,
    create_thought json_dumps_canonical blake3_hexdigest nacl_signing_key nacl_sign
      content thought_type (create_identity name sk) because visibility source now
      = Some t
    /\ verify_signature nacl_verify_key nacl_verify t
         (pubkey (create_identity name sk)) = true
    /\ created_by t = id_cid (create_identity name sk)
    /\ Core.type t = thought_type /\ Core.content t = content
    /\ Core.because t = because
    /\ cid t = compute_cid json_dumps_canonical blake3_hexdigest
                 (JObj (signable thought_type content (id_cid (create_identity name sk))
                                 now because visibility source)).
Proof.
  unfold create_thought, sign_content.
  cbn [_privkey create_identity].
  assert (Ht : truthy (Some (bytes_hex sk)) = true).
  { destruct sk_bytes as [Hne _]. destruct sk as [|b rest]; [congruence|reflexivity]. }
  rewrite Ht. cbn [default from_option id]. unfold id.
  rewrite signing_key_decodes.
  cbn [mbind option_bind]. eexists. split; [reflexivity|].
  split; [|cbn; auto].
  unfold verify_signature, create_identity. cbn [pubkey signature cid].
  rewrite (str_remove_marker _ vk_bytes), verify_key_decodes.
  rewrite bytes_fromhex_hex by apply sig_bytes. apply verify_sign.
Qed.

(** X19. A thought made with a newly created identity verifies under that
    identity's public key: [create_thought] returns, the thought is by the
    identity, and [verify_signature] accepts it. *)
Theorem created_thought_verifies (name : string) (content : json)
    (thought_type : string) (because : list string)
    (visibility source : option string) (now : Z) :
  exists t,
    create_thought json_dumps_canonical blake3_hexdigest nacl_signing_key nacl_sign
      content thought_type (create_identity name sk) because visibility source now
      = Some t
    /\ verify_signature nacl_verify_key nacl_verify t
         (pubkey (create_identity name sk)) = true
    /\ created_by t = id_cid (create_identity name sk)
    /\ Core.type t = thought_type /\ Core.content t = content
    /\ Core.because t = because.
Proof.
  destruct (created_verifies name content thought_type because visibility source now)
    as (t & Ht & Hv & Hcb & Hty & Hco & Hbc & _).
  exists t. repeat split; assumption.
Qed.

(** X20. A connection made without reasons, or with an empty list of them,
    cites its two ends; it is of type ["connection"] and verifies under the
    identity's key. *)
Theorem connection_cites_its_ends (name from_cid to_cid relation : string)
    (because : option (list string)) (now : Z) :
  because = None \/ because = Some [] ->
  exists t,
    create_connection from_cid to_cid relation (create_identity name sk) because now
      = Some t
    /\ Core.because t = [from_cid; to_cid]
    /\ Core.type t = "connection"%string
    /\ dict_get (match Core.content t with JObj o => o | _ => [] end) "from"
       = Some (JStr from_cid)
    /\ dict_get (match Core.content t with JObj o => o | _ => [] end) "to"
       = Some (JStr to_cid)
    /\ verify_signature nacl_verify_key nacl_verify t
         (pubkey (create_identity name sk)) = true.
Proof.
  intros Hb. unfold create_connection.
  destruct (created_verifies name
              (JObj [("from"%string, JStr from_cid); ("to"%string, JStr to_cid);
                     ("relation"%string, JStr relation)])
              "connection" [from_cid; to_cid] None None now)
    as (t & Ht & Hv & _ & Hty & Hco & Hbc & _).
  exists t. destruct Hb as [-> | ->]; (split; [exact Ht|]); rewrite Hco; cbn; auto.
Qed.

End WithLibraries.

(** ** With the stand-in libraries *)

Definition dana_key : list Z := [218; 10].

Definition dana : Identity := create_identity Toy.dumps Toy.digest id "Dana" dana_key.

Lemma dana_key_bytes : dana_key <> [] /\ Forall (fun b => 0 <= b < 256) dana_key.
Proof. split; [discriminate | repeat constructor; lia]. Qed.

Lemma toy_key_decodes (key : list Z) :
  Forall (fun b => 0 <= b < 256) key -> Toy.key_of_hex (bytes_hex key) = Some key.
Proof. apply bytes_fromhex_hex. Qed.

Lemma toy_sign_bytes (key : list Z) (msg : string) :
  Forall (fun b => 0 <= b < 256) key ->
  Forall (fun b => 0 <= b < 256) (Toy.sign key msg).
Proof.
  intros Hkey. apply Forall_app. split; [exact Hkey|]. apply NodeCreate.str_bytes_range.
Qed.

Lemma created_thought_verifies_witness :
  exists t,
    create_thought Toy.dumps Toy.digest Toy.key_of_hex Toy.sign
      (JStr "hello") "note" dana [] None None 1700000000000 = Some t
    /\ verify_signature Toy.key_of_hex (fun key msg sig => Toy.verify key sig msg)
         t (pubkey dana) = true
    /\ created_by t = id_cid dana
    /\ Core.type t = "note"%string /\ Core.content t = JStr "hello"
    /\ Core.because t = [].
Proof.
  apply (created_thought_verifies Toy.dumps Toy.digest Toy.key_of_hex Toy.sign
           Toy.key_of_hex (fun key msg sig => Toy.verify key sig msg) id dana_key).
  - exact dana_key_bytes.
  - apply dana_key_bytes.
  - intros msg. apply toy_sign_bytes, dana_key_bytes.
  - apply toy_key_decodes, dana_key_bytes.
  - apply toy_key_decodes, dana_key_bytes.
  - intros msg. apply NodeCreate.toy_verify_sign.
Defined.

Lemma connection_cites_its_ends_witness :
  exists t,
    create_connection Toy.dumps Toy.digest Toy.key_of_hex Toy.sign
      "cid:blake3:a" "cid:blake3:b" "supports" dana (Some []) 1700000000000
      = Some t
    /\ Core.because t = ["cid:blake3:a"%string; "cid:blake3:b"%string]
    /\ Core.type t = "connection"%string
    /\ dict_get (match Core.content t with JObj o => o | _ => [] end) "from"
       = Some (JStr "cid:blake3:a")
    /\ dict_get (match Core.content t with JObj o => o | _ => [] end) "to"
       = Some (JStr "cid:blake3:b")
    /\ verify_signature Toy.key_of_hex (fun key msg sig => Toy.verify key sig msg)
         t (pubkey dana) = true.
Proof.
  apply (connection_cites_its_ends Toy.dumps Toy.digest Toy.key_of_hex Toy.sign
           Toy.key_of_hex (fun key msg sig => Toy.verify key sig msg) id dana_key).
  - exact dana_key_bytes.
  - apply dana_key_bytes.
  - intros msg. apply toy_sign_bytes, dana_key_bytes.
  - apply toy_key_decodes, dana_key_bytes.
  - apply toy_key_decodes, dana_key_bytes.
  - intros msg. apply NodeCreate.toy_verify_sign.
  - now right.
Defined.

End CoreKeys.

(* ===================================================================== *)
(** * Scores and the cache of the trust graph with repeaters *)
(* ===================================================================== *)

Module RepeaterScores.
Import Py Repeaters.

(** ** The cache *)

(** X21. A score computed for a pair from a source with out-edges is cached
    under the pair and [use_repeaters], and every later call for the pair
    returns it: whatever domain, decay, visited set and depth that call
    passes. *)
Theorem cached_score_wins (g : TrustGraphWithRepeaters) (O T : string)
    (use_repeaters : bool) (domain domain' : option string)
    (visited visited' : list string) (depth depth' : nat) (decay decay' : Q) :
  O <> T -> (depth <= 10)%nat -> O ∉ visited -> dict_mem (edges g) O = true ->
  (compute_trust g O T use_repeaters domain visited depth decay).2
    !! (O, T, use_repeaters)
  = Some (compute_trust g O T use_repeaters domain visited depth decay).1
  /\ compute_trust
       (mkGraph (edges g) (repeaters g)
          (compute_trust g O T use_repeaters domain visited depth decay).2)
       O T use_repeaters domain' visited' depth' decay'
     = compute_trust g O T use_repeaters domain visited depth decay.
Proof.
  intros Hne Hdepth Hvis Hout.
  assert (Hkey : (compute_trust g O T use_repeaters domain visited depth decay).2
                   !! (O, T, use_repeaters)
                 = Some (compute_trust g O T use_repeaters domain visited depth decay).1).
  { unfold compute_trust.
    destruct (11 - depth)%nat as [|budget] eqn:Eb; [lia|].
    cbn [compute_trust_at].
    apply String.eqb_neq in Hne. rewrite Hne.
    destruct (cache g !! (O, T, use_repeaters)) as [cached|] eqn:Ec; [exact Ec|].
    destruct (set_mem visited O) eqn:Ev.
    { apply set_mem_true in Ev. contradiction. }
    match goal with
    | |- (let '(shortcut, c) := ?s in _).2 !! _ = _ => destruct s as [[final|] c1]
    end.
    { cbn. apply lookup_insert_eq. }
    apply NodeStore.dict_mem_get in Hout as [out Hget]. rewrite Hget.
    destruct (dict_get out T) as [trust|]; [cbn; apply lookup_insert_eq|].
    destruct (foldl _ _ out) as [best c2]. cbn. apply lookup_insert_eq. }
  split; [exact Hkey|].
  destruct (compute_trust g O T use_repeaters domain visited depth decay) as [s c'].
  cbn [fst snd] in *. unfold compute_trust. cbn [edges repeaters cache].
  apply String.eqb_neq in Hne.
  destruct (11 - depth')%nat; cbn [compute_trust_at]; now rewrite Hne, Hkey.
Qed.

(** ** Scores between zero and one *)

Definition unit_score (x : Q) : Prop := (0 <= x <= 1)%Q.

Definition unit_cache (c : gmap (string * string * bool) Q) : Prop :=
  forall k v, c !! k = Some v -> unit_score v.

Definition unit_call (r : Q * gmap (string * string * bool) Q) : Prop :=
  unit_score r.1 /\ unit_cache r.2.

Definition unit_edges (e : list (string * list (string * Q))) : Prop :=
  forall a out, dict_get e a = Some out -> Forall (fun x => unit_score x.2) out.

Lemma unit_cache_insert (c : gmap (string * string * bool) Q)
    (k : string * string * bool) (v : Q) :
  unit_cache c -> unit_score v -> unit_cache (<[k := v]> c).
Proof.
  intros Hc Hv k' v'. destruct (decide (k = k')) as [->|Hne].
  - rewrite lookup_insert_eq. now intros [= <-].
  - rewrite lookup_insert_ne by exact Hne. apply Hc.
Qed.

Lemma unit_zero : unit_score 0.
Proof. unfold unit_score. lra. Qed.

Lemma unit_one : unit_score 1.
Proof. unfold unit_score. lra. Qed.

Lemma unit_mult (x y : Q) : unit_score x -> unit_score y -> unit_score (x * y).
Proof. unfold unit_score. intros Hx Hy. nra. Qed.

Section Bounds.

Variable edge_map : list (string * list (string * Q)).
Variable repeater_map : list (string * list (string * list string)).
Variable decay : Q.
Hypothesis decay_unit : unit_score decay.
Hypothesis edges_unit : unit_edges edge_map.

Lemma transitive_fold_unit
    (rec : gmap (string * string * bool) Q -> string -> list string
           -> Q * gmap (string * string * bool) Q)
    (visited : list string) :
  (forall c i v, unit_cache c -> unit_call (rec c i v)) ->
  forall out, Forall (fun x => unit_score x.2) out ->
  forall best c, unit_score best -> unit_cache c ->
    unit_call (foldl (transitive_step decay rec visited) (best, c) out).
Proof.
  intros Hrec out Hout.
  induction Hout as [|[a w] out Hw _ IH]; intros best c Hb Hc; cbn [foldl];
    [now split|].
  destruct (Qltb 0 w && negb (set_mem visited a)) eqn:Ego.
  2:{ rewrite transitive_step_skip by exact Ego. now apply IH. }
  rewrite transitive_step_go by exact Ego.
  destruct (Hrec c a visited Hc) as [Ht Hc1].
  destruct (rec c a visited) as [t c1]. cbn [fst snd] in *.
  destruct (Qltb best (w * t * decay)); apply IH; auto.
  apply unit_mult; [apply unit_mult|]; assumption.
Qed.

Lemma repeater_loop_unit
    (leg : gmap (string * string * bool) Q -> string -> string
           -> Q * gmap (string * string * bool) Q)
    (from_cid to_cid : string) (domain : option string) :
  (forall c a b, unit_cache c -> unit_call (leg c a b)) ->
  forall reps c, unit_cache c ->
    (forall final, (repeater_loop leg c from_cid to_cid domain reps).1 = Some final ->
       unit_score final)
    /\ unit_cache (repeater_loop leg c from_cid to_cid domain reps).2.
Proof.
  intros Hleg reps.
  induction reps as [|[r domains] rest IH]; intros c Hc; cbn [repeater_loop].
  { split; [discriminate | exact Hc]. }
  destruct (domain_matches domain domains); [|now apply IH].
  destruct (Hleg c from_cid r Hc) as [H1 Hc1].
  destruct (leg c from_cid r) as [t1 c1]. cbn [fst snd] in *.
  destruct (Qltb 0 t1); [|now apply IH].
  destruct (Hleg c1 r to_cid Hc1) as [H2 Hc2].
  destruct (leg c1 r to_cid) as [t2 c2]. cbn [fst snd] in *.
  destruct (Qltb 0 t2); [|now apply IH].
  cbn [fst snd]. split; [|exact Hc2]. intros final [= <-]. now apply unit_mult.
Qed.

Lemma compute_trust_at_unit
    (leg : gmap (string * string * bool) Q -> string -> string
           -> Q * gmap (string * string * bool) Q)
    (use_repeaters : bool) (to_cid : string) (domain : option string) :
  (forall c a b, unit_cache c -> unit_call (leg c a b)) ->
  forall budget c from_cid visited,
    unit_cache c ->
    unit_call (compute_trust_at edge_map repeater_map decay leg use_repeaters budget c
                 from_cid to_cid domain visited).
Proof.
  intros Hleg budget.
  induction budget as [|budget IH]; intros c from_cid visited Hc;
    cbn [compute_trust_at];
    destruct (String.eqb from_cid to_cid);
    try (split; [apply unit_one | exact Hc]);
    destruct (c !! (from_cid, to_cid, use_repeaters)) as [cached|] eqn:Ek;
    try (split; [exact (Hc _ _ Ek) | exact Hc]);
    try (split; [apply unit_zero | exact Hc]).
  destruct (set_mem visited from_cid); [split; [apply unit_zero | exact Hc]|].
  assert (Hs : exists s,
             (if use_repeaters
              then match dict_get repeater_map from_cid with
                   | Some reps => repeater_loop leg c from_cid to_cid domain reps
                   | None => (None, c)
                   end
              else (None, c)) = s
             /\ (forall final, s.1 = Some final -> unit_score final)
             /\ unit_cache s.2).
  { eexists. split; [reflexivity|].
    destruct use_repeaters; [|split; [discriminate | exact Hc]].
    destruct (dict_get repeater_map from_cid) as [reps|];
      [|split; [discriminate | exact Hc]].
    now apply repeater_loop_unit. }
  destruct Hs as ([s c1] & -> & Hs & Hc1). cbn [fst snd] in Hs, Hc1.
  destruct s as [final|].
  { split; [now apply Hs | apply unit_cache_insert; [exact Hc1 | now apply Hs]]. }
  destruct (dict_get edge_map from_cid) as [out|] eqn:Eout;
    [|split; [apply unit_zero | exact Hc1]].
  pose proof (edges_unit _ _ Eout) as Hout.
  destruct (dict_get out to_cid) as [w|] eqn:Ew.
  { apply TrustNet.dict_get_elem in Ew.
    pose proof (proj1 (Forall_forall _ _) Hout _ Ew) as Hw. cbn in Hw.
    split; [exact Hw | now apply unit_cache_insert]. }
  pose proof (transitive_fold_unit
                (fun c i v => compute_trust_at edge_map repeater_map decay leg
                                use_repeaters budget c i to_cid domain v)
                (set_add visited from_cid)
                (fun c i v Hcc => IH c i v Hcc)
                out Hout 0%Q c1 unit_zero Hc1) as [Hbest Hcache].
  destruct (foldl _ (0%Q, c1) out) as [best c2]. cbn [fst snd] in *.
  split; [exact Hbest | now apply unit_cache_insert].
Qed.

End Bounds.

(** X22. With weights and decay between zero and one, and a cache that holds
    such scores, every score [compute_trust] returns lies between zero and
    one, with or without repeaters. *)
Theorem trust_between_zero_and_one (g : TrustGraphWithRepeaters)
    (from_cid to_cid : string) (use_repeaters : bool) (domain : option string)
    (visited : list string) (depth : nat) (decay : Q) :
  (0 <= decay <= 1)%Q ->
  (forall a out, dict_get (edges g) a = Some out ->
     Forall (fun x : string * Q => (0 <= x.2 <= 1)%Q) out) ->
  (forall k v, cache g !! k = Some v -> (0 <= v <= 1)%Q) ->
  (0 <= (compute_trust g from_cid to_cid use_repeaters domain visited depth decay).1
   <= 1)%Q.
Proof.
  intros Hd He Hc. unfold compute_trust.
  apply (compute_trust_at_unit (edges g) (repeaters g) decay Hd He); [|exact Hc].
  intros c a b Hcc. unfold plain_trust.
  apply (compute_trust_at_unit (edges g) (repeaters g) decay Hd He); [|exact Hcc].
  intros c0 _ _ Hc0. split; [apply unit_zero | exact Hc0].
Qed.

(** ** A graph without repeaters *)

(** Two caches that hold the same scores, one under [use_repeaters = True]
    and the other under [False]. *)
Definition mirrored (c c' : gmap (string * string * bool) Q) : Prop :=
  forall a b, c !! (a, b, true) = c' !! (a, b, false).

Lemma mirrored_insert (c c' : gmap (string * string * bool) Q) (a b : string)
    (v : Q) :
  mirrored c c' -> mirrored (<[(a, b, true) := v]> c) (<[(a, b, false) := v]> c').
Proof.
  intros Hc x y. destruct (decide ((a, b) = (x, y))) as [[= -> ->]|Hne].
  - now rewrite !lookup_insert_eq.
  - rewrite !lookup_insert_ne by congruence. apply Hc.
Qed.

Section NoRepeaters.

Variable edge_map : list (string * list (string * Q)).
Variable decay : Q.

Lemma transitive_fold_mirrored
    (rec rec' : gmap (string * string * bool) Q -> string -> list string
                -> Q * gmap (string * string * bool) Q)
    (visited : list string) :
  (forall c c' i v, mirrored c c' ->
     (rec c i v).1 = (rec' c' i v).1 /\ mirrored (rec c i v).2 (rec' c' i v).2) ->
  forall out best c c', mirrored c c' ->
    (foldl (transitive_step decay rec visited) (best, c) out).1
    = (foldl (transitive_step decay rec' visited) (best, c') out).1
    /\ mirrored (foldl (transitive_step decay rec visited) (best, c) out).2
                (foldl (transitive_step decay rec' visited) (best, c') out).2.
Proof.
  intros Hrec out.
  induction out as [|[a w] out IH]; intros best c c' Hc; cbn [foldl]; [now split|].
  destruct (Qltb 0 w && negb (set_mem visited a)) eqn:Ego.
  2:{ rewrite !transitive_step_skip by exact Ego. now apply IH. }
  rewrite !transitive_step_go by exact Ego.
  destruct (Hrec c c' a visited Hc) as [Ht Hc1].
  destruct (rec c a visited) as [t c1], (rec' c' a visited) as [t' c1'].
  cbn [fst snd] in *. subst t'.
  destruct (Qltb best (w * t * decay)); now apply IH.
Qed.

Lemma compute_trust_at_mirrored
    (leg : gmap (string * string * bool) Q -> string -> string
           -> Q * gmap (string * string * bool) Q)
    (to_cid : string) (domain : option string) :
  forall budget c c' from_cid visited,
    mirrored c c' ->
    (compute_trust_at edge_map [] decay leg true budget c from_cid to_cid domain
       visited).1
    = (compute_trust_at edge_map [] decay leg false budget c' from_cid to_cid domain
         visited).1
    /\ mirrored
         (compute_trust_at edge_map [] decay leg true budget c from_cid to_cid domain
            visited).2
         (compute_trust_at edge_map [] decay leg false budget c' from_cid to_cid domain
            visited).2.
Proof.
  induction budget as [|budget IH]; intros c c' from_cid visited Hc;
    cbn [compute_trust_at dict_get];
    destruct (String.eqb from_cid to_cid); try (now split);
    rewrite <- (Hc from_cid to_cid);
    destruct (c !! (from_cid, to_cid, true)) as [cached|]; try (now split).
  destruct (set_mem visited from_cid); [now split|].
  destruct (dict_get edge_map from_cid) as [out|]; [|now split].
  destruct (dict_get out to_cid) as [w|].
  { cbn [fst snd]. split; [reflexivity | now apply mirrored_insert]. }
  pose proof (transitive_fold_mirrored
                (fun c i v => compute_trust_at edge_map [] decay leg true budget c i
                                to_cid domain v)
                (fun c i v => compute_trust_at edge_map [] decay leg false budget c i
                                to_cid domain v)
                (set_add visited from_cid)
                (fun c c' i v Hcc => IH c c' i v Hcc)
                out 0%Q c c' Hc) as [Hbest Hcache].
  destruct (foldl _ (0%Q, c) out) as [best c2].
  destruct (foldl _ (0%Q, c') out) as [best' c2'].
  cbn [fst snd] in *. subst best'. split; [reflexivity | now apply mirrored_insert].
Qed.

End NoRepeaters.

(** X23. In a graph where nobody has designated a repeater, asking with or
    without repeaters gives the same score (from an empty cache). *)
Theorem no_repeaters_no_difference (g : TrustGraphWithRepeaters)
    (from_cid to_cid : string) (domain : option string) (visited : list string)
    (depth : nat) (decay : Q) :
  repeaters g = [] -> cache g = ∅ ->
  (compute_trust g from_cid to_cid true domain visited depth decay).1
  = (compute_trust g from_cid to_cid false domain visited depth decay).1.
Proof.
  intros Hr Hc. unfold compute_trust. rewrite Hr, Hc.
  apply compute_trust_at_mirrored. intros a b. now rewrite !lookup_empty.
Qed.

(** ** On the graph of the source's [main] *)

(** Dave's score for Dr. Chen through his climate repeater, and what he
    is told when he asks again about cooking. *)
Lemma cached_score_wins_witness :
  (compute_trust demo_graph "dave" "dr_chen" true (Some "climate"%string) [] 0
     default_decay).2 !! ("dave"%string, "dr_chen"%string, true)
  = Some (compute_trust demo_graph "dave" "dr_chen" true (Some "climate"%string) [] 0
            default_decay).1
  /\ compute_trust
       (mkGraph (edges demo_graph) (repeaters demo_graph)
          (compute_trust demo_graph "dave" "dr_chen" true (Some "climate"%string) [] 0
             default_decay).2)
       "dave" "dr_chen" true (Some "cooking"%string) [] 0 (1 # 2)
     = compute_trust demo_graph "dave" "dr_chen" true (Some "climate"%string) [] 0
         default_decay.
Proof.
  apply (cached_score_wins demo_graph "dave" "dr_chen" true (Some "climate"%string)
           (Some "cooking"%string) [] [] 0 0 default_decay (1 # 2)).
  - discriminate.
  - lia.
  - intros H. inversion H.
  - reflexivity.
Defined.

(** Asked about cooking first, with that decay, he is told less. *)
Lemma asked_about_cooking_first :
  (compute_trust demo_graph "dave" "dr_chen" true (Some "cooking"%string) [] 0 (1 # 2)).1
  = (3024 # 320000)%Q
  /\ (compute_trust demo_graph "dave" "dr_chen" true (Some "climate"%string) [] 0
        default_decay).1
     = (12386304 # 100000000)%Q.
Proof. split; vm_compute; reflexivity. Qed.

Lemma demo_graph_unit (a : string) (out : list (string * Q)) :
  dict_get (edges demo_graph) a = Some out ->
  Forall (fun x : string * Q => (0 <= x.2 <= 1)%Q) out.
Proof.
  intros H. apply TrustNet.dict_get_elem in H. vm_compute in H.
  repeat (apply elem_of_cons in H as [H|H];
          [injection H as _ ->; repeat constructor; cbn; lra|]).
  inversion H.
Qed.

Lemma trust_between_zero_and_one_witness :
  (0 <= (compute_trust demo_graph "dave" "dr_chen" true (Some "climate"%string) [] 0
           default_decay).1 <= 1)%Q.
Proof.
  apply (trust_between_zero_and_one demo_graph).
  - unfold default_decay. lra.
  - exact demo_graph_unit.
  - intros k v H. cbn in H. rewrite lookup_empty in H. discriminate.
Defined.

Lemma no_repeaters_no_difference_witness :
  (compute_trust crossing "olga" "tom" true None [] 0 default_decay).1
  = (compute_trust crossing "olga" "tom" false None [] 0 default_decay).1.
Proof.
  apply (no_repeaters_no_difference crossing); reflexivity.
Defined.

End RepeaterScores.

(* ===================================================================== *)
(** * Paths and surfacing in the trust graph of the simulation *)
(* ===================================================================== *)

Module TrustPaths.
Import Py TrustNet.

(** ** The path explains the score *)

(** [walk g viewer path t]: [path] starts at [viewer] and follows edges
    of the graph; [t] is the trust accumulated along it, each weight
    times the decay. *)
Inductive walk (g : TrustGraph) (viewer : string) : list string -> Q -> Prop :=
| walk_start : walk g viewer [viewer] 1
| walk_step path t current out next_id weight :
    walk g viewer path t -> last path = Some current ->
    dict_get (direct_trust g) current = Some out -> (next_id, weight) ∈ out ->
    walk g viewer (path ++ [next_id]) (t * weight * decay g).

(** A path found for [target]: a walk to it that passes no identity
    twice, of at most [max_hops + 1] edges, with a positive score. *)
Definition found (g : TrustGraph) (viewer target : string) (max_hops : Z)
    (score : Q) (path : list string) : Prop :=
  walk g viewer path score /\ last path = Some target /\ NoDup path
  /\ Z.of_nat (length path) <= max_hops + 2 /\ (0 < score)%Q.

(** What the search keeps true. *)
Definition entry_ok (g : TrustGraph) (viewer : string) (vis : list string)
    (e : string * Q * list string) : Prop :=
  walk g viewer (e.2) (e.1.2) /\ last (e.2) = Some (e.1.1) /\ NoDup (e.2)
  /\ forall x, x ∈ e.2 -> x ∈ vis.

Definition search_ok (g : TrustGraph) (viewer target : string) (max_hops : Z)
    (s : search) : Prop :=
  (target ∉ visited s)
  /\ Forall (entry_ok g viewer (visited s)) (queue s)
  /\ ((best_path s = [] /\ best_score s = 0%Q)
      \/ found g viewer target max_hops (best_score s) (best_path s)).

Lemma entry_ok_grow (g : TrustGraph) (viewer : string) (vis : list string) (x : string)
    (e : string * Q * list string) :
  entry_ok g viewer vis e -> entry_ok g viewer (set_add vis x) e.
Proof.
  intros (Hw & Hl & Hn & Hv). repeat split; auto.
  intros y Hy. apply elem_of_set_add. left. now apply Hv.
Qed.

Lemma NoDup_snoc (l : list string) (x : string) : NoDup l -> x ∉ l -> NoDup (l ++ [x]).
Proof.
  intros Hl Hx. apply NoDup_app. split; [exact Hl|]. split; [|apply NoDup_singleton].
  intros y Hy Hy'. apply list_elem_of_singleton in Hy'. now subst y.
Qed.

Lemma visit_ok (g : TrustGraph) (viewer target : string) (max_hops : Z)
    (current : string) (t : Q) (path : list string) (out : list (string * Q))
    (s : search) (e : string * Q) :
  entry_ok g viewer (visited s) (current, t, path) ->
  Z.of_nat (length path) <= max_hops + 1 ->
  dict_get (direct_trust g) current = Some out -> e ∈ out ->
  search_ok g viewer target max_hops s ->
  search_ok g viewer target max_hops (visit g target t path s e)
  /\ entry_ok g viewer (visited (visit g target t path s e)) (current, t, path).
Proof.
  intros He Hlen Hout Hin (Ht & Hq & Hb). destruct e as [next_id weight].
  unfold visit. destruct (set_mem (visited s) next_id) eqn:Ev;
    [exact (conj (conj Ht (conj Hq Hb)) He)|].
  pose proof He as He0.
  destruct He as (Hw & Hl & Hn & Hv). cbn [fst snd] in *.
  assert (Hfresh : next_id ∉ path).
  { intros Hp. apply Hv, set_mem_true in Hp. congruence. }
  assert (Hwalk : walk g viewer (path ++ [next_id]) (t * weight * decay g)).
  { now apply (walk_step g viewer path t current out). }
  destruct (String.eqb_spec next_id target) as [->|Hne].
  - destruct (Repeaters.Qltb (best_score s) (t * weight * decay g)) eqn:Eb;
      [|exact (conj (conj Ht (conj Hq Hb)) He0)].
    apply Repeaters.Qltb_lt in Eb. split; [|exact He0].
    split; [exact Ht|]. split; [exact Hq|]. right. cbn [best_score best_path].
    split; [exact Hwalk|]. split; [apply last_snoc|].
    split; [now apply NoDup_snoc|]. split.
    + rewrite length_app. cbn [length]. lia.
    + destruct Hb as [[_ H0]|(_ & _ & _ & _ & Hpos)]; [rewrite H0 in Eb|]; lra.
  - split.
    + split.
      { cbn [visited]. intros Hin'. apply elem_of_set_add in Hin' as [Hin'|Hin'];
          [contradiction | congruence]. }
      split; [|exact Hb]. cbn [visited queue]. apply Forall_app. split.
      * eapply Forall_impl; [exact Hq|]. intros x. apply entry_ok_grow.
      * constructor; [|constructor]. split; [exact Hwalk|].
        split; [apply last_snoc|]. split; [now apply NoDup_snoc|].
        intros x Hx. apply elem_of_set_add. apply elem_of_app in Hx as [Hx|Hx].
        -- left. now apply Hv.
        -- right. now apply list_elem_of_singleton in Hx.
    + cbn [visited]. now apply entry_ok_grow.
Qed.

Lemma visits_ok (g : TrustGraph) (viewer target : string) (max_hops : Z)
    (current : string) (t : Q) (path : list string) (out : list (string * Q)) :
  Z.of_nat (length path) <= max_hops + 1 ->
  dict_get (direct_trust g) current = Some out ->
  forall l s, (forall e, e ∈ l -> e ∈ out) ->
    entry_ok g viewer (visited s) (current, t, path) ->
    search_ok g viewer target max_hops s ->
    search_ok g viewer target max_hops (foldl (visit g target t path) s l).
Proof.
  intros Hlen Hout l. induction l as [|e l IH]; intros s Hsub He Hs; cbn [foldl];
    [exact Hs|].
  destruct (visit_ok g viewer target max_hops current t path out s e He Hlen Hout)
    as [Hs' He']; [apply Hsub, list_elem_of_here | exact Hs |].
  apply IH; [|exact He'|exact Hs'].
  intros x Hx. apply Hsub. now apply list_elem_of_further.
Qed.

Lemma bfs_ok (g : TrustGraph) (viewer target : string) (max_hops : Z) (fuel : nat) :
  forall s score path,
  search_ok g viewer target max_hops s ->
  bfs g target max_hops fuel s = Some (score, path) ->
  (path = [] /\ score = 0%Q) \/ found g viewer target max_hops score path.
Proof.
  induction fuel as [|fuel IH]; intros s score path (Ht & Hq & Hb) H.
  - destruct s as [vis [|x q] b p]; cbn in H; [|destruct x as [[? ?] ?]; discriminate].
    now simplify_eq.
  - destruct s as [vis [|[[current t] pth] q] b p];
      cbn [bfs queue visited best_score best_path] in *; [now simplify_eq|].
    apply Forall_cons in Hq as [He Hq].
    assert (Hs : search_ok g viewer target max_hops (mkSearch vis q b p))
      by exact (conj Ht (conj Hq Hb)).
    destruct (Z.ltb_spec (max_hops + 1) (Z.of_nat (length pth))) as [Hskip|Hlen].
    + exact (IH _ _ _ Hs H).
    + refine (IH _ _ _ _ H).
      destruct (dict_get (direct_trust g) current) as [out|] eqn:Eout;
        cbn [default from_option foldl]; [|exact Hs].
      unfold id.
      apply (visits_ok g viewer target max_hops current t pth out Hlen Eout);
        [auto | exact He | exact Hs].
Qed.

(** X24. [compute_trust] always returns, and the path it returns explains the
    score: the viewer alone for itself; the one edge for a direct
    attestation, whose weight is the score undecayed; otherwise nothing
    with score zero, or a walk from the viewer to the target that passes
    no identity twice and has at most [max_hops + 1] edges, the score being
    the product of its weights, each times the decay. *)
Theorem path_explains_score (g : TrustGraph) (viewer target : string) (max_hops : Z) :
  exists score path,
    compute_trust g viewer target max_hops = Some (score, path)
    /\ ((viewer = target /\ score = 1%Q /\ path = [viewer])
        \/ (viewer <> target
            /\ dict_get (default [] (dict_get (direct_trust g) viewer)) target
               = Some score
            /\ path = [viewer; target])
        \/ (viewer <> target
            /\ dict_get (default [] (dict_get (direct_trust g) viewer)) target = None
            /\ ((path = [] /\ score = 0%Q)
                \/ (walk g viewer path score /\ last path = Some target /\ NoDup path
                    /\ Z.of_nat (length path) <= max_hops + 2 /\ (0 < score)%Q)))).
Proof.
  destruct (compute_trust_total g viewer target max_hops) as [[score path] Hr].
  exists score, path. split; [exact Hr|]. unfold compute_trust in Hr.
  destruct (String.eqb_spec viewer target) as [->|Hne].
  { left. now simplify_eq. }
  right. destruct (dict_get _ target) as [w|] eqn:Ew.
  { left. now simplify_eq. }
  right. split; [exact Hne|]. split; [reflexivity|].
  refine (bfs_ok g viewer target max_hops _ _ _ _ _ Hr).
  split; [|split]; cbn [visited queue best_score best_path].
  - intros H. apply list_elem_of_singleton in H. congruence.
  - constructor; [|constructor]. split; [constructor|]. split; [reflexivity|].
    split; [apply NoDup_singleton|]. auto.
  - now left.
Qed.

(** ** Surfacing *)

(** How [would_surface] files an author; the text of its message is left
    out. *)
Inductive surfacing := indexed | buffered | filtered.

(** [Identity.would_surface]: the decision, the trust and the filing, for
    the identity [self_cid] with its two thresholds; [get_trust] is
    [compute_trust] with the default [max_hops]. *)
Definition would_surface (g : TrustGraph) (self_cid author_cid : string)
    (trust_threshold index_threshold : Q) : option (bool * Q * surfacing) :=
  r ← compute_trust g self_cid author_cid 3;
  let trust := r.1 in
  if Qle_bool index_threshold trust then Some (true, trust, indexed)
  else if Qle_bool trust_threshold trust then Some (true, trust, buffered)
  else Some (false, trust, filtered).

(** The thresholds of [Identity.__init__]. *)
Definition default_trust_threshold : Q := 3 # 10.
Definition default_index_threshold : Q := 5 # 10.

(** X25. Raising the weight of an attestation hides nobody: with no negative
    weight in the graph, an author that an identity surfaced before is
    surfaced afterwards, an indexed one stays indexed, and the trust is no
    lower. *)
Theorem raised_weight_hides_nobody (g : TrustGraph) (a b : string) (w w' : Q)
    (self_cid author_cid : string) (trust_threshold index_threshold : Q) :
  nonneg g -> (0 <= decay g)%Q -> (0 <= w)%Q -> (w <= w')%Q ->
  exists r r',
    would_surface (add_trust g a b w) self_cid author_cid trust_threshold
      index_threshold = Some r
    /\ would_surface (add_trust g a b w') self_cid author_cid trust_threshold
         index_threshold = Some r'
    /\ (r.1.2 <= r'.1.2)%Q
    /\ (r.1.1 = true -> r'.1.1 = true)
    /\ (r.2 = indexed -> r'.2 = indexed).
Proof.
  intros Hg Hd H0 Hw.
  destruct (trust_graph_monotone (add_trust g a b w) (add_trust g a b w') self_cid
              author_cid 3 (add_trust_le g a b w w' Hg H0 Hw) Hd)
    as ([t p] & [t' p'] & Hr & Hr' & Hle).
  unfold would_surface. rewrite Hr, Hr'. cbn [mbind option_bind fst snd] in *.
  destruct (Qle_bool index_threshold t) eqn:E1.
  { apply Qle_bool_iff in E1.
    assert (E1' : Qle_bool index_threshold t' = true) by (apply Qle_bool_iff; lra).
    rewrite E1'. eexists _, _. split; [reflexivity|]. split; [reflexivity|]. cbn. auto. }
  destruct (Qle_bool trust_threshold t) eqn:E2.
  { apply Qle_bool_iff in E2.
    assert (E2' : Qle_bool trust_threshold t' = true) by (apply Qle_bool_iff; lra).
    rewrite E2'. destruct (Qle_bool index_threshold t');
      (eexists _, _; split; [reflexivity|]; split; [reflexivity|]; cbn;
       repeat split; auto; discriminate). }
  destruct (Qle_bool index_threshold t'), (Qle_bool trust_threshold t');
    (eexists _, _; split; [reflexivity|]; split; [reflexivity|]; cbn;
     repeat split; auto; discriminate).
Qed.

(** ** On the simulation's graph *)

(** Bob raises his trust in Carol; Alice reaches Carol through Bob. *)
Lemma raised_weight_hides_nobody_witness :
  exists r r',
    would_surface (add_trust simulation "bob" "carol" (1 # 2)) "alice" "carol"
      default_trust_threshold default_index_threshold = Some r
    /\ would_surface (add_trust simulation "bob" "carol" 1) "alice" "carol"
         default_trust_threshold default_index_threshold = Some r'
    /\ (r.1.2 <= r'.1.2)%Q
    /\ (r.1.1 = true -> r'.1.1 = true)
    /\ (r.2 = indexed -> r'.2 = indexed).
Proof.
  apply (raised_weight_hides_nobody simulation "bob" "carol" (1 # 2) 1 "alice" "carol").
  - exact simulation_nonneg.
  - cbn. lra.
  - lra.
  - lra.
Defined.

(** A chain of five: with [max_hops = 3] the search still finds the path
    of four edges from the first to the last. *)
Definition chain : TrustGraph :=
  let g := init in
  let g := add_trust g "a" "b" 1 in
  let g := add_trust g "b" "c" 1 in
  let g := add_trust g "c" "d" 1 in
  add_trust g "d" "e" 1.

Lemma four_edges_within_three_hops :
  compute_trust chain "a" "e" 3
  = Some ((4096 # 10000)%Q, ["a"; "b"; "c"; "d"; "e"]%string).
Proof. vm_compute. reflexivity. Qed.

End TrustPaths.

(* ===================================================================== *)
(** * The context window of [WellspringRAG.get_context] *)
(* ===================================================================== *)

Module Context.
Import Py.

Section Window.

(** [get_thought(cid, db_path=self.thought_db_path)] on the thought
    database as it stands, and [self.pipeline.extract_text]. [Thought]
    is the dataclass of [wellspring_core], the module [thread-3/core.py]
    is the local copy of. *)
Variable get_thought : string -> option Core.Thought.
Variable extract_text : Core.Thought -> string.
Variable max_tokens : Z.

(** The variables [add_thought] closes over. *)
Record state := mkState {
  context_parts : list string;
  token_estimate : Z;
  included_cids : list string
}.

(** [len(text) // 4] *)
Definition tokens_of (thought : Core.Thought) : Z :=
  Z.of_nat (String.length (extract_text thought)) / 4.

(** ["  " * depth] *)
Fixpoint indent (depth : nat) : string :=
  match depth with
  | O => EmptyString
  | S d => ("  " ++ indent d)%string
  end.

(** [f"{prefix}[{thought.type}] {text}"] *)
Definition part (thought : Core.Thought) (depth : nat) : string :=
  (indent depth ++ "[" ++ Core.type thought ++ "] " ++ extract_text thought)%string.

(** [add_thought]; [levels] bounds the recursion, which the source stops
    at [depth < 2]: it is [2 - depth]. *)
Fixpoint add_thought (levels : nat) (thought : Core.Thought) (depth : nat) (s : state)
  : state :=
  if set_mem (included_cids s) (Core.cid thought) then s
  else if max_tokens <? token_estimate s then s
  else
    let tokens := tokens_of thought in
    if max_tokens <? token_estimate s + tokens then s
    else
      let s := mkState (context_parts s ++ [part thought depth])
                       (token_estimate s + tokens)
                       (set_add (included_cids s) (Core.cid thought)) in
      if (depth <? 2)%nat then
        match levels with
        | O => s
        | S levels' =>
            foldl (fun s ref_cid =>
                     match get_thought ref_cid with
                     | Some ref_thought => add_thought levels' ref_thought (S depth) s
                     | None => s
                     end)
                  s (Core.because thought)
        end
      else s.

(** The loop of [get_context] over the CIDs [retrieve] returned, each
    with the thought the database holds for it, if any. *)
Definition collect (results : list string) : state :=
  foldl (fun s cid =>
           match get_thought cid with
           | Some thought => add_thought 2 thought 0 s
           | None => s
           end)
        (mkState [] 0 []) results.

(** ["\n".join(context_parts)] *)
Fixpoint join_lines (parts : list string) : string :=
  match parts with
  | [] => EmptyString
  | [p] => p
  | p :: rest => (p ++ String (ascii_of_nat 10) (join_lines rest))%string
  end.

Definition get_context (results : list string) : string :=
  join_lines (context_parts (collect results)).

(** ** The budget *)

(** [explains tds s]: the state [s] is what including the thoughts [tds],
    each at its depth, leaves. *)
Definition explains (tds : list (Core.Thought * nat)) (s : state) : Prop :=
  context_parts s = (fun td => part td.1 td.2) <$> tds
  /\ included_cids s = (fun td => Core.cid td.1) <$> tds
  /\ NoDup (included_cids s)
  /\ token_estimate s = foldr (fun td acc => tokens_of td.1 + acc) 0 tds
  /\ (tds = [] \/ token_estimate s <= max_tokens)
  /\ Forall (fun td => (td.2 <= 2)%nat /\ exists cid, get_thought cid = Some td.1) tds.

Lemma tokens_nonneg (thought : Core.Thought) : 0 <= tokens_of thought.
Proof. unfold tokens_of. apply Z.div_pos; lia. Qed.

Lemma sum_snoc (tds : list (Core.Thought * nat)) (td : Core.Thought * nat) :
  foldr (fun td acc => tokens_of td.1 + acc) 0 (tds ++ [td])
  = foldr (fun td acc => tokens_of td.1 + acc) 0 tds + tokens_of td.1.
Proof. induction tds as [|x tds IH]; cbn; [lia|]. rewrite IH. lia. Qed.

Lemma included_explains (thought : Core.Thought) (depth : nat) (s : state)
    (tds : list (Core.Thought * nat)) :
  (depth <= 2)%nat -> (exists cid, get_thought cid = Some thought) ->
  explains tds s ->
  set_mem (included_cids s) (Core.cid thought) = false ->
  token_estimate s + tokens_of thought <= max_tokens ->
  explains (tds ++ [(thought, depth)])
    (mkState (context_parts s ++ [part thought depth])
       (token_estimate s + tokens_of thought)
       (set_add (included_cids s) (Core.cid thought))).
Proof.
  intros Hd Hdb (Hp & Hc & Hn & Ht & Hb & Hf) Em Hfit.
  assert (Hfresh : Core.cid thought ∉ included_cids s).
  { intros Hin. apply set_mem_true in Hin. congruence. }
  unfold explains. cbn [context_parts token_estimate included_cids].
  rewrite (Pools.set_add_fresh _ _ Hfresh), !fmap_app, sum_snoc, Hp, Hc, Ht.
  cbn [fmap list_fmap fst snd]. repeat split; auto.
  - rewrite <- Hc. now apply TrustPaths.NoDup_snoc.
  - right. lia.
  - apply Forall_app. split; [exact Hf|]. constructor; [|constructor]. auto.
Qed.

Lemma add_thought_explains (levels : nat) :
  forall thought depth s tds,
  (depth <= 2)%nat -> (exists cid, get_thought cid = Some thought) ->
  explains tds s ->
  exists more, explains (tds ++ more) (add_thought levels thought depth s).
Proof.
  induction levels as [|levels IH]; intros thought depth s tds Hd Hdb Hs;
    cbn [add_thought];
    (destruct (set_mem (included_cids s) (Core.cid thought)) eqn:Em;
       [exists []; now rewrite app_nil_r|]);
    (destruct (max_tokens <? token_estimate s); [exists []; now rewrite app_nil_r|]);
    (destruct (Z.ltb_spec max_tokens (token_estimate s + tokens_of thought))
       as [_|Hfit]; [exists []; now rewrite app_nil_r|]);
    pose proof (included_explains thought depth s tds Hd Hdb Hs Em Hfit) as Hs'.
  - exists [(thought, depth)]. now destruct (depth <? 2)%nat.
  - destruct (Nat.ltb_spec depth 2) as [Hlt|_]; [|now exists [(thought, depth)]].
    set (s1 := mkState _ _ _) in *.
    assert (Hfold : forall refs s0 tds0, explains tds0 s0 ->
              exists more,
                explains (tds0 ++ more)
                  (foldl (fun s ref_cid =>
                            match get_thought ref_cid with
                            | Some ref_thought =>
                                add_thought levels ref_thought (S depth) s
                            | None => s
                            end) s0 refs)).
    { induction refs as [|ref refs IHr]; intros s0 tds0 H0; cbn [foldl].
      - exists []. now rewrite app_nil_r.
      - destruct (get_thought ref) as [rt|] eqn:Er; [|now apply IHr].
        destruct (IH rt (S depth) s0 tds0 ltac:(lia) ltac:(eauto) H0) as [m1 H1].
        destruct (IHr _ _ H1) as [m2 H2]. exists (m1 ++ m2). now rewrite app_assoc. }
    destruct (Hfold (Core.because thought) s1 _ Hs') as [more Hmore].
    exists ((thought, depth) :: more).
    rewrite <- app_assoc in Hmore. exact Hmore.
Qed.

(** X26. What [get_context] puts in the window: thoughts of the database, each
    once, at depth two at most; the token estimates of their texts add up
    to the estimate the loop keeps, which never exceeds [max_tokens]. *)
Theorem context_within_budget (results : list string) :
  exists tds,
    context_parts (collect results) = (fun td => part td.1 td.2) <$> tds
    /\ get_context results = join_lines ((fun td => part td.1 td.2) <$> tds)
    /\ NoDup ((fun td : Core.Thought * nat => Core.cid td.1) <$> tds)
    /\ foldr (fun td acc => tokens_of td.1 + acc) 0 tds = token_estimate (collect results)
    /\ (tds = [] \/ foldr (fun td acc => tokens_of td.1 + acc) 0 tds <= max_tokens)
    /\ Forall (fun td => (td.2 <= 2)%nat /\ exists cid, get_thought cid = Some td.1) tds.
Proof.
  assert (H : forall results s0 tds0, explains tds0 s0 ->
            exists more,
              explains (tds0 ++ more)
                (foldl (fun s cid =>
                          match get_thought cid with
                          | Some thought => add_thought 2 thought 0 s
                          | None => s
                          end) s0 results)).
  { clear results. induction results as [|c results IH]; intros s0 tds0 H0; cbn [foldl].
    - exists []. now rewrite app_nil_r.
    - destruct (get_thought c) as [t|] eqn:Et; [|now apply IH].
      destruct (add_thought_explains 2 t 0 s0 tds0 ltac:(lia) ltac:(eauto) H0)
        as [m1 H1].
      destruct (IH _ _ H1) as [m2 H2]. exists (m1 ++ m2). now rewrite app_assoc. }
  destruct (H results (mkState [] 0 []) []) as [tds Htds].
  { unfold explains. cbn. repeat split; auto. apply NoDup_nil_2. }
  cbn [app] in Htds. fold (collect results) in Htds.
  destruct Htds as (Hp & Hc & Hn & Ht & Hb & Hf).
  exists tds. unfold get_context. rewrite Hp, <- Hc, <- Ht. auto 10.
Qed.

End Window.

(** ** A small database

    A claim that cites its evidence, which cites a source too long for
    the budget of five tokens. *)
Definition claim_thought : Core.Thought :=
  Core.mkThought "cid:claim" "claim" (JStr "water is wet") "cid:alice" 3
    ["cid:evidence"%string] "" None None.

Definition evidence_thought : Core.Thought :=
  Core.mkThought "cid:evidence" "note" (JStr "rain") "cid:alice" 2
    ["cid:source"%string; "cid:claim"%string] "" None None.

Definition source_thought : Core.Thought :=
  Core.mkThought "cid:source" "note" (JStr "a long report on rain") "cid:alice" 1
    [] "" None None.

Definition small_db (cid : string) : option Core.Thought :=
  dict_get [("cid:claim"%string, claim_thought);
            ("cid:evidence"%string, evidence_thought);
            ("cid:source"%string, source_thought)] cid.

(** [extract_text] on a thought whose content is a string. *)
Definition text_of (thought : Core.Thought) : string :=
  match Core.content thought with
  | JStr text => text
  | _ => EmptyString
  end.

Lemma small_context :
  collect small_db text_of 5 ["cid:claim"%string; "cid:missing"%string]
  = mkState ["[claim] water is wet"%string; "  [note] rain"%string] 4
            ["cid:claim"%string; "cid:evidence"%string].
Proof. vm_compute. reflexivity. Qed.

End Context.

(* ===================================================================== *)
(** * Appetite notes and the query of the embedding pipeline *)
(* ===================================================================== *)

Module Appetite.
Import Py Embeddings.

#[local] Set Warnings "-inexact-float".

(** A row of [embedding_metadata] joined with its embedding: what [query]
    reads of it, and the pool it was indexed under. *)
Record entry := mkEntry {
  meta : row;
  pool_cid : option string
}.

(** [APPETITE_STATUSES] *)
Definition APPETITE_STATUSES : list (string * float) :=
  [("welcomed"%string, 1.0%float);
   ("unauthorized_claim"%string, 0.3%float);
   ("unverified_source"%string, 0.5%float);
   ("low_trust_path"%string, 0.4%float);
   ("pending_attestation"%string, 0.0%float);
   ("flagged"%string, 0.1%float)].

(** [UPDATE embedding_metadata SET appetite_status = ?, trust_weight = ?
    WHERE cid = ?] *)
Definition update_appetite (c status : string) (weight : float) (e : entry) : entry :=
  if String.eqb (cid (meta e)) c
  then mkEntry
         (mkRow (cid (meta e)) (similarity (meta e)) (text_content (meta e))
                (Some status) (Some weight) (chain_depth (meta e))
                (created_at (meta e)))
         (pool_cid e)
  else e.

(** [set_appetite]: [None] is the [ValueError] of an invalid status. *)
Definition set_appetite (table : list entry) (c status : string)
    (trust_weight : option float) : option (list entry) :=
  match dict_get APPETITE_STATUSES status with
  | None => None
  | Some by_status =>
      let weight := default by_status trust_weight in
      Some (update_appetite c status weight <$> table)
  end.

Section Query.

(** [results.sort(key=lambda x: x[1], reverse=True)]: some rearrangement
    of the list. *)
Variable sort_by_relevance : list (row * float) -> list (row * float).
Hypothesis sort_permutes : forall l, sort_by_relevance l ≡ₚ l.

(** The rows [query] fetches: those of the pool when one is given. *)
Definition fetched (table : list entry) (pool : option string) : list row :=
  meta <$> (if truthy pool
            then filter (fun e => pool_cid e = pool) table
            else table).

(** [query], on the similarities of the rows to the query text: the rows
    returned, each with its relevance. *)
Definition query (table : list entry) (top_k : Z) (pool : option string)
    (apply_trust_weighting exclude_pending : bool) (recency_decay : float) (now_ms : Z)
  : list (row * float) :=
  slice_to
    (sort_by_relevance
       (scored apply_trust_weighting exclude_pending recency_decay now_ms
          (fetched table pool)))
    top_k.

Lemma slice_to_elem {A} (l : list A) (n : Z) (x : A) : x ∈ slice_to l n -> x ∈ l.
Proof.
  unfold slice_to. destruct (0 <=? n); apply subseteq_take.
Qed.

Lemma slice_to_length {A} (l : list A) (n : Z) :
  0 <= n -> Z.of_nat (length (slice_to l n)) <= n.
Proof.
  intros Hn. unfold slice_to. destruct (Z.leb_spec 0 n); [|lia].
  rewrite length_take. lia.
Qed.

(** What a result of [query] is. *)
Lemma query_elem (table : list entry) (top_k : Z) (pool : option string)
    (apply_trust_weighting exclude_pending : bool) (recency_decay : float) (now_ms : Z)
    (r : row) (score : float) :
  (r, score) ∈ query table top_k pool apply_trust_weighting exclude_pending
                 recency_decay now_ms ->
  score = relevance apply_trust_weighting recency_decay now_ms r
  /\ (exclude_pending = true -> appetite_status r <> Some "pending_attestation"%string)
  /\ exists e, e ∈ table /\ meta e = r /\ (truthy pool = true -> pool_cid e = pool).
Proof.
  unfold query, scored, fetched. intros H. apply slice_to_elem in H.
  rewrite sort_permutes in H.
  apply list_elem_of_fmap in H as (r' & [= -> ->] & H).
  apply list_elem_of_filter in H as [Hkeep H].
  split; [reflexivity|]. split.
  { intros He Hp. apply Hkeep. now split. }
  apply list_elem_of_fmap in H as (e & -> & H). exists e.
  destruct (truthy pool).
  - apply list_elem_of_filter in H as [Hp H]. auto.
  - split; [exact H|]. split; [reflexivity | discriminate].
Qed.

(** X27. A thought marked [pending_attestation] is not surfaced: after
    [set_appetite] no default query returns it, whatever its similarity
    and the weight passed along; and what the query returns are at most
    [top_k] rows of the table. *)
Theorem pending_not_surfaced (table table' : list entry) (c : string)
    (trust_weight : option float) (top_k : Z) (pool : option string)
    (apply_trust_weighting : bool) (recency_decay : float) (now_ms : Z) :
  set_appetite table c "pending_attestation" trust_weight = Some table' ->
  (forall r score,
     (r, score) ∈ query table' top_k pool apply_trust_weighting true recency_decay
                    now_ms ->
     cid r <> c)
  /\ (0 <= top_k ->
      Z.of_nat (length (query table' top_k pool apply_trust_weighting true
                          recency_decay now_ms)) <= top_k)
  /\ length table' = length table.
Proof.
  unfold set_appetite. cbn [dict_get APPETITE_STATUSES String.eqb Ascii.eqb Bool.eqb].
  intros [= <-]. split; [|split].
  - intros r score H Hc.
    destruct (query_elem _ _ _ _ _ _ _ _ _ H) as (_ & Hnp & e & He & Hm & _).
    apply list_elem_of_fmap in He as (e0 & -> & _). subst r.
    unfold update_appetite in Hnp, Hc.
    destruct (String.eqb_spec (cid (meta e0)) c) as [Heq|Hne].
    + now apply Hnp.
    + contradiction.
  - intros Hk. now apply slice_to_length.
  - apply length_fmap.
Qed.

(** A status outside [APPETITE_STATUSES] is refused, and a valid one is
    written with the weight passed along, or with the weight of the
    status when none is: on the rows of the CID and on no other. *)
Lemma set_appetite_writes (table : list entry) (c status : string)
    (trust_weight : option float) :
  match dict_get APPETITE_STATUSES status with
  | None => set_appetite table c status trust_weight = None
  | Some by_status =>
      exists table',
        set_appetite table c status trust_weight = Some table'
        /\ Forall2 (fun e e' =>
                      pool_cid e' = pool_cid e /\ cid (meta e') = cid (meta e)
                      /\ similarity (meta e') = similarity (meta e)
                      /\ if String.eqb (cid (meta e)) c
                         then appetite_status (meta e') = Some status
                              /\ Embeddings.trust_weight (meta e')
                                 = Some (default by_status trust_weight)
                         else e' = e)
                   table table'
  end.
Proof.
  unfold set_appetite. destruct (dict_get APPETITE_STATUSES status) as [w|];
    [|reflexivity].
  eexists. split; [reflexivity|]. apply Forall2_fmap_r, Forall_Forall2_diag.
  apply Forall_forall. intros e _. unfold update_appetite.
  destruct (String.eqb (cid (meta e)) c) eqn:E; cbn; rewrite ?E;
    repeat split; reflexivity.
Qed.

End Query.

(** ** On a small table *)

Definition spam_entry : entry := mkEntry flagged_row None.

Definition memo_entry : entry :=
  mkEntry (mkRow "cid:blake3:memo" 0.5%float "memo" (Some "welcomed"%string)
                 (Some 1%float) (Some 0) None)
          (Some "pool_x"%string).

Definition small_table : list entry := [spam_entry; memo_entry].

Lemma id_permutes (l : list (row * float)) : id l ≡ₚ l.
Proof. reflexivity. Qed.

Lemma pending_not_surfaced_witness :
  match set_appetite small_table "cid:blake3:spam" "pending_attestation" None with
  | Some table' =>
      (forall r score,
         (r, score) ∈ query id table' 10 None true true 0.0001%float 1700000000000 ->
         cid r <> "cid:blake3:spam"%string)
      /\ (0 <= 10 ->
          Z.of_nat (length (query id table' 10 None true true 0.0001%float
                              1700000000000)) <= 10)
      /\ length table' = length small_table
  | None => False
  end.
Proof.
  destruct (set_appetite small_table "cid:blake3:spam" "pending_attestation" None)
    as [table'|] eqn:E.
  - exact (pending_not_surfaced id id_permutes small_table table' "cid:blake3:spam"
             None 10 None true 0.0001%float 1700000000000 E).
  - vm_compute in E. discriminate.
Defined.

End Appetite.
